(** * CodeLoop: the run supervisor and the pipeline driver

    A shallow embedding of the two programs of the repository that carry
    the orchestration logic:

    - the supervisor, [src/main/script-runner.ts] in its latest revision
      (phase map, log-entry handling, line parsing, the log poller,
      background finalization, startup reconciliation, the pull-request
      lifecycle, [stopRun]);
    - the driver, [opencode-loop.sh] (configuration loading, the
      retry-with-backoff wrapper, output cleaning, branch-name generation
      and the phase pipeline).

    Strings are sequences of 8-bit characters.  Case conversion and the
    white-space classes act on the ASCII range; JavaScript's non-ASCII case
    mappings and white space lie outside the model.  External programs
    ([git], [gh], [opencode], the file system, the process table, the
    clock) are inputs: every function that consults one takes its answer
    as an argument.  So is the scheduling of a shell pipeline: whether the
    writer at the head of a pipe is killed by SIGPIPE, because its reader
    has quit before the end of the text, is an argument of the function
    that runs the pipeline. *)

From Stdlib Require Import ZArith Lia Bool Ascii.
From Stdlib Require String.
From stdpp Require Import base option list strings pretty gmap.

Set Warnings "-clear-no-such-hyp".

(** ** Characters and strings *)

Module Str.

Definition code (c : ascii) : nat := nat_of_ascii c.

Definition is_digit (c : ascii) : bool :=
  (48 <=? code c)%nat && (code c <=? 57)%nat.

Definition is_lower (c : ascii) : bool :=
  (97 <=? code c)%nat && (code c <=? 122)%nat.

Definition is_upper (c : ascii) : bool :=
  (65 <=? code c)%nat && (code c <=? 90)%nat.

Definition newline : ascii := ascii_of_nat 10.

(** POSIX [[:space:]] and the ASCII part of JavaScript's [\s]:
    space, \t, \n, \v, \f, \r. *)
Definition is_space (c : ascii) : bool :=
  (code c =? 32)%nat || ((9 <=? code c)%nat && (code c <=? 13)%nat).

(** A regular expression's [.] in JavaScript: anything but \n and \r. *)
Definition is_ascii (c : ascii) : bool := (code c <? 128)%nat.

Definition is_dot (c : ascii) : bool :=
  negb ((code c =? 10)%nat || (code c =? 13)%nat).

Definition upper (c : ascii) : ascii :=
  if is_lower c then ascii_of_nat (code c - 32) else c.

Definition lower (c : ascii) : ascii :=
  if is_upper c then ascii_of_nat (code c + 32) else c.

Fixpoint map (f : ascii -> ascii) (s : string) : string :=
  match s with
  | EmptyString => EmptyString
  | String c r => String (f c) (map f r)
  end.

Fixpoint all (p : ascii -> bool) (s : string) : bool :=
  match s with
  | EmptyString => true
  | String c r => p c && all p r
  end.

Definition toUpperCase : string -> string := map upper.
Definition toLowerCase : string -> string := map lower.

Definition eqb (a b : string) : bool := bool_decide (a = b).

Definition is_empty (s : string) : bool :=
  match s with EmptyString => true | _ => false end.

(** [strip_prefix p s] is the rest of [s] after [p], when [s] starts with [p]. *)
Fixpoint strip_prefix (p s : string) : option string :=
  match p, s with
  | EmptyString, _ => Some s
  | String a p', String b s' =>
      if bool_decide (a = b) then strip_prefix p' s' else None
  | String _ _, EmptyString => None
  end.

Definition startsWith (s p : string) : bool :=
  match strip_prefix p s with Some _ => true | None => false end.

(** [includes s sub]: [sub] occurs somewhere in [s]. *)
Fixpoint includes (s sub : string) : bool :=
  startsWith s sub ||
  match s with
  | EmptyString => false
  | String _ r => includes r sub
  end.

(** The longest prefix whose characters satisfy [p], and the rest. *)
Fixpoint span (p : ascii -> bool) (s : string) : string * string :=
  match s with
  | EmptyString => (EmptyString, EmptyString)
  | String c r =>
      if p c then let '(a, b) := span p r in (String c a, b)
      else (EmptyString, s)
  end.

Definition drop_while (p : ascii -> bool) (s : string) : string :=
  snd (span p s).

Definition rev (s : string) : string :=
  String.string_of_list_ascii (List.rev (String.list_ascii_of_string s)).

(** [s] without its longest suffix of characters that satisfy [p]. *)
Fixpoint drop_while_end (p : ascii -> bool) (s : string) : string :=
  match s with
  | EmptyString => EmptyString
  | String c r =>
      let r' := drop_while_end p r in
      if is_empty r' && p c then EmptyString else String c r'
  end.

(** [String.prototype.trim], and the driver's [trim] on one line. *)
Definition trim (s : string) : string :=
  drop_while_end is_space (drop_while is_space s).

(** Splitting on a separator character, keeping empty fields
    ([String.prototype.split] with a one-character separator). *)
Fixpoint split (sep : ascii) (s : string) : list string :=
  match s with
  | EmptyString => [EmptyString]
  | String c r =>
      if bool_decide (c = sep) then EmptyString :: split sep r
      else match split sep r with
           | x :: l => String c x :: l
           | [] => [String c EmptyString]
           end
  end.

Fixpoint join (sep : string) (l : list string) : string :=
  match l with
  | [] => EmptyString
  | [x] => x
  | x :: r => x +:+ sep +:+ join sep r
  end.

(** The first [n] characters. *)
Fixpoint take (n : nat) (s : string) : string :=
  match n, s with
  | O, _ => EmptyString
  | S _, EmptyString => EmptyString
  | S n', String c r => String c (take n' r)
  end.

End Str.

(** ** The supervisor's data model ([src/shared/types.ts]) *)

Definition PIPELINE_PHASES : list string :=
  ["CLONE"; "SETUP"; "PLAN"; "IMPLEMENT"; "REVIEW"; "FIX"; "COMMIT"; "PUSH"; "PR"].

Inductive PhaseStatus := PhPending | PhActive | PhCompleted | PhSkipped | PhFailed.

Inductive RunStatus := RunRunning | RunCompleted | RunFailed | RunStopped.

Inductive PrMergeStatus :=
  PrNone | PrChecking | PrReady | PrConflict | PrAutoMerging | PrMerged | PrFailed.

Inductive RunMode := Foreground | Background.

#[global] Instance PhaseStatus_eq_dec : EqDecision PhaseStatus.
Proof. solve_decision. Defined.
#[global] Instance RunStatus_eq_dec : EqDecision RunStatus.
Proof. solve_decision. Defined.
#[global] Instance PrMergeStatus_eq_dec : EqDecision PrMergeStatus.
Proof. solve_decision. Defined.
#[global] Instance RunMode_eq_dec : EqDecision RunMode.
Proof. solve_decision. Defined.

Record LogEntry := mkLogEntry {
  timestamp : string;
  phase : string;
  message : string;
  raw : string;
}.

(** [RunState], with [null] as [None].  The fields [repoPath], [repoName],
    [prompt], [startedAt], [skipPlan], [background], [modelOverrides] and
    [skipPr] are written once by [startRun] and read by none of the
    functions below; they are left out. *)
Record RunState := mkRunState {
  id : string;
  branchName : string;
  status : RunStatus;
  currentPhase : string;
  phases : gmap string PhaseStatus;
  logs : list LogEntry;
  prUrl : option string;
  prTitle : option string;
  prNumber : option Z;
  prHeadRef : option string;
  prBaseRef : option string;
  prMergeStatus : PrMergeStatus;
  prMergeMessage : option string;
  finishedAt : option Z;
  pid : option Z;
  planText : option string;
  runMode : RunMode;
  logFilePath : option string;
  logFileOffset : Z;
  autoMerge : bool;
}.

(** Field assignments ([state.f = v]). *)
Definition set_branchName (v : string) (s : RunState) : RunState :=
  let '(mkRunState a b c d e f g h i j k l m n o p q r t u) := s in
  mkRunState a v c d e f g h i j k l m n o p q r t u.
Definition set_status (v : RunStatus) (s : RunState) : RunState :=
  let '(mkRunState a b c d e f g h i j k l m n o p q r t u) := s in
  mkRunState a b v d e f g h i j k l m n o p q r t u.
Definition set_currentPhase (v : string) (s : RunState) : RunState :=
  let '(mkRunState a b c d e f g h i j k l m n o p q r t u) := s in
  mkRunState a b c v e f g h i j k l m n o p q r t u.
Definition set_phases (v : gmap string PhaseStatus) (s : RunState) : RunState :=
  let '(mkRunState a b c d e f g h i j k l m n o p q r t u) := s in
  mkRunState a b c d v f g h i j k l m n o p q r t u.
Definition set_logs (v : list LogEntry) (s : RunState) : RunState :=
  let '(mkRunState a b c d e f g h i j k l m n o p q r t u) := s in
  mkRunState a b c d e v g h i j k l m n o p q r t u.
Definition set_prUrl (v : option string) (s : RunState) : RunState :=
  let '(mkRunState a b c d e f g h i j k l m n o p q r t u) := s in
  mkRunState a b c d e f v h i j k l m n o p q r t u.
Definition set_prTitle (v : option string) (s : RunState) : RunState :=
  let '(mkRunState a b c d e f g h i j k l m n o p q r t u) := s in
  mkRunState a b c d e f g v i j k l m n o p q r t u.
Definition set_prNumber (v : option Z) (s : RunState) : RunState :=
  let '(mkRunState a b c d e f g h i j k l m n o p q r t u) := s in
  mkRunState a b c d e f g h v j k l m n o p q r t u.
Definition set_prHeadRef (v : option string) (s : RunState) : RunState :=
  let '(mkRunState a b c d e f g h i j k l m n o p q r t u) := s in
  mkRunState a b c d e f g h i v k l m n o p q r t u.
Definition set_prBaseRef (v : option string) (s : RunState) : RunState :=
  let '(mkRunState a b c d e f g h i j k l m n o p q r t u) := s in
  mkRunState a b c d e f g h i j v l m n o p q r t u.
Definition set_prMergeStatus (v : PrMergeStatus) (s : RunState) : RunState :=
  let '(mkRunState a b c d e f g h i j k l m n o p q r t u) := s in
  mkRunState a b c d e f g h i j k v m n o p q r t u.
Definition set_prMergeMessage (v : option string) (s : RunState) : RunState :=
  let '(mkRunState a b c d e f g h i j k l m n o p q r t u) := s in
  mkRunState a b c d e f g h i j k l v n o p q r t u.
Definition set_finishedAt (v : option Z) (s : RunState) : RunState :=
  let '(mkRunState a b c d e f g h i j k l m n o p q r t u) := s in
  mkRunState a b c d e f g h i j k l m v o p q r t u.
Definition set_pid (v : option Z) (s : RunState) : RunState :=
  let '(mkRunState a b c d e f g h i j k l m n o p q r t u) := s in
  mkRunState a b c d e f g h i j k l m n v p q r t u.
Definition set_planText (v : option string) (s : RunState) : RunState :=
  let '(mkRunState a b c d e f g h i j k l m n o p q r t u) := s in
  mkRunState a b c d e f g h i j k l m n o v q r t u.
Definition set_logFilePath (v : option string) (s : RunState) : RunState :=
  let '(mkRunState a b c d e f g h i j k l m n o p q r t u) := s in
  mkRunState a b c d e f g h i j k l m n o p q v t u.
Definition set_logFileOffset (v : Z) (s : RunState) : RunState :=
  let '(mkRunState a b c d e f g h i j k l m n o p q r t u) := s in
  mkRunState a b c d e f g h i j k l m n o p q r v u.

(** ** The phase map ([script-runner.ts]) *)

Definition is_pipeline_phase (p : string) : bool :=
  bool_decide (p ∈ PIPELINE_PHASES).

(** [state.phases[p] === 'active'], false for a key that is absent. *)
Definition phase_is (st : PhaseStatus) (ph : gmap string PhaseStatus) (p : string) : bool :=
  bool_decide (ph !! p = Some st).

Definition createInitialPhases (skipPlan skipPr : bool) : gmap string PhaseStatus :=
  foldl (fun (phases : gmap string PhaseStatus) (phase : string) =>
           if Str.eqb phase "PLAN" && skipPlan then <[phase := PhSkipped]> phases
           else if (Str.eqb phase "PR" || Str.eqb phase "PUSH") && skipPr
                then <[phase := PhSkipped]> phases
                else <[phase := PhPending]> phases)
        ∅ PIPELINE_PHASES.

(** [for (const p of PIPELINE_PHASES) if (phases[p] === 'active') phases[p] = to],
    skipping the phase [except] when one is given. *)
Definition retire_active (to : PhaseStatus) (except : option string)
    (ph : gmap string PhaseStatus) : gmap string PhaseStatus :=
  foldl (fun (acc : gmap string PhaseStatus) (p : string) =>
           if phase_is PhActive acc p && negb (bool_decide (except = Some p))
           then <[p := to]> acc else acc)
        ph PIPELINE_PHASES.

Definition updatePhaseStatus (state : RunState) (phase : string) : RunState :=
  let phaseUpper := Str.toUpperCase phase in
  if negb (is_pipeline_phase phaseUpper) then state
  else
    let ph1 := retire_active PhCompleted (Some phaseUpper) (phases state) in
    let ph2 := if negb (phase_is PhSkipped ph1 phaseUpper)
               then <[phaseUpper := PhActive]> ph1 else ph1 in
    set_currentPhase phaseUpper (set_phases ph2 state).

Definition markPhaseCompleted (state : RunState) (phase : string) : RunState :=
  let phaseUpper := Str.toUpperCase phase in
  if is_pipeline_phase phaseUpper && phase_is PhActive (phases state) phaseUpper
  then set_phases (<[phaseUpper := PhCompleted]> (phases state)) state
  else state.

(** ** The outside world, as the supervisor sees it *)

Inductive Signal := SIGTERM | SIGKILL.

Record World := mkWorld {
  (** the bytes of a file, [None] when it does not exist; a file that
      exists is taken to be readable (a read that throws is left out) *)
  readFile : string -> option string;
  (** the text that decoding as UTF-8 makes of bytes that are not all ASCII *)
  utf8ToText : string -> string;
  (** [process.kill(pid, 0)] returns without throwing *)
  processAlive : Z -> bool;
  (** [Date.now()] *)
  now : Z;
  (** [new Date().toISOString().replace('T', ' ').substring(0, 19)] *)
  nowText : string;
  (** [Anser.ansiToText] *)
  ansiToText : string -> string;
  (** [process.kill(target, signal)] returns without throwing; a negative
      target addresses a process group *)
  signalOk : Z -> Signal -> bool;
}.

(** What the supervisor sends out: messages to the renderer, writes to the
    run history, signals, and the asynchronous tasks it launches. *)
Inductive Effect :=
| Send_RUN_LOG (runId : string) (entry : LogEntry)
| Send_RUN_PHASE (runId : string) (currentPhase : string) (phases : gmap string PhaseStatus)
| Send_RUN_STATUS (runId : string) (state : RunState)
| Send_RUN_DONE (runId : string) (prUrl : option string) (status : RunStatus) (finishedAt : option Z)
| PersistRunState (state : RunState)
| SchedulePersist
| Launch_maybeAutoMergeRun (runId : string)
| ClearInterval (runId : string)
| SetInterval (runId : string)
| KillGroup (pid : Z) (sig : Signal)
| KillPid (pid : Z) (sig : Signal)
| KillChild (runId : string) (sig : Signal)
| SetTimeout_escalate (runId : string) (pid : Z)
| ShowNotification
| Gh_pr_view (prUrl : string)
| Gh_pr_merge (prUrl : string).

(** ** Log entries ([script-runner.ts]) *)

Definition MAX_LOGS_PER_RUN : nat := Z.to_nat 10000.

(** [PLAN_FILE_REGEX = /Plan saved to (.+)$/]: the first capture of the
    leftmost match. *)
Fixpoint plan_file_match (s : string) : option string :=
  let here :=
    match Str.strip_prefix "Plan saved to " s with
    | Some r => if negb (Str.is_empty r) && Str.all Str.is_dot r then Some r else None
    | None => None
    end in
  match here with
  | Some r => Some r
  | None => match s with
            | EmptyString => None
            | String _ t => plan_file_match t
            end
  end.

(** [PR_URL_REGEX = /PR created:\s*(https:\/\/\S+)/]: the first capture of
    the leftmost match. *)
Fixpoint pr_url_match (s : string) : option string :=
  let here :=
    match Str.strip_prefix "PR created:" s with
    | Some r =>
        match Str.strip_prefix "https://" (Str.drop_while Str.is_space r) with
        | Some u =>
            let path := fst (Str.span (fun c => negb (Str.is_space c)) u) in
            if Str.is_empty path then None else Some ("https://" +:+ path)
        | None => None
        end
    | None => None
    end in
  match here with
  | Some u => Some u
  | None => match s with
            | EmptyString => None
            | String _ t => pr_url_match t
            end
  end.

(** [/^Completed in \d+s/] *)
Definition completed_in_match (s : string) : bool :=
  match Str.strip_prefix "Completed in " s with
  | Some r =>
      let '(digits, rest) := Str.span Str.is_digit r in
      negb (Str.is_empty digits) && Str.startsWith rest "s"
  | None => false
  end.

(** [state.logs.push(entry)] followed by the splice that keeps the newest
    [MAX_LOGS_PER_RUN] entries. *)
Definition push_log (entry : LogEntry) (l : list LogEntry) : list LogEntry :=
  let l' := l ++ [entry] in
  if (MAX_LOGS_PER_RUN <? length l')%nat then drop (length l' - MAX_LOGS_PER_RUN) l' else l'.

(** [buffer.toString('utf-8')] and [fs.readFileSync(path, 'utf-8')] on
    the bytes read: ASCII bytes are the text itself. *)
Definition toString_utf8 (w : World) (bytes : string) : string :=
  if Str.all Str.is_ascii bytes then bytes else utf8ToText w bytes.

Definition capture_plan (w : World) (entry : LogEntry) (state : RunState) : RunState :=
  match plan_file_match (message entry) with
  | Some m =>
      let planPath := Str.trim m in
      if Str.is_empty planPath then state
      else match readFile w planPath with
           | Some content =>
               let planText := Str.trim (toString_utf8 w content) in
               if Str.is_empty planText then state else set_planText (Some planText) state
           | None => state
           end
  | None => state
  end.

(** The phase-transition part of [handleLogEntry]. *)
Definition detect_transition (entry : LogEntry) (state : RunState) : RunState :=
  let phase := Str.toUpperCase (phase entry) in
  if Str.eqb phase "DONE" then
    let state := set_phases (retire_active PhCompleted None (phases state)) state in
    match pr_url_match (message entry) with
    | Some url =>
        set_prMergeMessage (Some "Pull request created. Checking merge status...")
          (set_prMergeStatus PrChecking (set_prUrl (Some url) state))
    | None => state
    end
  else if Str.eqb phase "FIX" then
    if Str.includes (message entry) "Skipped"
    then set_phases (<["FIX" := PhSkipped]> (phases state)) state
    else updatePhaseStatus state phase
  else if Str.eqb phase "PLAN" && Str.includes (message entry) "Skipped" then
    set_phases (<["PLAN" := PhSkipped]> (phases state)) state
  else if is_pipeline_phase phase then
    if completed_in_match (message entry)
    then markPhaseCompleted state phase
    else updatePhaseStatus state phase
  else state.

Definition handleLogEntry (w : World) (runId : string) (entry : LogEntry)
    (state : RunState) : RunState * list Effect :=
  let state :=
    if Str.eqb (Str.toUpperCase (phase entry)) "PLAN"
    then capture_plan w entry state else state in
  let state := set_logs (push_log entry (logs state)) state in
  let state := detect_transition entry state in
  (state,
   [Send_RUN_LOG runId entry;
    Send_RUN_PHASE runId (currentPhase state) (phases state);
    PersistRunState state]).

(** ** Finalization ([script-runner.ts]) *)

(** Truthiness of a [string | null]: neither [null] nor empty. *)
Definition truthy (o : option string) : bool :=
  match o with
  | Some v => negb (Str.is_empty v)
  | None => false
  end.

Definition inferCompletedFromLogs (state : RunState) : bool :=
  existsb (fun entry =>
             Str.eqb (Str.toUpperCase (phase entry)) "DONE"
             && Str.includes (message entry) "Total duration:")
          (logs state).

Definition finalizeBackgroundRun (w : World) (runId : string) (state : RunState)
    : RunState * list Effect :=
  if negb (bool_decide (status state = RunRunning)) then (state, [])
  else
    let state := set_finishedAt (Some (now w)) state in
    let state :=
      if inferCompletedFromLogs state
      then set_phases (retire_active PhCompleted None (phases state))
             (set_status RunCompleted state)
      else set_phases (retire_active PhFailed None (phases state))
             (set_status RunFailed state) in
    (state,
     [Send_RUN_STATUS runId state;
      Send_RUN_DONE runId (prUrl state) (status state) (finishedAt state);
      PersistRunState state]
     ++ (if bool_decide (status state = RunCompleted) && truthy (prUrl state)
         then [Launch_maybeAutoMergeRun runId] else [])).

(** The [close] handler that [startRun] installs on the child process,
    after its buffers are flushed; [code] is the exit code. *)
Definition onClose (w : World) (runId : string) (code : Z) (state : RunState)
    : RunState * list Effect :=
  let done state :=
    [Send_RUN_STATUS runId state;
     Send_RUN_DONE runId (prUrl state) (status state) (finishedAt state);
     PersistRunState state] in
  match runMode state with
  | Background =>
      let '(state, e1) :=
        if bool_decide (code = 0%Z) && bool_decide (status state = RunRunning)
           && negb (truthy (logFilePath state))
        then
          let state :=
            set_prMergeMessage (Some "Background run exited before streaming started.")
              (set_prMergeStatus (if truthy (prUrl state) then PrChecking else PrNone)
                 (set_finishedAt (Some (now w)) (set_status RunFailed state))) in
          (state, done state)
        else (state, []) in
      let '(state, e2) :=
        if negb (bool_decide (code = 0%Z)) && bool_decide (status state = RunRunning)
        then
          let state := set_finishedAt (Some (now w)) (set_status RunFailed state) in
          (state, done state)
        else (state, []) in
      (state, e1 ++ e2)
  | Foreground =>
      let state := set_finishedAt (Some (now w)) state in
      let '(state, notified) :=
        if bool_decide (status state = RunStopped) then (state, [])
        else if bool_decide (code = 0%Z)
        then (set_phases (retire_active PhCompleted None (phases state))
                (set_status RunCompleted state), [ShowNotification])
        else (set_phases (retire_active PhFailed None (phases state))
                (set_status RunFailed state), [ShowNotification]) in
      (state,
       notified ++ done state
       ++ (if bool_decide (status state = RunCompleted) && truthy (prUrl state)
           then [Launch_maybeAutoMergeRun runId] else []))
  end.

(** ** Parsing a line ([script-runner.ts]) *)

(** A lazy group [(.+?)] followed by the literal [sep] and by whatever [k]
    accepts: the shortest non-empty run of [.] characters that lets the
    rest match. *)
Fixpoint lazy_group {A : Type} (sep : string) (k : string -> option A)
    (s : string) : option (string * A) :=
  match s with
  | EmptyString => None
  | String c r =>
      if Str.is_dot c then
        match from_option k None (Str.strip_prefix sep r) with
        | Some a => Some (String c EmptyString, a)
        | None =>
            match lazy_group sep k r with
            | Some (g, a) => Some (String c g, a)
            | None => None
            end
        end
      else None
  end.

(** [LOG_LINE_REGEX]: at the start of the text a bracketed lazy group
    [(.+?)], a space, a second bracketed lazy group, a space, and then
    any run of [.] characters up to the end of the text. *)
Definition log_line_match (s : string) : option (string * string * string) :=
  match Str.strip_prefix "[" s with
  | Some r =>
      match lazy_group "] ["
              (lazy_group "] " (fun m => if Str.all Str.is_dot m then Some m else None)) r with
      | Some (ts, (ph, m)) => Some (ts, ph, m)
      | None => None
      end
  | None => None
  end.

Definition parseLine (w : World) (raw : string) : option LogEntry :=
  let clean := ansiToText w raw in
  match log_line_match clean with
  | Some (ts, ph, m) => Some (mkLogEntry ts ph m clean)
  | None =>
      if negb (Str.is_empty (Str.trim clean))
      then Some (mkLogEntry (nowText w) "OUTPUT" (Str.trim clean) clean)
      else None
  end.

(** ** The run registry ([script-runner.ts]) *)

Definition ChildProcess := Z.

Record ActiveRun := mkActiveRun {
  state : RunState;
  process : option ChildProcess;
  (** an interval timer running [poll] is installed *)
  logPoller : bool;
  logLineBuffer : string;
}.

(** The module's two maps and its debounce timer, with everything sent
    out so far.  A run's state object is the one held by its [activeRuns]
    entry; [persistedRuns] holds the copy made by [persistRunState]. *)
Record Registry := mkRegistry {
  activeRuns : gmap string ActiveRun;
  persistedRuns : gmap string RunState;
  persistTimer : bool;
  sent : list Effect;
}.

Definition emit (e : Effect) (reg : Registry) : Registry :=
  mkRegistry (activeRuns reg) (persistedRuns reg) (persistTimer reg) (sent reg ++ [e]).

Definition schedulePersist (reg : Registry) : Registry :=
  if persistTimer reg then reg
  else mkRegistry (activeRuns reg) (persistedRuns reg) true (sent reg ++ [SchedulePersist]).

Definition persistRunState (st : RunState) (reg : Registry) : Registry :=
  schedulePersist
    (mkRegistry (activeRuns reg) (<[id st := st]> (persistedRuns reg))
       (persistTimer reg) (sent reg ++ [PersistRunState st])).

(** Carrying out what a function on a run's state asked for. *)
Definition perform (e : Effect) (reg : Registry) : Registry :=
  match e with
  | PersistRunState st => persistRunState st reg
  | _ => emit e reg
  end.

Definition perform_all (es : list Effect) (reg : Registry) : Registry :=
  foldl (fun r e => perform e r) reg es.

Definition set_active (runId : string) (a : ActiveRun) (reg : Registry) : Registry :=
  mkRegistry (<[runId := a]> (activeRuns reg)) (persistedRuns reg) (persistTimer reg) (sent reg).

Definition set_persisted (runId : string) (st : RunState) (reg : Registry) : Registry :=
  mkRegistry (activeRuns reg) (<[runId := st]> (persistedRuns reg)) (persistTimer reg) (sent reg).

(** Writing back the state object of an active run together with what the
    function that changed it sent out. *)
Definition commit (runId : string) (r : RunState * list Effect) (reg : Registry) : Registry :=
  let reg :=
    match activeRuns reg !! runId with
    | Some a => set_active runId (mkActiveRun (fst r) (process a) (logPoller a) (logLineBuffer a)) reg
    | None => reg
    end in
  perform_all (snd r) reg.

Definition getRunById (runId : string) (reg : Registry) : option RunState :=
  match activeRuns reg !! runId with
  | Some a => Some (state a)
  | None => persistedRuns reg !! runId
  end.

Definition isProcessAlive (w : World) (pid : option Z) : bool :=
  match pid with
  | Some p => if (p <=? 0)%Z then false else processAlive w p
  | None => false
  end.

Definition readNewLogChunk (w : World) (filePath : string) (offset : Z) : string * Z :=
  match readFile w filePath with
  | None => (EmptyString, offset)
  | Some content =>
      let size := Z.of_nat (String.length content) in
      if (size <=? offset)%Z then (EmptyString, size)
      else (toString_utf8 w
              (String.substring (Z.to_nat offset) (Z.to_nat (size - offset)) content),
            size)
  end.

Definition stopPolling (runId : string) (reg : Registry) : Registry :=
  match activeRuns reg !! runId with
  | Some a =>
      if logPoller a
      then emit (ClearInterval runId)
             (set_active runId (mkActiveRun (state a) (process a) false (logLineBuffer a)) reg)
      else reg
  | None => reg
  end.

(** One line of a run's output: parsed, and handled when it parses.  The
    standard-output reader and the log poller also pick up the branch name. *)
Definition feed_line (w : World) (runId : string) (detectBranch : bool)
    (line : string) (st : RunState) : RunState * list Effect :=
  if Str.is_empty (Str.trim line) then (st, [])
  else
    match parseLine w line with
    | None => (st, [])
    | Some entry =>
        let st :=
          if detectBranch && Str.eqb (phase entry) "INIT" then
            match Str.strip_prefix "Target branch:" (message entry) with
            | Some rest => set_branchName (Str.trim rest) st
            | None => st
            end
          else st in
        handleLogEntry w runId entry st
    end.

Definition feed_lines (w : World) (runId : string) (detectBranch : bool)
    (lines : list string) (st : RunState) : RunState * list Effect :=
  foldl (fun (acc : RunState * list Effect) line =>
           let '(st', es) := feed_line w runId detectBranch line (fst acc) in
           (st', snd acc ++ es))
        (st, []) lines.

Definition set_buffer (runId : string) (buf : string) (reg : Registry) : Registry :=
  match activeRuns reg !! runId with
  | Some a => set_active runId (mkActiveRun (state a) (process a) (logPoller a) buf) reg
  | None => reg
  end.

(** One tick of the poller that [startBackgroundLogPolling] installs. *)
Definition poll (w : World) (runId : string) (reg : Registry) : Registry :=
  match activeRuns reg !! runId with
  | None => reg
  | Some current =>
      let st := state current in
      if negb (bool_decide (status st = RunRunning)) then stopPolling runId reg
      else
        let '(chunk, nextOffset) :=
          match logFilePath st with
          | Some path => readNewLogChunk w path (logFileOffset st)
          | None => (EmptyString, logFileOffset st)
          end in
        let st := set_logFileOffset nextOffset st in
        let '(st, es, buf) :=
          if Str.is_empty chunk then (st, [], logLineBuffer current)
          else
            let lines := Str.split Str.newline (logLineBuffer current +:+ chunk) in
            let '(st, es) := feed_lines w runId true (removelast lines) st in
            (st, es, List.last lines EmptyString) in
        let reg := set_buffer runId buf (commit runId (st, es) reg) in
        if isProcessAlive w (pid st) then reg
        else
          let '(st, reg) :=
            if negb (Str.is_empty (Str.trim buf)) then
              let r := match parseLine w buf with
                       | Some tailEntry => handleLogEntry w runId tailEntry st
                       | None => (st, [])
                       end in
              (fst r, set_buffer runId EmptyString (commit runId r reg))
            else (st, reg) in
          let reg := stopPolling runId reg in
          commit runId (finalizeBackgroundRun w runId st) reg
  end.

(** The tick that [startBackgroundLogPolling] runs at once when
    [loadPersistedRuns] calls it, which is while the module is being
    loaded: [LOG_LINE_REGEX] is declared further down and is not
    initialised yet, so the first call of [parseLine] throws and the
    [catch] of the tick ends the tick there. *)
Definition poll_while_loading (w : World) (runId : string) (reg : Registry) : Registry :=
  match activeRuns reg !! runId with
  | None => reg
  | Some current =>
      let st := state current in
      if negb (bool_decide (status st = RunRunning)) then stopPolling runId reg
      else
        let '(chunk, nextOffset) :=
          match logFilePath st with
          | Some path => readNewLogChunk w path (logFileOffset st)
          | None => (EmptyString, logFileOffset st)
          end in
        let st := set_logFileOffset nextOffset st in
        let lines := Str.split Str.newline (logLineBuffer current +:+ chunk) in
        let buf := if Str.is_empty chunk then logLineBuffer current
                   else List.last lines EmptyString in
        let thrown :=
          negb (Str.is_empty chunk)
          && existsb (fun line => negb (Str.is_empty (Str.trim line))) (removelast lines) in
        let reg := set_buffer runId buf (commit runId (st, []) reg) in
        if thrown || isProcessAlive w (pid st) || negb (Str.is_empty (Str.trim buf))
        then reg
        else commit runId (finalizeBackgroundRun w runId st) (stopPolling runId reg)
  end.

(** [initialised]: the module has been loaded, as it has for every call
    but the one of [loadPersistedRuns]. *)
Definition startBackgroundLogPolling (initialised : bool) (w : World) (runId : string)
    (reg : Registry) : Registry :=
  match activeRuns reg !! runId with
  | None => reg
  | Some a =>
      if logPoller a || negb (truthy (logFilePath (state a))) then reg
      else
        (if initialised then poll else poll_while_loading) w runId
          (emit (SetInterval runId)
             (set_active runId (mkActiveRun (state a) (process a) true (logLineBuffer a)) reg))
  end.

(** ** Startup reconciliation ([loadPersistedRuns]) *)

(** A record of the history file.  Fields that older versions did not
    write may be missing ([None]); for those whose default is [null] a
    missing field and [null] coincide. *)
Record StoredRun := mkStoredRun {
  stored_id : string;
  stored_branchName : string;
  stored_status : RunStatus;
  stored_currentPhase : string;
  stored_phases : gmap string PhaseStatus;
  stored_logs : option (list LogEntry);
  stored_prUrl : option string;
  stored_prTitle : option string;
  stored_prNumber : option Z;
  stored_prHeadRef : option string;
  stored_prBaseRef : option string;
  stored_prMergeStatus : option PrMergeStatus;
  stored_prMergeMessage : option string;
  stored_finishedAt : option Z;
  stored_pid : option Z;
  stored_planText : option string;
  stored_runMode : option RunMode;
  stored_logFilePath : option string;
  stored_logFileOffset : option Z;
  stored_autoMerge : option bool;
}.

(** The [loadedRun] object after its [??] defaults. *)
Definition backfill (run : StoredRun) : RunState :=
  mkRunState (stored_id run) (stored_branchName run) (stored_status run)
    (stored_currentPhase run) (stored_phases run)
    (default [] (stored_logs run))
    (stored_prUrl run) (stored_prTitle run) (stored_prNumber run)
    (stored_prHeadRef run) (stored_prBaseRef run)
    (default (if truthy (stored_prUrl run) then PrChecking else PrNone)
       (stored_prMergeStatus run))
    (stored_prMergeMessage run) (stored_finishedAt run) (stored_pid run)
    (stored_planText run)
    (default Foreground (stored_runMode run))
    (stored_logFilePath run)
    (default 0%Z (stored_logFileOffset run))
    (default false (stored_autoMerge run)).

Definition restart_entry (w : World) : LogEntry :=
  mkLogEntry (nowText w) "INIT" "Run marked as stopped after app restart"
    "[INIT] Run marked as stopped after app restart".

(** The body of the loop over the parsed history; the flag is
    [didMigrateRunningStatus]. *)
Definition load_one (w : World) (acc : Registry * bool) (run : StoredRun) : Registry * bool :=
  let '(reg, didMigrate) := acc in
  let loadedRun := backfill run in
  if bool_decide (status loadedRun = RunRunning) then
    if bool_decide (runMode loadedRun = Background) && isProcessAlive w (pid loadedRun) then
      let reg := set_active (id loadedRun) (mkActiveRun loadedRun None false EmptyString) reg in
      let reg :=
        if truthy (logFilePath loadedRun)
        then startBackgroundLogPolling false w (id loadedRun) reg else reg in
      (* [loadedRun] is the object the poller has been working on *)
      let loadedRun := from_option state loadedRun (activeRuns reg !! id loadedRun) in
      (set_persisted (id loadedRun) loadedRun reg, didMigrate)
    else
      let loadedRun :=
        set_logs (logs loadedRun ++ [restart_entry w])
          (set_finishedAt (Some (default (now w) (finishedAt loadedRun)))
             (set_status RunStopped loadedRun)) in
      (set_persisted (id loadedRun) loadedRun reg, true)
  else (set_persisted (id loadedRun) loadedRun reg, didMigrate).

(** [parsed] is the content of the history file, [None] when the file is
    absent or is not a list of runs. *)
Definition loadPersistedRuns (w : World) (parsed : option (list StoredRun))
    (reg : Registry) : Registry :=
  match parsed with
  | None => reg
  | Some runs =>
      let '(reg, didMigrate) := foldl (load_one w) (reg, false) runs in
      if didMigrate then schedulePersist reg else reg
  end.

Definition empty_registry : Registry := mkRegistry ∅ ∅ false [].

(** ** Stopping a run ([stopRun]) *)

Definition pid_truthy (p : option Z) : bool :=
  match p with
  | Some n => negb (n =? 0)%Z
  | None => false
  end.

(** The signals of [stopRun], with the [catch] that follows a failed
    delivery. *)
Definition stop_signals (w : World) (runId : string) (hasChild : bool)
    (p : option Z) : list Effect :=
  match p with
  | Some n =>
      if pid_truthy p then
        if signalOk w (- n)%Z SIGTERM then
          [KillGroup n SIGTERM; SetTimeout_escalate runId n]
          ++ (if hasChild then [KillChild runId SIGTERM]
              else if signalOk w n SIGTERM then [KillPid n SIGTERM]
                   else [KillPid n SIGTERM; KillPid n SIGKILL])
        else
          KillGroup n SIGTERM
          :: (if hasChild then [KillChild runId SIGKILL] else [KillPid n SIGKILL])
      else []
  | None => []
  end.

Definition stopRun (w : World) (runId : string) (reg : Registry) : bool * Registry :=
  let run := activeRuns reg !! runId in
  let persisted := persistedRuns reg !! runId in
  if bool_decide (run = None)
     && match persisted with
        | Some p => negb (bool_decide (status p = RunRunning))
        | None => true
        end
  then (false, reg)
  else
    match from_option (fun r => Some (state r)) persisted run with
    | None => (false, reg)
    | Some targetState =>
        if negb (bool_decide (status targetState = RunRunning)) then (false, reg)
        else
          let targetState := set_finishedAt (Some (now w)) (set_status RunStopped targetState) in
          let reg :=
            match run with
            | Some a => set_active runId
                          (mkActiveRun targetState (process a) (logPoller a) (logLineBuffer a)) reg
            | None => set_persisted runId targetState reg
            end in
          let reg :=
            perform_all
              [Send_RUN_STATUS runId targetState;
               Send_RUN_DONE runId (prUrl targetState) (status targetState) (finishedAt targetState);
               PersistRunState targetState] reg in
          let reg := stopPolling runId reg in
          let hasChild := match run with
                          | Some a => bool_decide (is_Some (process a))
                          | None => false
                          end in
          (true, perform_all (stop_signals w runId hasChild (pid targetState)) reg)
    end.

(** ** The pull-request lifecycle ([script-runner.ts]) *)

(** The answer of [gh pr view --json ...]; [view_number] is [None] when
    the number is not finite. *)
Record GhPrView := mkGhPrView {
  view_url : string;
  view_title : string;
  view_number : option Z;
  view_state : string;
  view_mergeable : string;
  view_headRefName : string;
  view_baseRefName : string;
}.

(** [a || b] on strings. *)
Definition or_else (a : string) (b : option string) : option string :=
  if Str.is_empty a then b else Some a.

Definition applyPrView (st : RunState) (view : GhPrView) : RunState :=
  let mergeStatus :=
    if Str.eqb (view_state view) "MERGED" then PrMerged
    else if Str.eqb (view_mergeable view) "CONFLICTING" then PrConflict
    else if Str.eqb (view_mergeable view) "MERGEABLE" then PrReady
    else PrChecking in
  let mergeMessage :=
    if Str.eqb (view_state view) "MERGED" then "Pull request has been merged."
    else if Str.eqb (view_mergeable view) "CONFLICTING" then "Pull request has merge conflicts."
    else if Str.eqb (view_mergeable view) "MERGEABLE" then "Pull request is mergeable."
    else "Mergeability is still being calculated by GitHub." in
  set_prMergeMessage (Some mergeMessage)
    (set_prMergeStatus mergeStatus
       (set_prBaseRef (or_else (view_baseRefName view) (prBaseRef st))
          (set_prHeadRef (or_else (view_headRefName view) (prHeadRef st))
             (set_prNumber (match view_number view with
                            | Some n => Some n
                            | None => prNumber st
                            end)
                (set_prTitle (or_else (view_title view) (prTitle st))
                   (set_prUrl (or_else (view_url view) (prUrl st)) st)))))).

(** What the hosting platform answers during one pass of the lifecycle
    manager: the first and second [gh pr view] (an error message or the
    view) and [gh pr merge] ([None] on success). *)
Record GhAnswers := mkGhAnswers {
  first_view : string + GhPrView;
  merge_error : option string;
  second_view : string + GhPrView;
}.

Definition broadcast (runId : string) (st : RunState) : list Effect :=
  [Send_RUN_STATUS runId st; PersistRunState st].

(** [refreshRunPrStatus] for a registered run; the result is [ok], the
    state and what was sent out. *)
Definition refreshRunPrStatus (runId : string) (fetch : string + GhPrView)
    (st : RunState) : bool * RunState * list Effect :=
  if negb (truthy (prUrl st)) then (false, st, [])
  else
    let st := set_prMergeMessage (Some "Checking pull request status...")
                (set_prMergeStatus PrChecking st) in
    let e1 := broadcast runId st ++ [Gh_pr_view (default EmptyString (prUrl st))] in
    match fetch with
    | inr view =>
        let st := applyPrView st view in
        (true, st, e1 ++ broadcast runId st)
    | inl msg =>
        let st := set_prMergeMessage (Some ("Failed to refresh PR status: " +:+ msg))
                    (set_prMergeStatus PrFailed st) in
        (false, st, e1 ++ broadcast runId st)
    end.

(** [executeMerge(state, runId)] for a registered run.  The refresh in
    it looks the run up again: for a run in [activeRuns] ([active]) it
    finds [state] itself; for a run that is in [persistedRuns] only it
    finds the copy that [persistRunState] has just stored, and [state]
    does not see what the refresh learns. *)
Definition executeMerge (active : bool) (runId : string) (gh : GhAnswers) (st : RunState)
    : bool * RunState * list Effect :=
  if negb (truthy (prUrl st)) then (false, st, [])
  else
    let st := set_prMergeMessage (Some "Submitting merge request...")
                (set_prMergeStatus PrAutoMerging st) in
    let e1 := broadcast runId st ++ [Gh_pr_merge (default EmptyString (prUrl st))] in
    match merge_error gh with
    | None =>
        let '(ok, refreshed, e2) := refreshRunPrStatus runId (second_view gh) st in
        let st := if active then refreshed else st in
        if negb ok || negb (bool_decide (prMergeStatus st = PrMerged)) then
          let st := set_prMergeMessage (Some "Auto-merge enabled. Waiting for checks and merge.")
                      (set_prMergeStatus PrAutoMerging st) in
          (true, st, e1 ++ e2 ++ broadcast runId st)
        else (true, st, e1 ++ e2)
    | Some msg =>
        let st := set_prMergeMessage (Some ("Failed to merge PR: " +:+ msg))
                    (set_prMergeStatus PrFailed st) in
        (false, st, e1 ++ broadcast runId st)
    end.

(** [maybeAutoMergeRun(runId, state)]; its callers pass the state of a
    run in [activeRuns], which is the object that the refresh finds. *)
Definition maybeAutoMergeRun (runId : string) (gh : GhAnswers) (st : RunState)
    : RunState * list Effect :=
  if negb (autoMerge st) || negb (truthy (prUrl st))
     || negb (bool_decide (status st = RunCompleted))
  then (st, [])
  else
    let '(ok, st, e1) := refreshRunPrStatus runId (first_view gh) st in
    if negb ok && bool_decide (prMergeStatus st = PrFailed) then (st, e1)
    else if bool_decide (prMergeStatus st = PrConflict) then
      let st := set_prMergeMessage
                  (Some "Auto-merge skipped because this PR has merge conflicts. Use Resolve & Merge.")
                  st in
      (st, e1 ++ broadcast runId st)
    else if bool_decide (prMergeStatus st = PrReady)
            || bool_decide (prMergeStatus st = PrChecking) then
      let '(_, st, e2) := executeMerge true runId gh st in
      (st, e1 ++ e2)
    else (st, e1).

(** ** Replaying a run

    Everything that touches a run's phase map after [startRun] has created
    it: the three log-parsing steps and the two finalization steps. *)

Inductive Event :=
| EvLogEntry (runId : string) (entry : LogEntry)
| EvUpdatePhaseStatus (phase : string)
| EvMarkPhaseCompleted (phase : string)
| EvFinalizeBackground (runId : string)
| EvClose (runId : string) (code : Z).

Definition step (w : World) (ev : Event) (state : RunState) : RunState :=
  match ev with
  | EvLogEntry runId entry => fst (handleLogEntry w runId entry state)
  | EvUpdatePhaseStatus phase => updatePhaseStatus state phase
  | EvMarkPhaseCompleted phase => markPhaseCompleted state phase
  | EvFinalizeBackground runId => fst (finalizeBackgroundRun w runId state)
  | EvClose runId code => fst (onClose w runId code state)
  end.

Definition replay (w : World) (evs : list Event) (state : RunState) : RunState :=
  foldl (fun s ev => step w ev s) state evs.

(** The phase map holds exactly the nine fixed phases. *)
Definition phases_total (ph : gmap string PhaseStatus) : Prop :=
  forall p : string, is_Some (ph !! p) <-> p ∈ PIPELINE_PHASES.

Definition at_most_one_active (ph : gmap string PhaseStatus) : Prop :=
  forall p q : string, ph !! p = Some PhActive -> ph !! q = Some PhActive -> p = q.

(** * The driver ([opencode-loop.sh])

    The script runs under [set -euo pipefail].  A shell variable is a
    string, an array a list of strings; an unset variable is [None]. *)

Module Sh.

Fixpoint decimal_go (acc : Z) (s : string) : Z :=
  match s with
  | EmptyString => acc
  | String c r => decimal_go (10 * acc + Z.of_nat (Str.code c) - 48)%Z r
  end.

Definition decimal (s : string) : Z := decimal_go 0 s.

Definition INTMAX : Z := 9223372036854775807.

(** The white space that [[ ] skips after the digits: space and tab. *)
Definition is_blank (c : ascii) : bool :=
  (Str.code c =? 32)%nat || (Str.code c =? 9)%nat.

(** An operand of an arithmetic test of [[ ]: white space of any kind, an
    optional sign, digits, then spaces and tabs, within the range of
    [intmax_t].  [None] is "integer expression expected"; the test then
    has status 2. *)
Definition test_int (s : string) : option Z :=
  let t := Str.drop_while_end is_blank (Str.drop_while Str.is_space s) in
  let '(neg, digits) :=
    match t with
    | String "-" r => (true, r)
    | String "+" r => (false, r)
    | _ => (false, t)
    end in
  if Str.is_empty digits || negb (Str.all Str.is_digit digits) then None
  else
    let v := if neg then (- decimal digits)%Z else decimal digits in
    if (- INTMAX - 1 <=? v)%Z && (v <=? INTMAX)%Z then Some v else None.

(** [[ "$a" -gt "$b" ]] and its siblings, as the condition of an [if] or
    a [while]: false when an operand is not an integer. *)
Definition test_cmp (cmp : Z -> Z -> bool) (a b : string) : bool :=
  match test_int a, test_int b with
  | Some x, Some y => cmp x y
  | _, _ => false
  end.

(** The same with a left operand that the shell computed itself, such as
    a loop counter. *)
Definition test_cmp_int (cmp : Z -> Z -> bool) (a : Z) (b : string) : bool :=
  match test_int b with
  | Some y => cmp a y
  | None => false
  end.

Definition test_gt := test_cmp Z.gtb.
Definition test_lt := test_cmp Z.ltb.
Definition test_le := test_cmp Z.leb.
Definition test_ge := test_cmp Z.geb.

(** [[[ "$v" =~ ^[0-9]+$ ]]] *)
Definition all_digits (v : string) : bool :=
  negb (Str.is_empty v) && Str.all Str.is_digit v.

(** ["${v:-d}"]: the default when [v] is unset or empty. *)
Definition or_default (v : option string) (d : string) : string :=
  match v with
  | Some x => if Str.is_empty x then d else x
  | None => d
  end.

(** A text that [echo] takes for options: a dash and letters among n, e
    and E. *)
Definition echo_option (text : string) : bool :=
  match text with
  | String "-" r =>
      negb (Str.is_empty r)
      && Str.all (fun c => bool_decide (c ∈ ["n"; "e"; "E"]%char)) r
  | _ => false
  end.

(** What [echo "$text"] writes: the text and a newline, unless the text
    is taken for options. *)
Definition echo (text : string) : string :=
  if echo_option text
  then if Str.includes text "n" then EmptyString else String Str.newline EmptyString
  else text +:+ String Str.newline EmptyString.

(** The lines that [echo "$text" | ...] hands to the next command. *)
Definition lines (text : string) : list string :=
  if echo_option text
  then if Str.includes text "n" then [] else [EmptyString]
  else Str.split Str.newline text.

(** [echo "$text" | grep -q ...] as a condition, under [pipefail]: [ls]
    are the lines of the text, [matches] is the pattern on one line.
    [grep -q] quits at its first matching line.  When lines follow it,
    [echo] may not have written them all by then and is killed by SIGPIPE
    ([killed]); the status of the pipeline is then 141, not 0. *)
Fixpoint grep_q (killed : bool) (matches : string -> bool) (ls : list string) : bool :=
  match ls with
  | [] => false
  | l :: rest =>
      if matches l
      then match rest with
           | [] => true
           | _ :: _ => negb killed
           end
      else grep_q killed matches rest
  end.

Definition strip_trailing_newlines (text : string) : string :=
  Str.drop_while_end (fun c => bool_decide (c = Str.newline)) text.

(** What [$(...)] captures of what a command wrote. *)
Definition capture (stdout : string) : string := strip_trailing_newlines stdout.

(** What [$(...)] captures from a command that printed these lines. *)
Definition captured (ls : list string) : string :=
  strip_trailing_newlines
    (foldr (fun l acc => l +:+ String Str.newline acc) EmptyString ls).

End Sh.

(** ** Configuration ([load_config]) *)

(** The value of [MAX_RETRIES] when [load_config] returns: [file] is what
    sourcing the configuration file left in [MAX_RETRIES], [env] is
    [OPENCODE_LOOP_MAX_RETRIES]. *)
Definition load_config_MAX_RETRIES (file env : option string) : string :=
  let MAX_RETRIES := Sh.or_default file "3" in
  let MAX_RETRIES := if negb (Sh.all_digits MAX_RETRIES) then "3" else MAX_RETRIES in
  let MAX_RETRIES := if Sh.test_gt MAX_RETRIES "3" then "3" else MAX_RETRIES in
  let MAX_RETRIES := if Sh.test_lt MAX_RETRIES "1" then "1" else MAX_RETRIES in
  (* Environment variable overrides (for Electron app integration) *)
  let MAX_RETRIES :=
    if negb (Str.is_empty (Sh.or_default env EmptyString))
    then Sh.or_default env EmptyString else MAX_RETRIES in
  MAX_RETRIES.

(** [RETRY_DELAYS] when [load_config] returns. *)
Definition load_config_RETRY_DELAYS (file : option (list string)) : list string :=
  default ["10"; "30"; "60"] file.

(** ** Retry with backoff *)

Definition network_error_literals : list string :=
  ["network"; "timeout"; "timed out"; "connection"; "connect:"; "etimedout";
   "econnreset"; "econnrefused"; "enotfound"; "ehostunreach"; "temporary failure";
   "name resolution"; "could not resolve host"; "no route to host"; "tls"; "ssl";
   "x509"; "handshake"; "dial tcp"; "i/o timeout"; "unexpected eof";
   "service unavailable"; "bad gateway"; "gateway timeout"; "rate limit";
   "secondary rate limit"].

(** [http[[:space:]]*5[0-9][0-9]] or [http[[:space:]]*429] at the start of [s]
    (lower case). *)
Definition http_status_here (s : string) : bool :=
  match Str.strip_prefix "http" s with
  | Some r =>
      match Str.drop_while Str.is_space r with
      | String c1 (String c2 (String c3 _)) =>
          (bool_decide (c1 = "5"%char) && Str.is_digit c2 && Str.is_digit c3)
          || (bool_decide (c1 = "4"%char) && bool_decide (c2 = "2"%char)
              && bool_decide (c3 = "9"%char))
      | _ => false
      end
  | None => false
  end.

Fixpoint http_status_anywhere (s : string) : bool :=
  http_status_here s ||
  match s with
  | EmptyString => false
  | String _ r => http_status_anywhere r
  end.

(** One line against the pattern of [grep -Ei]. *)
Definition network_error_line (line : string) : bool :=
  let l := Str.toLowerCase line in
  existsb (Str.includes l) network_error_literals || http_status_anywhere l.

(** [echo "$output" | grep -Eiq '...']; [killed]: [echo] is killed by
    SIGPIPE when [grep] quits before the end of the output. *)
Definition is_network_error (killed : bool) (output : string) : bool :=
  Sh.grep_q killed network_error_line (Sh.lines output).

(** What the world answers on one attempt of [retry_with_backoff]: the
    exit status (0 to 255) and the combined output of the command, as
    [$(...)] captures it; whether [echo] is killed in [is_network_error];
    the time stamp that [log] takes from [date]. *)
Record Attempt := mkAttempt {
  exit_status : Z;
  combined_output : string;
  echo_killed : bool;
  logged_at : string;
}.

Inductive RetryEvent :=
| Ran (attempt : Z)                      (* ["$@"] was run *)
| LoggedRetry (attempt : Z) (delay : string)  (* [log "RETRY" ...] *)
| Slept (delay : string).                (* [sleep "$delay"] *)

(** How a shell function ends: it returns a status with what it wrote to
    standard output, as [$(...)] captures it, or the shell dies on an
    expansion error. *)
Inductive Outcome :=
| Returned (status : Z) (out : string)
| Aborted.

(** ["${RETRY_DELAYS[$delay_idx]:-${RETRY_DELAYS[-1]}}"]; [None] is the
    "bad array subscript" of an empty array, fatal under [set -u]. *)
Definition retry_delay (RETRY_DELAYS : list string) (delay_idx : Z) : option string :=
  match RETRY_DELAYS !! Z.to_nat delay_idx with
  | Some d => if Str.is_empty d then last RETRY_DELAYS else Some d
  | None => last RETRY_DELAYS
  end.

(** The line that [log "RETRY" ...] writes to standard output. *)
Definition retry_line (MAX_RETRIES : string) (attempt : Z) (a : Attempt) (delay : string)
    : string :=
  "[" +:+ logged_at a +:+ "] [RETRY] Network error detected. attempt=" +:+ pretty attempt
  +:+ "/" +:+ MAX_RETRIES +:+ ", sleeping " +:+ delay +:+ "s".

(** The [while] loop of [retry_with_backoff]; [cmd attempt] is what the
    world answers on that attempt and [stdout] what the function has
    written to standard output so far.  [fuel] bounds the iterations;
    [None] means it ran out. *)
Fixpoint retry_loop (fuel : nat) (MAX_RETRIES : string) (RETRY_DELAYS : list string)
    (cmd : Z -> Attempt) (stdout : string) (attempt : Z)
    : option (Outcome * list RetryEvent) :=
  match fuel with
  | O => None
  | S fuel' =>
      if Sh.test_cmp_int Z.leb attempt MAX_RETRIES then
        let status := exit_status (cmd attempt) in
        let output := combined_output (cmd attempt) in
        if (status =? 0)%Z
        then Some (Returned 0 (Sh.capture (stdout +:+ Sh.echo output)), [Ran attempt])
        else if negb (is_network_error (echo_killed (cmd attempt)) output)
        then Some (Returned status (Sh.capture stdout), [Ran attempt])
        else if Sh.test_cmp_int Z.geb attempt MAX_RETRIES
        then Some (Returned status (Sh.capture stdout), [Ran attempt])
        else
          match retry_delay RETRY_DELAYS (attempt - 1) with
          | None => Some (Aborted, [Ran attempt])
          | Some delay =>
              let stdout :=
                stdout +:+ Sh.echo (retry_line MAX_RETRIES attempt (cmd attempt) delay) in
              match retry_loop fuel' MAX_RETRIES RETRY_DELAYS cmd stdout (attempt + 1) with
              | Some (r, t) => Some (r, Ran attempt :: LoggedRetry attempt delay :: Slept delay :: t)
              | None => None
              end
          end
      else Some (Returned 1 (Sh.capture stdout), [])
  end.

Definition retry_fuel (MAX_RETRIES : string) : nat :=
  S (Z.to_nat (default 0%Z (Sh.test_int MAX_RETRIES))).

(** The attempts that were run and the delays that were slept, in order. *)
Fixpoint runs (t : list RetryEvent) : list Z :=
  match t with
  | [] => []
  | Ran attempt :: r => attempt :: runs r
  | _ :: r => runs r
  end.

Fixpoint sleeps (t : list RetryEvent) : list string :=
  match t with
  | [] => []
  | Slept delay :: r => delay :: sleeps r
  | _ :: r => sleeps r
  end.

Definition retry_with_backoff (MAX_RETRIES : string) (RETRY_DELAYS : list string)
    (cmd : Z -> Attempt) : option (Outcome * list RetryEvent) :=
  retry_loop (retry_fuel MAX_RETRIES) MAX_RETRIES RETRY_DELAYS cmd EmptyString 1.

(** ** Cleaning the agent's output *)

Definition ESC : ascii := ascii_of_nat 27.

(** [sed 's/\x1b\[[0-9;]*m//g'] on one line, reading left to right.
    [pending] holds, reversed, a started escape sequence: [ESC], or [ESC]
    and an opening bracket followed by digits and semicolons ([in_params]). *)
Fixpoint strip_ansi_go (pending : string) (in_params : bool) (s : string) : string :=
  match s with
  | EmptyString => Str.rev pending
  | String c r =>
      if Str.is_empty pending then
        if bool_decide (c = ESC) then strip_ansi_go (String c EmptyString) false r
        else String c (strip_ansi_go EmptyString false r)
      else if in_params then
        if Str.is_digit c || bool_decide (c = ";"%char)
        then strip_ansi_go (String c pending) true r
        else if bool_decide (c = "m"%char) then strip_ansi_go EmptyString false r
        else if bool_decide (c = ESC)
        then Str.rev pending +:+ strip_ansi_go (String c EmptyString) false r
        else Str.rev pending +:+ String c (strip_ansi_go EmptyString false r)
      else
        if bool_decide (c = "["%char) then strip_ansi_go (String c pending) true r
        else if bool_decide (c = ESC)
        then Str.rev pending +:+ strip_ansi_go (String c EmptyString) false r
        else Str.rev pending +:+ String c (strip_ansi_go EmptyString false r)
  end.

Definition strip_ansi (line : string) : string := strip_ansi_go EmptyString false line.

(** [cleanup_text_output]: [echo "$1" | strip_ansi | grep -v '^>' | sed '/^$/d' | trim].
    The result is the exit status of the pipeline under [pipefail] ([grep]
    has status 1 when it selects no line) and the lines printed. *)
Definition cleanup_text_output (text : string) : Z * list string :=
  let stripped := map strip_ansi (Sh.lines text) in
  let selected := filter (fun l => Str.startsWith l ">" = false) stripped in
  let nonempty := filter (fun l => Str.is_empty l = false) selected in
  ((if bool_decide (selected = []) then 1 else 0)%Z, map Str.trim nonempty).

(** ** The repository of a remote ([parse_repo_from_url]) *)

(** ["${s%suffix}"] for a suffix without pattern characters: [s] without
    the suffix, [None] when [s] does not end with it. *)
Fixpoint strip_suffix (suffix s : string) : option string :=
  if Str.eqb s suffix then Some EmptyString
  else match s with
       | EmptyString => None
       | String c r => String c <$> strip_suffix suffix r
       end.

(** One line against [grep -E '^[^/]+/[^/]+$']. *)
Definition owner_and_name (line : string) : bool :=
  let '(owner, rest) := Str.span (fun c => negb (bool_decide (c = "/"%char))) line in
  negb (Str.is_empty owner)
  && match rest with
     | String _ name =>
         negb (Str.is_empty name)
         && Str.all (fun c => negb (bool_decide (c = "/"%char))) name
     | EmptyString => false
     end.

(** What [parse_repo_from_url] prints, without the newline of [echo]. *)
Definition parse_repo_from_url (url : string) : string :=
  let repo :=
    match Str.strip_prefix "git@github.com:" url with
    | Some r => r
    | None =>
        match Str.strip_prefix "https://github.com/" url with
        | Some r => r
        | None =>
            match Str.strip_prefix "ssh://git@github.com/" url with
            | Some r => r
            | None => EmptyString
            end
        end
    end in
  let repo := default repo (strip_suffix ".git" repo) in
  if existsb owner_and_name (Sh.lines repo) then repo else EmptyString.

(** ** The branch name ([generate_branch_name]) *)

Definition branch_stop_words : list string :=
  ["the"; "a"; "an"; "and"; "or"; "for"; "from"; "with"; "that"; "this"; "into";
   "after"; "before"; "when"; "while"; "opencode"; "detailed"; "output"; "run"].

Definition is_slug_char (c : ascii) : bool :=
  Str.is_lower c || Str.is_digit c || bool_decide (c = "-"%char).

(** [sed 's/--*/-/g'] *)
Fixpoint squeeze_dashes (s : string) : string :=
  match s with
  | EmptyString => EmptyString
  | String c r =>
      if bool_decide (c = "-"%char)
      then String c (Str.drop_while (fun d => bool_decide (d = "-"%char)) (squeeze_dashes r))
      else String c (squeeze_dashes r)
  end.

Definition is_dash (c : ascii) : bool := bool_decide (c = "-"%char).

(** The first line, lower-cased and reduced to letters, digits and single
    inner dashes: [head -n 1 | tr | sed | sed | sed | sed]. *)
Definition sanitize_slug (ls : list string) : string :=
  match ls with
  | [] => EmptyString
  | first :: _ =>
      Str.drop_while_end is_dash
        (Str.drop_while is_dash
           (squeeze_dashes
              (Str.map (fun c => if is_slug_char c then c else "-"%char)
                 (Str.toLowerCase first))))
  end.

(** [IFS='-' read -r -a _branch_tokens <<< "$cleaned"] *)
Definition read_tokens (cleaned : string) : list string :=
  if Str.is_empty cleaned then [] else Str.split "-"%char cleaned.

(** The [for] loop over the tokens: [compact] and [count] are its variables. *)
Fixpoint compact_tokens (tokens : list string) (compact : string) (count : nat) : string :=
  match tokens with
  | [] => compact
  | token :: rest =>
      if Str.is_empty token then compact_tokens rest compact count
      else if Sh.all_digits token then compact_tokens rest compact count
      else if bool_decide (token ∈ branch_stop_words) then compact_tokens rest compact count
      else
        let token := Str.take 10 token in
        let compact := if Str.is_empty compact then token else compact +:+ "-" +:+ token in
        let count := S count in
        if (3 <=? count)%nat then compact else compact_tokens rest compact count
  end.

(** [generate_branch_name]: [raw] is what the agent printed, [RANDOM] the
    value of [$RANDOM].  [head -n 1] quits after the first line; when more
    lines follow, the cleaning commands may not have written them all by
    then and are killed by SIGPIPE ([killed]).  [None]: the cleaning
    pipeline failed, with status 1 or 141, and, the assignment being a
    simple command, [set -e] ended the script. *)
Definition generate_branch_name (killed : bool) (raw : string) (RANDOM : N)
    : option string :=
  let '(status, ls) := cleanup_text_output raw in
  if negb (status =? 0)%Z then None
  else if killed && (2 <=? length ls)%nat then None
  else
    let cleaned := sanitize_slug ls in
    let compact := compact_tokens (read_tokens cleaned) EmptyString 0 in
    let cleaned := Str.drop_while_end is_dash (Str.take 28 compact) in
    let cleaned := if Str.is_empty cleaned then "task-" +:+ pretty RANDOM else cleaned in
    Some ("opencode/" +:+ cleaned).

(** ** The pipeline ([run_pipeline])

    A function of the driver either goes on with a value or makes
    [run_pipeline] return 1; on the way it writes log lines and runs
    external commands. *)

Inductive DriverEvent :=
| Log (step : string) (msg : string)   (* [log "STEP" "msg"] *)
| Exec (command : string).             (* an external command was run *)

Definition Pipe (A : Type) : Type := option A * list DriverEvent.

#[global] Instance Pipe_ret : MRet Pipe := fun A x => (Some x, []).
#[global] Instance Pipe_bind : MBind Pipe := fun A B f m =>
  match m with
  | (Some a, t) => let '(r, t') := f a in (r, t ++ t')
  | (None, t) => (None, t)
  end.

Definition log (step msg : string) : Pipe unit := (Some tt, [Log step msg]).
Definition exec (command : string) : Pipe unit := (Some tt, [Exec command]).
Definition return_1 {A : Type} : Pipe A := (None, []).

(** [command || return 1] *)
Definition or_return_1 (command : string) (ok : bool) : Pipe unit :=
  exec command;; if ok then mret tt else return_1.

(** [v=$(retry_with_backoff command ...) || return 1] *)
Definition retried (command : string) (r : Outcome) : Pipe string :=
  exec command;;
  match r with
  | Returned status out => if (status =? 0)%Z then mret out else return_1
  | Aborted => return_1
  end.

(** The settings and the context of one run, and what the outside world
    answers to each step of the pipeline. *)
Record Driver := mkDriver {
  SKIP_PLAN : bool;
  PLAN_TEXT : string;
  plan_file_present : bool;     (* [PLAN_FILE_PATH] names an existing file *)
  plan_file : string;
  MODEL_PLAN : string;
  MODEL_IMPLEMENT : string;
  MODEL_REVIEW : string;
  MODEL_FIX : string;
  MODEL_PR : string;
  BRANCH_NAME : string;
  MAIN_BRANCH : string;
  TARGET_DIR : string;
  (** measured duration of a phase, in seconds *)
  seconds : string -> Z;
  (* clone_and_prepare_repo *)
  target_dir_exists : bool;
  clone_mode : string;
  clone_source : string;
  git_clone : Outcome;
  cd_target_ok : bool;
  git_checkout_ok : bool;
  (* run_post_clone_commands: each command with the success of its [eval] *)
  POST_CLONE_COMMANDS : option (list (string * bool));
  (* the agent and git *)
  plan_run : Outcome;
  implement_run : Outcome;
  review_run : Outcome;
  (** [echo] is killed when [grep] quits on the first LGTM line *)
  review_echo_killed : bool;
  fix_run : Outcome;
  git_add_ok : bool;
  git_status_porcelain : string;
  git_diff_staged_ok : bool;
  commit_message_run : Outcome;
  git_commit_ok : bool;
  (* resolve_repo_and_push_target *)
  REPO : string;
  PUSH_TARGET : string;
  git_push : Outcome;
  (** [git ls-remote] sees the branch on this attempt *)
  remote_branch_visible : nat -> bool;
  git_fetch : Outcome;
  commits_ahead : bool;
  git_diff_pr_ok : bool;
  pr_text_run : Outcome;
  gh_pr_create : Outcome;
  cleanup_workspace_ok : bool;
}.

Definition completed_in (d : Driver) (step : string) : string :=
  "Completed in " +:+ pretty (seconds d step) +:+ "s".

Definition clone_and_prepare_repo (d : Driver) : Pipe unit :=
  exec "mkdir";;
  (if target_dir_exists d
   then log "CLONE" ("Removing existing target directory: " +:+ TARGET_DIR d);; exec "rm"
   else mret tt);;
  log "CLONE" ("Cloning from " +:+ clone_mode d +:+ " source " +:+ clone_source d
               +:+ " (branch=" +:+ MAIN_BRANCH d +:+ ") to " +:+ TARGET_DIR d);;
  retried "git clone" (git_clone d);;
  or_return_1 "cd" (cd_target_ok d);;
  or_return_1 "git checkout" (git_checkout_ok d);;
  log "CLONE" ("Checked out new branch: " +:+ BRANCH_NAME d).

Fixpoint run_commands (cmds : list (string * bool)) : Pipe unit :=
  match cmds with
  | [] => mret tt
  | (cmd, ok) :: rest =>
      if Str.is_empty cmd then run_commands rest
      else
        log "SETUP" ("Running post-clone command: " +:+ cmd);;
        or_return_1 "eval" ok;;
        run_commands rest
  end.

Definition run_post_clone_commands (d : Driver) : Pipe unit :=
  match POST_CLONE_COMMANDS d with
  | None => log "SETUP" "No post-clone commands configured"
  | Some [] => log "SETUP" "No post-clone commands configured"
  | Some cmds => run_commands cmds
  end.

(** One line against [grep -Ei '^LGTM$']. *)
Definition is_lgtm_line (l : string) : bool := Str.eqb (Str.toLowerCase l) "lgtm".

(** [echo "$review_clean" | grep -Eiq '^LGTM$']; [killed]: [echo] is
    killed by SIGPIPE when [grep] quits before the end of the review. *)
Definition review_is_lgtm (killed : bool) (review_clean : string) : bool :=
  Sh.grep_q killed is_lgtm_line (Sh.lines review_clean).

(** [wait_for_remote_branch], from [attempt] on, with [left] attempts left. *)
Fixpoint wait_for_remote_branch (d : Driver) (left : nat) (attempt : nat) : Pipe bool :=
  match left with
  | O => mret false
  | S left' =>
      exec "git ls-remote";;
      if remote_branch_visible d attempt then mret true
      else
        (if (attempt <? 6)%nat
         then log "PUSH" ("Remote branch '" +:+ BRANCH_NAME d +:+ "' not visible yet (attempt "
                          +:+ pretty attempt +:+ "/6); retrying in 2s");;
              exec "sleep"
         else mret tt);;
        wait_for_remote_branch d left' (S attempt)
  end.

Definition plan_phase (d : Driver) : Pipe unit :=
  if SKIP_PLAN d then
    log "PLAN" "Skipped (user-provided plan)";;
    (if negb (Str.is_empty (PLAN_TEXT d)) then exec "printf"
     else if plan_file_present d then exec "cp"
     else log "PLAN" "Error: --skip-plan requires --plan-file or OPENCODE_LOOP_PLAN_TEXT";;
          return_1);;
    log "PLAN" ("Plan saved to " +:+ plan_file d)
  else
    log "PLAN" ("Starting planning phase with model " +:+ MODEL_PLAN d);;
    plan_raw ← retried "opencode run --agent plan" (plan_run d);
    let plan_clean := Sh.captured (snd (cleanup_text_output plan_raw)) in
    (if Str.is_empty plan_clean
     then log "PLAN" "Planning output was empty.";; return_1
     else mret tt);;
    log "PLAN" (completed_in d "PLAN" +:+ ". Plan saved to " +:+ plan_file d).

Definition review_and_fix (d : Driver) : Pipe bool :=
  log "REVIEW" ("Starting review phase with model " +:+ MODEL_REVIEW d);;
  exec "git diff";;
  review_raw ← retried "opencode run (review)" (review_run d);
  let review_clean := Sh.captured (snd (cleanup_text_output review_raw)) in
  log "REVIEW" (completed_in d "REVIEW");;
  if negb (review_is_lgtm (review_echo_killed d) review_clean) then
    log "FIX" ("Review found issues; running fix phase with model " +:+ MODEL_FIX d);;
    retried "opencode run (fix)" (fix_run d);;
    log "FIX" (completed_in d "FIX");;
    mret true
  else
    log "FIX" "Skipped fix phase because review response is LGTM";;
    mret false.

Definition commit_phase (d : Driver) : Pipe unit :=
  log "COMMIT" "Preparing commit";;
  or_return_1 "git add -A" (git_add_ok d);;
  exec "git status --porcelain";;
  (if Str.is_empty (git_status_porcelain d)
   then log "COMMIT" "No changes after implementation/review. Nothing to commit.";;
        return_1
   else mret tt);;
  or_return_1 "git diff --staged" (git_diff_staged_ok d);;
  commit_raw ← retried "opencode run (commit message)" (commit_message_run d);
  let commit_msg := default EmptyString (head (snd (cleanup_text_output commit_raw))) in
  let commit_msg :=
    if Str.is_empty commit_msg then "chore: apply opencode loop changes" else commit_msg in
  log "COMMIT" ("Committing with message: " +:+ commit_msg);;
  or_return_1 "git commit" (git_commit_ok d).

Definition push_and_pr (d : Driver) : Pipe string :=
  log "PUSH" ("Pushing branch " +:+ BRANCH_NAME d);;
  exec "resolve_repo_and_push_target";;
  (if Str.is_empty (REPO d)
   then log "PUSH" "Error: Could not detect target GitHub repository for PR creation.";;
        return_1
   else mret tt);;
  log "PUSH" ("Using push target '" +:+ PUSH_TARGET d +:+ "' and PR repo '" +:+ REPO d +:+ "'");;
  retried "git push" (git_push d);;
  '(base_ref, head_ref) ←
    (if Str.eqb (PUSH_TARGET d) "origin" then
       visible ← wait_for_remote_branch d 6 1;
       (if negb visible
        then log "PUSH" ("Error: Branch '" +:+ BRANCH_NAME d
                         +:+ "' was pushed but is not visible on origin.");;
             return_1
        else mret tt);;
       retried "git fetch" (git_fetch d);;
       mret ("origin/" +:+ MAIN_BRANCH d, "origin/" +:+ BRANCH_NAME d)
     else mret (MAIN_BRANCH d, "HEAD"));
  exec "git rev-list";;
  (if negb (commits_ahead d)
   then log "PR" ("Error: No commits ahead of " +:+ base_ref +:+ " on " +:+ head_ref +:+ ".");;
        return_1
   else mret tt);;
  log "PR" ("Generating PR title and body with model " +:+ MODEL_PR d);;
  or_return_1 "git diff (branch)" (git_diff_pr_ok d);;
  retried "opencode run (pull request text)" (pr_text_run d);;
  created ← retried "gh pr create" (gh_pr_create d);
  let PR_URL := Str.trim (List.last (Sh.lines created) EmptyString) in
  log "PR" (completed_in d "PR");;
  mret PR_URL.

(** [run_pipeline], in three stretches: the phases up to the review and
    its fix (the value is [did_run_fix]), the commit, and the push with the
    pull request.  [Some tt] is status 0, [None] is [return 1]. *)
Definition before_commit (d : Driver) : Pipe bool :=
  clone_and_prepare_repo d;;
  log "CLONE" (completed_in d "CLONE");;
  run_post_clone_commands d;;
  log "SETUP" (completed_in d "SETUP");;
  plan_phase d;;
  log "IMPLEMENT" ("Starting implementation phase with model " +:+ MODEL_IMPLEMENT d);;
  retried "opencode run (implement)" (implement_run d);;
  log "IMPLEMENT" (completed_in d "IMPLEMENT");;
  review_and_fix d.

Definition after_commit (d : Driver) : Pipe unit :=
  PR_URL ← push_and_pr d;
  log "DONE" ("PR created: " +:+ PR_URL);;
  log "DONE" ("Total duration: " +:+ pretty (seconds d "TOTAL") +:+ "s");;
  exec "report_model_costs";;
  if negb (Str.is_empty PR_URL)
  then or_return_1 "cleanup_workspace_on_success" (cleanup_workspace_ok d)
  else mret tt.

Definition run_pipeline (d : Driver) : Pipe unit :=
  before_commit d;;
  commit_phase d;;
  after_commit d.

(** The end of [main]: the exit code of the script after [run_pipeline]. *)
Definition main_exit_code (d : Driver) : Z :=
  match fst (run_pipeline d) with
  | Some _ => 0
  | None => 1
  end.

(** * The vocabulary of the statements

    Predicates on traces, registries and slugs in which the theorems
    below are stated, and the concrete runs they are tried on. *)

(** A move of the phase map that keeps the invariant and every skipped
    phase. *)
Definition phases_ok (ph : gmap string PhaseStatus) : Prop :=
  phases_total ph /\ at_most_one_active ph.

Definition good_move (ph ph' : gmap string PhaseStatus) : Prop :=
  (phases_ok ph -> phases_ok ph')
  /\ (forall p, ph !! p = Some PhSkipped -> ph' !! p = Some PhSkipped).

Definition initial_status (skipPlan skipPr : bool) (phase : string) : PhaseStatus :=
  if Str.eqb phase "PLAN" && skipPlan then PhSkipped
  else if (Str.eqb phase "PR" || Str.eqb phase "PUSH") && skipPr then PhSkipped
  else PhPending.

(** A stored run that is running in the background, with a live process
    and no log file recorded. *)
Definition pathless_run : StoredRun :=
  mkStoredRun "run-7" "" RunRunning "INIT" (createInitialPhases false false)
    (Some []) None None None None None None None None (Some 4242%Z) None
    (Some Background) None None None.

Definition live_world : World :=
  mkWorld (fun _ => None) (fun s => s) (fun _ => true) 1700000000000 "2026-01-01 12:00:05"
    (fun s => s) (fun _ _ => true).

(** A merge was requested from the hosting platform. *)
Definition requests_merge (es : list Effect) : Prop :=
  exists url, Gh_pr_merge url ∈ es.

(** The state and the effects of the refresh that opens [maybeAutoMergeRun]. *)
Definition refreshed (runId : string) (gh : GhAnswers) (st : RunState) : RunState :=
  snd (fst (refreshRunPrStatus runId (first_view gh) st)).

Definition failing_answers : GhAnswers :=
  mkGhAnswers (inl "gh: could not reach the API") None (inl "unused").

Definition merge_ready_run : RunState :=
  mkRunState "run-9" "opencode/fix-login-bug" RunCompleted "PR" (createInitialPhases false false)
    [] (Some "https://github.com/o/r/pull/7") None None None None PrChecking None
    (Some 1700000000000%Z) (Some 4242%Z) None Foreground None 0 true.

(** Log lines and commands that belong to the push and to the pull
    request, and the last line of a successful run. *)
Definition of_push_or_pr (e : DriverEvent) : bool :=
  match e with
  | Log step _ => bool_decide (step ∈ ["PUSH"; "PR"; "DONE"])
  | Exec c => bool_decide (c ∈ ["resolve_repo_and_push_target"; "git push"; "git ls-remote";
                                "sleep"; "git fetch"; "git rev-list"; "git diff (branch)";
                                "opencode run (pull request text)"; "gh pr create";
                                "report_model_costs"; "cleanup_workspace_on_success"])
  end.

(** What the phases before the commit write and run. *)
Definition of_early_phase (e : DriverEvent) : bool :=
  match e with
  | Log step _ => bool_decide (step ∈ ["CLONE"; "SETUP"; "PLAN"; "IMPLEMENT"; "REVIEW"; "FIX"])
  | Exec c => bool_decide (c ∈ ["mkdir"; "rm"; "git clone"; "cd"; "git checkout"; "eval";
                                "printf"; "cp"; "opencode run --agent plan";
                                "opencode run (implement)"; "git diff";
                                "opencode run (review)"; "opencode run (fix)"])
  end.

Definition no_changes_line : DriverEvent :=
  Log "COMMIT" "No changes after implementation/review. Nothing to commit.".

(** The review text after [cleanup_text_output], as the pipeline holds it. *)
Definition review_text (raw : string) : string :=
  Sh.captured (snd (cleanup_text_output raw)).

(** The fix phase did not run. *)
Definition fix_skipped (d : Driver) : Prop :=
  Exec "opencode run (fix)" ∉ snd (review_and_fix d).

Definition two_line_review : string :=
  "LGTM" +:+ String Str.newline "src/login.ts:12: password is logged in clear text".

(** A run in which every external step succeeds; the review and the
    state of the working tree are left open. *)
Definition sample_driver_with (killed : bool) (review porcelain : string) : Driver :=
  mkDriver false EmptyString false "/home/u/.opencode-loop/plans/plan-a1b2c3.md"
    "model-plan" "model-implement" "model-review" "model-fix" "model-pr"
    "opencode/fix-login-bug" "main" "/home/u/opencode-workspaces/opencode-fix-login-bug"
    (fun _ => 3%Z)
    false "local" "/home/u/project" (Returned 0 EmptyString) true true
    (Some [("pnpm i", true)])
    (Returned 0 "1. Change the login handler") (Returned 0 EmptyString)
    (Returned 0 review) killed (Returned 0 EmptyString)
    true porcelain true (Returned 0 "fix: handle empty password") true
    "o/r" "origin" (Returned 0 EmptyString) (fun _ => true) (Returned 0 EmptyString) true
    true (Returned 0 "TITLE: fix: handle empty password") 
    (Returned 0 "https://github.com/o/r/pull/7") true.

Definition sample_driver : string -> string -> Driver := sample_driver_with false.

(** An attempt that calls for another one: it failed and
    [is_network_error] answers yes. *)
Definition retryable (a : Attempt) : Prop :=
  exit_status a <> 0%Z /\ is_network_error (echo_killed a) (combined_output a) = true.

(** What the wrapper returns after its last attempt, having written
    [stdout] before it. *)
Definition result_of (stdout : string) (a : Attempt) : Outcome :=
  if (exit_status a =? 0)%Z
  then Returned 0 (Sh.capture (stdout +:+ Sh.echo (combined_output a)))
  else Returned (exit_status a) (Sh.capture stdout).

(** The RETRY lines of a trace, as they were written to standard output. *)
Fixpoint retry_lines (MAX_RETRIES : string) (cmd : Z -> Attempt) (t : list RetryEvent)
    : string :=
  match t with
  | [] => EmptyString
  | LoggedRetry attempt delay :: r =>
      Sh.echo (retry_line MAX_RETRIES attempt (cmd attempt) delay)
      +:+ retry_lines MAX_RETRIES cmd r
  | _ :: r => retry_lines MAX_RETRIES cmd r
  end.

(** The first line that matches is [l]; [rest] are the lines after it. *)
Definition first_match (matches : string -> bool) (ls : list string) (l : string)
    (rest : list string) : Prop :=
  exists before, ls = before ++ l :: rest
                 /\ Forall (fun x => matches x = false) before /\ matches l = true.

(** An attempt that failed with this output, [echo] writing it whole. *)
Definition failed_with (output : string) : Attempt :=
  mkAttempt 1 output false "2026-01-01 12:00:00".

(** The delay before the [i]-th retry in the words of the specification:
    the [i]-th entry of the list, the last entry beyond its length. *)
Definition delay_before_retry (delays : list string) (i : nat) : option string :=
  match delays !! (i - 1)%nat with
  | Some d => Some d
  | None => last delays
  end.



Definition free_of (sep : ascii) (t : string) : Prop :=
  Str.all (fun c => negb (bool_decide (c = sep))) t = true.





(** A world without files in which process 4242 is gone. *)
Definition quiet_world : World :=
  mkWorld (fun _ => None) (fun s => s) (fun _ => false) 1700000000000 "2026-01-01 12:00:05"
    (fun s => s) (fun _ _ => true).

Definition fresh_run (skipPlan skipPr : bool) (mode : RunMode) : RunState :=
  mkRunState "run-1" "" RunRunning "INIT" (createInitialPhases skipPlan skipPr) []
    None None None None None PrNone None None (Some 4242%Z) None mode None 0 false.

Definition sample_entry (ph msg : string) : LogEntry :=
  mkLogEntry "12:00:00" ph msg ("[12:00:00] [" +:+ ph +:+ "] " +:+ msg).

Definition sample_events : list Event :=
  [EvLogEntry "run-1" (sample_entry "CLONE" "Cloning");
   EvLogEntry "run-1" (sample_entry "CLONE" "Completed in 3s");
   EvLogEntry "run-1" (sample_entry "PLAN" "Skipped (user-provided plan)");
   EvLogEntry "run-1" (sample_entry "IMPLEMENT" "Starting implementation phase");
   EvLogEntry "run-1" (sample_entry "FIX" "Skipped fix phase because review response is LGTM");
   EvClose "run-1" 1].

(** The run of the specification's example: its log ends with the DONE
    line, its process is gone. *)
Definition finished_background_run : RunState :=
  set_logFilePath (Some "/w/opencode-loop.log") (fresh_run false false Background).

Definition log_world : World :=
  mkWorld (fun path => if Str.eqb path "/w/opencode-loop.log"
                       then Some "[12:00:00] [DONE] Total duration: 42s" else None)
    (fun s => s) (fun _ => false) 1700000000000 "2026-01-01 12:00:05" (fun s => s) (fun _ _ => true).

Definition polling_registry : Registry :=
  mkRegistry {[ "run-1" := mkActiveRun finished_background_run None true EmptyString ]}
    ∅ false [].

(** A pull request that the platform reports as mergeable, and a merge
    request that is accepted. *)
Definition mergeable_view : GhPrView :=
  mkGhPrView "https://github.com/o/r/pull/7" "fix: handle empty password" (Some 7%Z)
    "OPEN" "MERGEABLE" "opencode/fix-login-bug" "main".

Definition mergeable_answers : GhAnswers :=
  mkGhAnswers (inr mergeable_view) None (inr mergeable_view).

(** The number of history writes that were scheduled. *)
Fixpoint scheduled (es : list Effect) : nat :=
  match es with
  | [] => 0
  | SchedulePersist :: r => S (scheduled r)
  | _ :: r => scheduled r
  end.

(** An effect that goes out without touching the registry's maps. *)
Definition outward (e : Effect) : Prop :=
  match e with
  | PersistRunState _ => False
  | _ => True
  end.

(** How often a command was run. *)
Fixpoint execs (command : string) (t : list DriverEvent) : nat :=
  match t with
  | [] => 0
  | Exec c :: r => (if Str.eqb c command then 1 else 0) + execs command r
  | Log _ _ :: r => execs command r
  end.


(** A character of the parameters of a colour sequence. *)
Definition is_colour_param (c : ascii) : bool :=
  Str.is_digit c || bool_decide (c = ";"%char).

Definition not_ESC (c : ascii) : bool := negb (bool_decide (c = ESC)).

(** Two states of a run that differ at most in what is known of its
    pull request. *)
Definition same_progress (a b : RunState) : Prop :=
  id a = id b /\ status a = status b /\ currentPhase a = currentPhase b
  /\ phases a = phases b /\ logs a = logs b /\ finishedAt a = finishedAt b
  /\ pid a = pid b /\ autoMerge a = autoMerge b.

(** The merge status that a view of the pull request stands for. *)
Definition view_is_merged (v : string + GhPrView) : bool :=
  match v with
  | inr view => Str.eqb (view_state view) "MERGED"
  | inl _ => false
  end.

Definition stored_finished (run : StoredRun) : Prop := stored_status run <> RunRunning.

Definition finished_stored_run (runId : string) (st : RunStatus) : StoredRun :=
  mkStoredRun runId "opencode/fix-login-bug" st "DONE" (createInitialPhases false false)
    None (Some "https://github.com/o/r/pull/7") None None None None None None
    (Some 1700000000000%Z) (Some 4242%Z) None None None None None.

(** The ways of writing a repository of the hosting platform. *)
Definition github_prefixes : list string :=
  ["git@github.com:"; "https://github.com/"; "ssh://git@github.com/"].

(** An owner or a repository name. *)
Definition repo_part (s : string) : Prop :=
  Str.is_empty s = false /\ free_of "/" s /\ free_of Str.newline s.

(** * The phase map *)

Section phase_map.
Implicit Types (ph : gmap string PhaseStatus) (p q : string).

Lemma retire_active_lookup_gen to except (l : list string) ph q :
  foldl (fun (acc : gmap string PhaseStatus) (p : string) =>
           if phase_is PhActive acc p && negb (bool_decide (except = Some p))
           then <[p := to]> acc else acc) ph l !! q
  = if bool_decide (q ∈ l) && phase_is PhActive ph q
       && negb (bool_decide (except = Some q))
    then Some to else ph !! q.
Proof.
  revert ph. induction l as [|a l IH]; intros ph; simpl.
  - reflexivity.
  - rewrite IH. clear IH. unfold phase_is.
    destruct (decide (q = a)) as [->|Hne].
    + rewrite (bool_decide_eq_true_2 (a ∈ a :: l)) by constructor.
      simpl. destruct (bool_decide (ph !! a = Some PhActive)) eqn:Ha; simpl.
      * destruct (bool_decide (except = Some a)) eqn:He; simpl.
        -- rewrite Ha. simpl. rewrite andb_false_r. reflexivity.
        -- rewrite lookup_insert_eq. destruct (_ && _ && _); reflexivity.
      * rewrite Ha. rewrite andb_false_r. reflexivity.
    + assert (bool_decide (q ∈ a :: l) = bool_decide (q ∈ l)) as ->.
      { apply bool_decide_ext. rewrite elem_of_cons. intuition congruence. }
      destruct (bool_decide (ph !! a = Some PhActive) && _); [|reflexivity].
      rewrite lookup_insert_ne by congruence. reflexivity.
Qed.

Lemma retire_active_lookup to except ph q :
  retire_active to except ph !! q
  = if is_pipeline_phase q && phase_is PhActive ph q
       && negb (bool_decide (except = Some q))
    then Some to else ph !! q.
Proof. apply retire_active_lookup_gen. Qed.

Lemma good_move_refl ph : good_move ph ph.
Proof. split; auto. Qed.

Lemma good_move_trans ph1 ph2 ph3 :
  good_move ph1 ph2 -> good_move ph2 ph3 -> good_move ph1 ph3.
Proof. intros [A1 B1] [A2 B2]. split; auto. Qed.

Lemma is_pipeline_phase_spec p : is_pipeline_phase p = true <-> p ∈ PIPELINE_PHASES.
Proof. unfold is_pipeline_phase. apply bool_decide_eq_true. Qed.

Lemma phase_is_spec st ph p : phase_is st ph p = true <-> ph !! p = Some st.
Proof. unfold phase_is. apply bool_decide_eq_true. Qed.

Lemma total_insert ph p st :
  p ∈ PIPELINE_PHASES -> phases_total ph -> phases_total (<[p := st]> ph).
Proof.
  intros Hp Ht q. destruct (decide (p = q)) as [->|Hne].
  - rewrite lookup_insert_eq. split; eauto.
  - rewrite lookup_insert_ne by done. apply Ht.
Qed.

Lemma total_retire to except ph :
  phases_total ph -> phases_total (retire_active to except ph).
Proof.
  intros Ht q. rewrite retire_active_lookup.
  destruct (is_pipeline_phase q && _ && _) eqn:E; [|apply Ht].
  apply andb_prop in E as [E _]. apply andb_prop in E as [E _].
  apply is_pipeline_phase_spec in E. split; eauto.
Qed.

(** What is active after the sweep was active before, lies outside the
    sweep or is the excepted phase. *)
Lemma retire_active_active to except ph q :
  to <> PhActive ->
  retire_active to except ph !! q = Some PhActive ->
  ph !! q = Some PhActive /\ (q ∈ PIPELINE_PHASES -> except = Some q).
Proof.
  intros Hto. rewrite retire_active_lookup.
  destruct (is_pipeline_phase q) eqn:Hq; simpl.
  - destruct (phase_is PhActive ph q) eqn:Ha; simpl.
    + destruct (bool_decide (except = Some q)) eqn:He; simpl.
      * intros H. split; [done|]. intros _. by apply bool_decide_eq_true in He.
      * intros [= ?]. congruence.
    + intros H. unfold phase_is in Ha.
      by rewrite bool_decide_eq_true_2 in Ha.
  - intros H. split; [done|]. intros Hin. apply is_pipeline_phase_spec in Hin. congruence.
Qed.

Lemma retire_active_skipped to except ph p :
  ph !! p = Some PhSkipped -> retire_active to except ph !! p = Some PhSkipped.
Proof.
  intros H. rewrite retire_active_lookup. unfold phase_is. rewrite H.
  rewrite (bool_decide_eq_false_2 (Some PhSkipped = Some PhActive)) by congruence.
  by rewrite andb_false_r.
Qed.

Lemma good_retire_all to ph :
  to <> PhActive -> good_move ph (retire_active to None ph).
Proof.
  intros Hto. split; [|intros p; apply retire_active_skipped].
  intros [Ht Ha]. split; [by apply total_retire|].
  intros p q Hp Hq.
  apply (retire_active_active _ _ _ _ Hto) in Hp as [Hp _].
  apply (retire_active_active _ _ _ _ Hto) in Hq as [Hq _].
  eauto.
Qed.

Lemma good_insert_skipped ph p :
  p ∈ PIPELINE_PHASES -> good_move ph (<[p := PhSkipped]> ph).
Proof.
  intros Hp. split.
  - intros [Ht Ha]. split; [by apply total_insert|].
    intros a b. destruct (decide (p = a)) as [->|]; [by rewrite lookup_insert_eq|].
    destruct (decide (p = b)) as [->|]; [by rewrite lookup_insert_eq|].
    rewrite !lookup_insert_ne by done. apply Ha.
  - intros q Hq. destruct (decide (p = q)) as [->|]; [by rewrite lookup_insert_eq|].
    by rewrite lookup_insert_ne.
Qed.

Lemma good_mark_completed ph p :
  p ∈ PIPELINE_PHASES -> ph !! p = Some PhActive ->
  good_move ph (<[p := PhCompleted]> ph).
Proof.
  intros Hp Hact. split.
  - intros [Ht Ha]. split; [by apply total_insert|].
    intros a b. destruct (decide (p = a)) as [->|]; [by rewrite lookup_insert_eq|].
    destruct (decide (p = b)) as [->|]; [by rewrite lookup_insert_eq|].
    rewrite !lookup_insert_ne by done. apply Ha.
  - intros q Hq. destruct (decide (p = q)) as [->|]; [congruence|].
    by rewrite lookup_insert_ne.
Qed.

(** The two assignments of [updatePhaseStatus]. *)
Lemma good_activate ph p :
  p ∈ PIPELINE_PHASES ->
  good_move ph
    (let ph1 := retire_active PhCompleted (Some p) ph in
     if negb (phase_is PhSkipped ph1 p) then <[p := PhActive]> ph1 else ph1).
Proof.
  intros Hp. cbv zeta.
  assert (Honly : forall ph q, phases_total ph ->
             retire_active PhCompleted (Some p) ph !! q = Some PhActive -> q = p).
  { intros ph0 q Ht Hq. pose proof Hq as Hq'.
    apply retire_active_active in Hq as [Hq Hex]; [|done].
    assert (q ∈ PIPELINE_PHASES) as Hin by (apply Ht; eauto).
    specialize (Hex Hin). congruence. }
  split.
  - intros [Ht Ha].
    destruct (negb (phase_is PhSkipped _ p)) eqn:E.
    + split; [apply total_insert; [done|by apply total_retire]|].
      intros a b Ha' Hb'.
      assert (forall q, <[p:=PhActive]> (retire_active PhCompleted (Some p) ph) !! q
                        = Some PhActive -> q = p) as Hq.
      { intros q. destruct (decide (p = q)) as [->|]; [done|].
        rewrite lookup_insert_ne by done. by apply Honly. }
      rewrite (Hq a Ha'), (Hq b Hb'). done.
    + split; [by apply total_retire|].
      intros a b Ha' Hb'. rewrite (Honly ph a Ht Ha'), (Honly ph b Ht Hb'). done.
  - intros q Hq. pose proof (retire_active_skipped PhCompleted (Some p) ph q Hq) as Hs.
    destruct (negb (phase_is PhSkipped _ p)) eqn:E; [|done].
    destruct (decide (p = q)) as [->|]; [|by rewrite lookup_insert_ne].
    apply negb_true_iff in E. unfold phase_is in E.
    by rewrite bool_decide_eq_true_2 in E.
Qed.

End phase_map.

(** Assignments to other fields leave the phase map alone. *)
Lemma phases_set_logs v s : phases (set_logs v s) = phases s.
Proof. by destruct s. Qed.
Lemma phases_set_planText v s : phases (set_planText v s) = phases s.
Proof. by destruct s. Qed.
Lemma phases_set_status v s : phases (set_status v s) = phases s.
Proof. by destruct s. Qed.
Lemma phases_set_finishedAt v s : phases (set_finishedAt v s) = phases s.
Proof. by destruct s. Qed.
Lemma phases_set_currentPhase v s : phases (set_currentPhase v s) = phases s.
Proof. by destruct s. Qed.
Lemma phases_set_prUrl v s : phases (set_prUrl v s) = phases s.
Proof. by destruct s. Qed.
Lemma phases_set_prMergeStatus v s : phases (set_prMergeStatus v s) = phases s.
Proof. by destruct s. Qed.
Lemma phases_set_prMergeMessage v s : phases (set_prMergeMessage v s) = phases s.
Proof. by destruct s. Qed.
Lemma phases_set_phases v s : phases (set_phases v s) = v.
Proof. by destruct s. Qed.

Create Rewrite HintDb run_fields.
#[export] Hint Rewrite phases_set_logs phases_set_planText phases_set_status
  phases_set_finishedAt phases_set_currentPhase phases_set_prUrl
  phases_set_prMergeStatus phases_set_prMergeMessage phases_set_phases : run_fields.

Lemma updatePhaseStatus_good state phase :
  good_move (phases state) (phases (updatePhaseStatus state phase)).
Proof.
  unfold updatePhaseStatus.
  destruct (is_pipeline_phase (Str.toUpperCase phase)) eqn:E; cbn [negb].
  - autorewrite with run_fields. apply good_activate. by apply is_pipeline_phase_spec.
  - apply good_move_refl.
Qed.

Lemma markPhaseCompleted_good state phase :
  good_move (phases state) (phases (markPhaseCompleted state phase)).
Proof.
  unfold markPhaseCompleted.
  destruct (is_pipeline_phase _ && _) eqn:E; [|apply good_move_refl].
  apply andb_prop in E as [E1 E2]. autorewrite with run_fields.
  apply good_mark_completed; [by apply is_pipeline_phase_spec|by apply phase_is_spec].
Qed.

Lemma capture_plan_phases w entry state :
  phases (capture_plan w entry state) = phases state.
Proof.
  unfold capture_plan. repeat case_match; autorewrite with run_fields; reflexivity.
Qed.

Lemma detect_transition_good entry state :
  good_move (phases state) (phases (detect_transition entry state)).
Proof.
  unfold detect_transition.
  repeat case_match; autorewrite with run_fields;
    try apply good_move_refl;
    try apply updatePhaseStatus_good;
    try apply markPhaseCompleted_good;
    try (apply good_retire_all; discriminate);
    try (apply good_insert_skipped; unfold PIPELINE_PHASES; set_solver).
Qed.

Lemma handleLogEntry_good w runId entry state :
  good_move (phases state) (phases (fst (handleLogEntry w runId entry state))).
Proof.
  unfold handleLogEntry. cbn [fst].
  eapply good_move_trans; [|apply detect_transition_good].
  autorewrite with run_fields.
  case_match; [rewrite capture_plan_phases|]; apply good_move_refl.
Qed.

Lemma finalizeBackgroundRun_good w runId state :
  good_move (phases state) (phases (fst (finalizeBackgroundRun w runId state))).
Proof.
  unfold finalizeBackgroundRun.
  repeat case_match; cbn [fst]; autorewrite with run_fields;
    try apply good_move_refl; apply good_retire_all; discriminate.
Qed.

Lemma onClose_good w runId code state :
  good_move (phases state) (phases (fst (onClose w runId code state))).
Proof.
  unfold onClose.
  repeat case_match; simplify_eq; cbn [fst]; autorewrite with run_fields;
    try apply good_move_refl; apply good_retire_all; discriminate.
Qed.

Lemma step_good w ev state :
  good_move (phases state) (phases (step w ev state)).
Proof.
  destruct ev; cbn [step].
  - apply handleLogEntry_good.
  - apply updatePhaseStatus_good.
  - apply markPhaseCompleted_good.
  - apply finalizeBackgroundRun_good.
  - apply onClose_good.
Qed.

Lemma replay_good w evs state :
  good_move (phases state) (phases (replay w evs state)).
Proof.
  unfold replay. revert state. induction evs as [|ev evs IH]; intros state; cbn [foldl].
  - apply good_move_refl.
  - eapply good_move_trans; [apply step_good|apply IH].
Qed.

Lemma createInitialPhases_lookup skipPlan skipPr (q : string) :
  createInitialPhases skipPlan skipPr !! q
  = if is_pipeline_phase q then Some (initial_status skipPlan skipPr q) else None.
Proof.
  unfold createInitialPhases, is_pipeline_phase.
  change None with ((∅ : gmap string PhaseStatus) !! q) at 1.
  generalize (∅ : gmap string PhaseStatus).
  induction PIPELINE_PHASES as [|a l IH]; intros acc; simpl.
  - reflexivity.
  - rewrite IH. clear IH.
    assert ((if Str.eqb a "PLAN" && skipPlan then <[a:=PhSkipped]> acc
             else if (Str.eqb a "PR" || Str.eqb a "PUSH") && skipPr
                  then <[a:=PhSkipped]> acc else <[a:=PhPending]> acc)
            = <[a := initial_status skipPlan skipPr a]> acc) as ->.
    { unfold initial_status. repeat case_match; reflexivity. }
    destruct (decide (q = a)) as [->|Hne].
    + rewrite (bool_decide_eq_true_2 (a ∈ a :: l)) by constructor.
      rewrite lookup_insert_eq. by case_bool_decide.
    + rewrite lookup_insert_ne by congruence.
      apply (f_equal (fun b : bool => if b then _ else _)).
      apply bool_decide_ext. rewrite elem_of_cons. intuition congruence.
Qed.

Lemma createInitialPhases_ok skipPlan skipPr :
  phases_ok (createInitialPhases skipPlan skipPr).
Proof.
  split.
  - intros p. rewrite createInitialPhases_lookup.
    destruct (is_pipeline_phase p) eqn:E.
    + apply is_pipeline_phase_spec in E. split; eauto.
    + split; [by intros [? ?]|]. intros H%is_pipeline_phase_spec. congruence.
  - intros p q Hp. rewrite createInitialPhases_lookup in Hp.
    unfold initial_status in Hp. repeat case_match; discriminate.
Qed.

(** C1.  A run's phase map starts as [createInitialPhases] made it.  After
    any sequence of log-parsing steps ([handleLogEntry],
    [updatePhaseStatus], [markPhaseCompleted]) and finalization steps
    (background finalization, the child's [close]) it holds exactly the
    nine fixed phases, at most one of them is active, and a phase that is
    skipped is still skipped after any further steps. *)
Theorem phase_map_invariant (w : World) (skipPlan skipPr : bool)
    (s0 : RunState) (evs : list Event) :
  phases s0 = createInitialPhases skipPlan skipPr ->
  let s := replay w evs s0 in
  phases_total (phases s)
  /\ at_most_one_active (phases s)
  /\ (forall (more : list Event) (p : string),
        phases s !! p = Some PhSkipped ->
        phases (replay w more s) !! p = Some PhSkipped).
Proof.
  intros H0 s.
  destruct (replay_good w evs s0) as [Hok _].
  rewrite H0 in Hok. specialize (Hok (createInitialPhases_ok _ _)).
  destruct Hok as [Ht Ha]. split; [exact Ht|]. split; [exact Ha|].
  intros more p. apply (replay_good w more s).
Qed.

(** * The registry *)

Section registry.
Implicit Types (reg : Registry) (runId : string) (a : ActiveRun).

Lemma activeRuns_perform e reg : activeRuns (perform e reg) = activeRuns reg.
Proof.
  destruct e; try reflexivity.
  unfold perform, persistRunState, schedulePersist. cbn. by case_match.
Qed.

Lemma activeRuns_perform_all es reg : activeRuns (perform_all es reg) = activeRuns reg.
Proof.
  unfold perform_all. revert reg.
  induction es as [|e es IH]; intros reg; simpl; [done|].
  by rewrite IH, activeRuns_perform.
Qed.

Lemma commit_active runId r reg a :
  activeRuns reg !! runId = Some a ->
  activeRuns (commit runId r reg) !! runId
  = Some (mkActiveRun (fst r) (process a) (logPoller a) (logLineBuffer a)).
Proof.
  intros H. unfold commit. rewrite H, activeRuns_perform_all. cbn.
  by rewrite lookup_insert_eq.
Qed.

Lemma set_buffer_active runId buf reg a :
  activeRuns reg !! runId = Some a ->
  activeRuns (set_buffer runId buf reg) !! runId
  = Some (mkActiveRun (state a) (process a) (logPoller a) buf).
Proof. intros H. unfold set_buffer. rewrite H. cbn. by rewrite lookup_insert_eq. Qed.

Lemma stopPolling_active runId reg a :
  activeRuns reg !! runId = Some a ->
  activeRuns (stopPolling runId reg) !! runId
  = Some (mkActiveRun (state a) (process a) false (logLineBuffer a)).
Proof.
  intros H. unfold stopPolling. rewrite H.
  destruct a as [st pr [] buf]; cbn; [by rewrite lookup_insert_eq|done].
Qed.

End registry.

(** Handling log entries changes neither the status nor the process id. *)
Lemma updatePhaseStatus_status st ph :
  status (updatePhaseStatus st ph) = status st /\ pid (updatePhaseStatus st ph) = pid st.
Proof. unfold updatePhaseStatus. case_match; [done|]. by destruct st. Qed.

Lemma markPhaseCompleted_status st ph :
  status (markPhaseCompleted st ph) = status st /\ pid (markPhaseCompleted st ph) = pid st.
Proof. unfold markPhaseCompleted. case_match; [|done]. by destruct st. Qed.

Lemma handleLogEntry_status w runId entry st :
  status (fst (handleLogEntry w runId entry st)) = status st
  /\ pid (fst (handleLogEntry w runId entry st)) = pid st.
Proof.
  unfold handleLogEntry. cbn [fst].
  set (st1 := if Str.eqb _ _ then _ else st).
  assert (status st1 = status st /\ pid st1 = pid st) as [H1 H1'].
  { unfold st1, capture_plan. repeat case_match; try done; by destruct st. }
  set (st2 := set_logs _ st1).
  assert (status st2 = status st /\ pid st2 = pid st) as [H2 H2'].
  { unfold st2. rewrite <- H1, <- H1'. by destruct st1. }
  rewrite <- H2, <- H2'. clearbody st2. clear.
  unfold detect_transition.
  repeat case_match;
    try apply updatePhaseStatus_status; try apply markPhaseCompleted_status;
    try done; by destruct st2.
Qed.

Lemma feed_line_status w runId b line st :
  status (fst (feed_line w runId b line st)) = status st
  /\ pid (fst (feed_line w runId b line st)) = pid st.
Proof.
  unfold feed_line. repeat case_match; try done;
    destruct (handleLogEntry_status w runId l (set_branchName (Str.trim s) st)) as [-> ->]
    || destruct (handleLogEntry_status w runId l st) as [-> ->];
    try done; by destruct st.
Qed.

Lemma feed_lines_status w runId b lines st :
  status (fst (feed_lines w runId b lines st)) = status st
  /\ pid (fst (feed_lines w runId b lines st)) = pid st.
Proof.
  unfold feed_lines.
  assert (forall acc : RunState * list Effect,
    status (fst (foldl (fun (acc : RunState * list Effect) line =>
           let '(st', es) := feed_line w runId b line (fst acc) in
           (st', snd acc ++ es)) acc lines)) = status (fst acc)
    /\ pid (fst (foldl (fun (acc : RunState * list Effect) line =>
           let '(st', es) := feed_line w runId b line (fst acc) in
           (st', snd acc ++ es)) acc lines)) = pid (fst acc)) as H.
  { induction lines as [|l ls IH]; intros acc; simpl; [done|].
    destruct (IH (let '(st', es) := feed_line w runId b l (fst acc) in (st', snd acc ++ es)))
      as [-> ->].
    pose proof (feed_line_status w runId b l (fst acc)) as [H1 H2].
    destruct (feed_line w runId b l (fst acc)). done. }
  apply (H (st, [])).
Qed.

Lemma finalizeBackgroundRun_running w runId st :
  status st = RunRunning ->
  let done := inferCompletedFromLogs st in
  let st' := fst (finalizeBackgroundRun w runId st) in
  logs st' = logs st
  /\ finishedAt st' = Some (now w)
  /\ status st' = (if done then RunCompleted else RunFailed)
  /\ phases st' = retire_active (if done then PhCompleted else PhFailed) None (phases st).
Proof.
  intros Hrun done st'. unfold st', finalizeBackgroundRun.
  rewrite Hrun. rewrite bool_decide_eq_true_2 by done. cbn [negb].
  assert (inferCompletedFromLogs (set_finishedAt (Some (now w)) st) = done) as ->.
  { unfold done. by destruct st. }
  cbn [fst]. destruct done; destruct st; cbn; done.
Qed.

Lemma inferCompletedFromLogs_spec st :
  inferCompletedFromLogs st = true <->
  exists entry, entry ∈ logs st
    /\ Str.toUpperCase (phase entry) = "DONE"
    /\ Str.includes (message entry) "Total duration:" = true.
Proof.
  unfold inferCompletedFromLogs. rewrite existsb_exists. split.
  - intros (e & Hin & H). apply andb_prop in H as [H1 H2].
    exists e. split; [by apply list_elem_of_In|]. split; [|done].
    unfold Str.eqb in H1. by apply bool_decide_eq_true in H1.
  - intros (e & Hin & H1 & H2). exists e. split; [by apply list_elem_of_In|].
    rewrite H2, andb_true_r. unfold Str.eqb. by apply bool_decide_eq_true.
Qed.

(** C4.  The poller finds the process of a running background run dead:
    after the tick the run is finalized from the state [st] it had when
    every new line had been handled.  Its status is completed exactly when
    the retained log holds a DONE entry whose message contains
    "Total duration:", and failed otherwise; each pipeline phase that was
    still active is completed, respectively failed, and no other phase
    changes; the poller is no longer installed. *)
Theorem background_finalization (w : World) (runId : string) (reg : Registry)
    (current : ActiveRun) :
  activeRuns reg !! runId = Some current ->
  status (state current) = RunRunning ->
  isProcessAlive w (pid (state current)) = false ->
  exists (st : RunState) (after : ActiveRun),
    status st = RunRunning
    /\ activeRuns (poll w runId reg) !! runId = Some after
    /\ logPoller after = false
    /\ state after = fst (finalizeBackgroundRun w runId st)
    /\ logs (state after) = logs st
    /\ (status (state after) = RunCompleted <->
        exists entry, entry ∈ logs st
          /\ Str.toUpperCase (phase entry) = "DONE"
          /\ Str.includes (message entry) "Total duration:" = true)
    /\ (status (state after) = RunCompleted \/ status (state after) = RunFailed)
    /\ (forall p, p ∈ PIPELINE_PHASES ->
          phases (state after) !! p
          = if bool_decide (phases st !! p = Some PhActive)
            then Some (if bool_decide (status (state after) = RunCompleted)
                       then PhCompleted else PhFailed)
            else phases st !! p).
Proof.
  intros Hact Hrun Hdead.
  (* the state and the registry when [finalizeBackgroundRun] is called *)
  assert (exists st reg1 a1,
            poll w runId reg = commit runId (finalizeBackgroundRun w runId st) reg1
            /\ activeRuns reg1 !! runId = Some a1 /\ logPoller a1 = false
            /\ status st = RunRunning) as (st & reg1 & a1 & Hpoll & Ha1 & Hp1 & Hst).
  { unfold poll. rewrite Hact, Hrun. rewrite bool_decide_eq_true_2 by done. cbn [negb].
    destruct (match logFilePath (state current) with
              | Some path => readNewLogChunk w path (logFileOffset (state current))
              | None => (EmptyString, logFileOffset (state current))
              end) as [chunk nextOffset].
    set (st0 := set_logFileOffset nextOffset (state current)).
    assert (status st0 = RunRunning /\ pid st0 = pid (state current)) as [Hs0 Hp0].
    { unfold st0. rewrite <- Hrun. by destruct (state current). }
    destruct (Str.is_empty chunk).
    - (* nothing new in the file *)
      pose proof (commit_active runId (st0, []) reg current Hact) as Hc.
      pose proof (set_buffer_active runId (logLineBuffer current) _ _ Hc) as Hb.
      rewrite Hp0, Hdead.
      destruct (negb (Str.is_empty (Str.trim (logLineBuffer current)))).
      + set (r := match parseLine w (logLineBuffer current) with
                  | Some tailEntry => handleLogEntry w runId tailEntry st0
                  | None => (st0, [])
                  end).
        assert (status (fst r) = RunRunning) as Hr.
        { unfold r. case_match; [|done].
          by destruct (handleLogEntry_status w runId l st0) as [-> _]. }
        pose proof (commit_active runId r _ _ Hb) as Hc2.
        pose proof (set_buffer_active runId EmptyString _ _ Hc2) as Hb2.
        pose proof (stopPolling_active runId _ _ Hb2) as Hs.
        eexists _, _, _. split; [reflexivity|]. split; [exact Hs|]. done.
      + pose proof (stopPolling_active runId _ _ Hb) as Hs.
        eexists _, _, _. split; [reflexivity|]. split; [exact Hs|]. done.
    - destruct (feed_lines w runId true
                  (removelast (Str.split Str.newline (logLineBuffer current +:+ chunk))) st0)
        as [st1 es] eqn:Hfeed.
      assert (status st1 = RunRunning /\ pid st1 = pid (state current)) as [Hs1 Hp1].
      { pose proof (feed_lines_status w runId true
          (removelast (Str.split Str.newline (logLineBuffer current +:+ chunk))) st0) as [H1 H2].
        rewrite Hfeed in H1, H2. cbn in H1, H2. by rewrite H1, H2. }
      set (buf := List.last (Str.split Str.newline (logLineBuffer current +:+ chunk)) EmptyString).
      pose proof (commit_active runId (st1, es) reg current Hact) as Hc.
      pose proof (set_buffer_active runId buf _ _ Hc) as Hb.
      rewrite Hp1, Hdead.
      destruct (negb (Str.is_empty (Str.trim buf))).
      + set (r := match parseLine w buf with
                  | Some tailEntry => handleLogEntry w runId tailEntry st1
                  | None => (st1, [])
                  end).
        assert (status (fst r) = RunRunning) as Hr.
        { unfold r. case_match; [|done].
          by destruct (handleLogEntry_status w runId l st1) as [-> _]. }
        pose proof (commit_active runId r _ _ Hb) as Hc2.
        pose proof (set_buffer_active runId EmptyString _ _ Hc2) as Hb2.
        pose proof (stopPolling_active runId _ _ Hb2) as Hs.
        eexists _, _, _. split; [reflexivity|]. split; [exact Hs|]. done.
      + pose proof (stopPolling_active runId _ _ Hb) as Hs.
        eexists _, _, _. split; [reflexivity|]. split; [exact Hs|]. done. }
  pose proof (finalizeBackgroundRun_running w runId st Hst) as (Hlogs & _ & Hstatus & Hph).
  cbv zeta in Hlogs, Hstatus, Hph.
  exists st, (mkActiveRun (fst (finalizeBackgroundRun w runId st))
                (process a1) (logPoller a1) (logLineBuffer a1)).
  split; [exact Hst|]. split; [rewrite Hpoll; by apply commit_active|].
  cbn [logPoller state]. split; [exact Hp1|]. split; [reflexivity|].
  split; [exact Hlogs|]. rewrite Hstatus, Hph.
  split.
  { rewrite <- inferCompletedFromLogs_spec. destruct (inferCompletedFromLogs st); split; done. }
  split; [destruct (inferCompletedFromLogs st); auto|].
  intros p Hp. rewrite retire_active_lookup.
  apply is_pipeline_phase_spec in Hp. rewrite Hp. unfold phase_is. cbn [andb negb].
  rewrite (bool_decide_eq_false_2 (None = Some p)) by done. cbn [negb]. rewrite andb_true_r.
  destruct (bool_decide (phases st !! p = Some PhActive)); [|done].
  by destruct (inferCompletedFromLogs st).
Qed.

(** * Stopping a run *)

(** C10.  [stopRun] answers true exactly when the registry knows the run
    (the active entry first, the persisted record otherwise) and that run
    is running.  When it answers false the registry is returned as it was:
    no state is changed, nothing is sent, persisted or scheduled, and no
    signal is raised. *)
Theorem stopRun_true_iff_running (w : World) (runId : string) (reg : Registry) :
  (fst (stopRun w runId reg) = true <->
   exists st, getRunById runId reg = Some st /\ status st = RunRunning)
  /\ (fst (stopRun w runId reg) = false -> snd (stopRun w runId reg) = reg).
Proof.
  unfold stopRun, getRunById.
  destruct (activeRuns reg !! runId) as [a|] eqn:Ha.
  - rewrite (bool_decide_eq_false_2 (Some a = None)) by done. cbn [andb from_option].
    destruct (decide (status (state a) = RunRunning)) as [Hr|Hr].
    + rewrite (bool_decide_eq_true_2 _ Hr). cbn [negb fst snd].
      split; [|done]. split; [eauto|done].
    + rewrite (bool_decide_eq_false_2 _ Hr). cbn [negb fst snd].
      split; [|done]. split; [done|]. intros (st & [= <-] & ?). done.
  - rewrite (bool_decide_eq_true_2 (None = None)) by done. cbn [andb from_option].
    destruct (persistedRuns reg !! runId) as [p|] eqn:Hp.
    + destruct (decide (status p = RunRunning)) as [Hr|Hr].
      * rewrite (bool_decide_eq_true_2 _ Hr). cbn [negb fst snd].
        split; [|done]. split; [eauto|done].
      * rewrite (bool_decide_eq_false_2 _ Hr). cbn [negb fst snd].
        split; [|done]. split; [done|]. intros (st & [= <-] & ?). done.
    + cbn [fst snd]. split; [|done]. split; [done|]. intros (st & [=] & ?).
Qed.

(** * Startup reconciliation *)

Lemma startBackgroundLogPolling_without_path initialised w runId reg a :
  activeRuns reg !! runId = Some a ->
  truthy (logFilePath (state a)) = false ->
  startBackgroundLogPolling initialised w runId reg = reg.
Proof.
  intros Ha Hp. unfold startBackgroundLogPolling. rewrite Ha, Hp.
  by rewrite orb_true_r.
Qed.

(** C5 as stated fails: the run below is running in the background and
    its process is alive, so it is adopted, but no poller is installed for
    it: log tailing does not resume. *)
Lemma adoption_without_log_file_does_not_tail :
  ~ (forall (w : World) (run : StoredRun),
       stored_status run = RunRunning ->
       stored_runMode run = Some Background ->
       isProcessAlive w (stored_pid run) = true ->
       exists a, activeRuns (loadPersistedRuns w (Some [run]) empty_registry)
                   !! stored_id run = Some a
                 /\ logPoller a = true).
Proof.
  intros H.
  destruct (H live_world pathless_run eq_refl eq_refl eq_refl) as (a & Ha & Hp).
  vm_compute in Ha. injection Ha as <-. discriminate Hp.
Qed.

(** A tick of the poller for a running run whose process is alive keeps
    the poller installed and the run running. *)
Lemma poll_alive w runId reg cur :
  activeRuns reg !! runId = Some cur ->
  status (state cur) = RunRunning ->
  isProcessAlive w (pid (state cur)) = true ->
  exists a, activeRuns (poll w runId reg) !! runId = Some a
            /\ logPoller a = logPoller cur
            /\ status (state a) = RunRunning.
Proof.
  intros Hact Hrun Halive. unfold poll.
  rewrite Hact, Hrun. rewrite bool_decide_eq_true_2 by done. cbn [negb].
  destruct (match logFilePath (state cur) with
            | Some path => readNewLogChunk w path (logFileOffset (state cur))
            | None => (EmptyString, logFileOffset (state cur))
            end) as [chunk nextOffset].
  set (st0 := set_logFileOffset nextOffset (state cur)).
  assert (status st0 = RunRunning /\ pid st0 = pid (state cur)) as [Hs0 Hp0].
  { unfold st0. rewrite <- Hrun. by destruct (state cur). }
  destruct (Str.is_empty chunk).
  - pose proof (commit_active runId (st0, []) reg cur Hact) as Hc.
    pose proof (set_buffer_active runId (logLineBuffer cur) _ _ Hc) as Hb.
    rewrite Hp0, Halive. eexists. split; [exact Hb|]. done.
  - destruct (feed_lines w runId true
                (removelast (Str.split Str.newline (logLineBuffer cur +:+ chunk))) st0)
      as [st1 es] eqn:Hfeed.
    assert (status st1 = RunRunning /\ pid st1 = pid (state cur)) as [Hs1 Hp1].
    { pose proof (feed_lines_status w runId true
        (removelast (Str.split Str.newline (logLineBuffer cur +:+ chunk))) st0) as [H1 H2].
      rewrite Hfeed in H1, H2. cbn in H1, H2. by rewrite H1, H2. }
    pose proof (commit_active runId (st1, es) reg cur Hact) as Hc.
    pose proof (set_buffer_active runId
                  (List.last (Str.split Str.newline (logLineBuffer cur +:+ chunk)) EmptyString)
                  _ _ Hc) as Hb.
    rewrite Hp1, Halive. eexists. split; [exact Hb|]. done.
Qed.

(** The tick that runs while the module is loaded leaves a running run
    whose process is alive as it is, but for the offset and the buffer. *)
Lemma poll_while_loading_alive w runId reg cur :
  activeRuns reg !! runId = Some cur ->
  status (state cur) = RunRunning ->
  isProcessAlive w (pid (state cur)) = true ->
  exists a, activeRuns (poll_while_loading w runId reg) !! runId = Some a
            /\ logPoller a = logPoller cur
            /\ status (state a) = RunRunning
            /\ logs (state a) = logs (state cur)
            /\ phases (state a) = phases (state cur).
Proof.
  intros Hact Hrun Halive. unfold poll_while_loading.
  rewrite Hact, Hrun. rewrite bool_decide_eq_true_2 by done. cbn [negb].
  destruct (match logFilePath (state cur) with
            | Some path => readNewLogChunk w path (logFileOffset (state cur))
            | None => (EmptyString, logFileOffset (state cur))
            end) as [chunk nextOffset].
  set (st0 := set_logFileOffset nextOffset (state cur)).
  assert (status st0 = RunRunning /\ pid st0 = pid (state cur)
          /\ logs st0 = logs (state cur) /\ phases st0 = phases (state cur))
    as (Hs0 & Hp0 & Hl0 & Hph0).
  { unfold st0. rewrite <- Hrun. by destruct (state cur). }
  rewrite Hp0, Halive, orb_true_r. cbn [orb].
  pose proof (commit_active runId (st0, []) reg cur Hact) as Hc.
  eexists. split; [exact (set_buffer_active runId _ _ _ Hc)|]. done.
Qed.

(** C5, amended.  What the loop of [loadPersistedRuns] does with a stored
    run that is still running.  A background run whose process is alive
    is put into the active set and stays running; its log is tailed again
    exactly when a log-file path is recorded.  Any other run stays out of
    the active set and is recorded as stopped, with [finishedAt] set (kept
    when it was there) and the restart entry appended to its log; the
    history is scheduled for writing. *)
Theorem orphan_adoption (w : World) (reg : Registry) (flag : bool) (run : StoredRun) :
  stored_status run = RunRunning ->
  let loaded := backfill run in
  let reg' := fst (load_one w (reg, flag) run) in
  if bool_decide (runMode loaded = Background) && isProcessAlive w (pid loaded)
  then
    exists a, activeRuns reg' !! id loaded = Some a
              /\ status (state a) = RunRunning
              /\ logPoller a = truthy (logFilePath loaded)
  else
    activeRuns reg' = activeRuns reg
    /\ snd (load_one w (reg, flag) run) = true
    /\ exists st, persistedRuns reg' !! id loaded = Some st
                  /\ status st = RunStopped
                  /\ finishedAt st = Some (default (now w) (finishedAt loaded))
                  /\ logs st = logs loaded ++ [restart_entry w]
                  /\ phases st = phases loaded.
Proof.
  intros Hrun loaded reg'. unfold reg', load_one. fold loaded.
  assert (status loaded = RunRunning) as Hst by exact Hrun.
  rewrite Hst. rewrite (bool_decide_eq_true_2 (RunRunning = RunRunning)) by reflexivity.
  destruct (bool_decide (runMode loaded = Background) && isProcessAlive w (pid loaded)) eqn:E.
  - apply andb_prop in E as [_ Halive].
    set (reg1 := set_active (id loaded) (mkActiveRun loaded None false EmptyString) reg).
    assert (activeRuns reg1 !! id loaded = Some (mkActiveRun loaded None false EmptyString))
      as H1 by apply lookup_insert_eq.
    cbn [fst]. change (activeRuns (set_persisted ?k ?v ?r)) with (activeRuns r).
    destruct (truthy (logFilePath loaded)) eqn:Hpath.
    + (* tailing starts, and its first tick leaves it running *)
      unfold startBackgroundLogPolling. rewrite H1. cbn [logPoller state orb].
      rewrite Hpath. cbn [negb].
      set (reg2 := emit _ _).
      assert (activeRuns reg2 !! id loaded = Some (mkActiveRun loaded None true EmptyString))
        as H2 by apply lookup_insert_eq.
      destruct (poll_while_loading_alive w (id loaded) reg2 _ H2 Hst Halive)
        as (a & Ha & Hp & Hs & _).
      exists a. done.
    + exists (mkActiveRun loaded None false EmptyString). done.
  - cbn [fst snd]. split; [done|]. split; [done|].
    eexists. split.
    + assert (forall a b c, id (set_logs a (set_finishedAt b (set_status c loaded)))
                            = id loaded) as -> by (intros; by destruct loaded).
      apply lookup_insert_eq.
    + by destruct loaded.
Qed.

Lemma orphan_adoption_witness :
  let loaded := backfill pathless_run in
  let reg' := fst (load_one live_world (empty_registry, false) pathless_run) in
  if bool_decide (runMode loaded = Background) && isProcessAlive live_world (pid loaded)
  then
    exists a, activeRuns reg' !! id loaded = Some a
              /\ status (state a) = RunRunning
              /\ logPoller a = truthy (logFilePath loaded)
  else
    activeRuns reg' = activeRuns empty_registry
    /\ snd (load_one live_world (empty_registry, false) pathless_run) = true
    /\ exists st, persistedRuns reg' !! id loaded = Some st
                  /\ status st = RunStopped
                  /\ finishedAt st = Some (default (now live_world) (finishedAt loaded))
                  /\ logs st = logs loaded ++ [restart_entry live_world]
                  /\ phases st = phases loaded.
Proof. exact (orphan_adoption live_world empty_registry false pathless_run eq_refl). Defined.

(** * Auto-merge *)

Lemma broadcast_no_merge runId st : ~ requests_merge (broadcast runId st).
Proof.
  intros [url H]. unfold broadcast in H.
  rewrite !elem_of_cons, elem_of_nil in H. naive_solver.
Qed.

Lemma requests_merge_app es1 es2 :
  requests_merge (es1 ++ es2) <-> requests_merge es1 \/ requests_merge es2.
Proof.
  unfold requests_merge. setoid_rewrite elem_of_app. naive_solver.
Qed.

Lemma refresh_no_merge runId fetch st :
  ~ requests_merge (snd (refreshRunPrStatus runId fetch st)).
Proof.
  unfold refreshRunPrStatus. destruct (negb (truthy (prUrl st))).
  - intros [url H]. cbn in H. by apply elem_of_nil in H.
  - destruct fetch; cbn [snd]; rewrite !requests_merge_app;
      intros [[H|H]|H];
      try (by eapply broadcast_no_merge);
      destruct H as [url H]; rewrite elem_of_cons, elem_of_nil in H; naive_solver.
Qed.

Lemma truthy_or_else a b : truthy b = true -> truthy (or_else a b) = true.
Proof. unfold or_else. destruct (Str.is_empty a) eqn:E; [done|]. intros _. cbn. by rewrite E. Qed.

Lemma refresh_keeps_prUrl runId fetch st :
  truthy (prUrl st) = true ->
  truthy (prUrl (snd (fst (refreshRunPrStatus runId fetch st)))) = true.
Proof.
  intros H. unfold refreshRunPrStatus. rewrite H. cbn [negb].
  destruct fetch; cbn [fst snd].
  - by destruct st.
  - unfold applyPrView.
    assert (forall a b c d e f g s,
              prUrl (set_prMergeMessage a (set_prMergeStatus b (set_prBaseRef c
                (set_prHeadRef d (set_prNumber e (set_prTitle f (set_prUrl g s)))))))
              = g) as -> by (intros; by destruct s).
    apply truthy_or_else. by destruct st.
Qed.

Lemma executeMerge_requests active runId gh st :
  truthy (prUrl st) = true ->
  requests_merge (snd (executeMerge active runId gh st)).
Proof.
  intros H. unfold executeMerge. rewrite H. cbn [negb].
  exists (default EmptyString (prUrl (set_prMergeMessage (Some "Submitting merge request...")
            (set_prMergeStatus PrAutoMerging st)))).
  destruct (merge_error gh).
  - cbn [snd]. rewrite !elem_of_app, elem_of_cons. auto.
  - destruct (refreshRunPrStatus _ _ _) as [[ok st2] e2].
    destruct active; destruct (negb ok || _); cbn [snd]; rewrite !elem_of_app, elem_of_cons; auto.
Qed.

(** C9 as stated fails: the refresh fails, the status is "failed" and not
    "conflict", and still no merge is requested. *)
Lemma auto_merge_skipped_without_conflict :
  ~ (forall (runId : string) (gh : GhAnswers) (st : RunState),
       autoMerge st = true -> truthy (prUrl st) = true -> status st = RunCompleted ->
       (requests_merge (snd (maybeAutoMergeRun runId gh st))
        <-> prMergeStatus (refreshed runId gh st) <> PrConflict)).
Proof.
  intros H.
  destruct (H "run-9" failing_answers merge_ready_run eq_refl eq_refl eq_refl) as [_ H2].
  assert (snd (maybeAutoMergeRun "run-9" failing_answers merge_ready_run)
          = snd (refreshRunPrStatus "run-9" (first_view failing_answers) merge_ready_run))
    as E by (vm_compute; reflexivity).
  rewrite E in H2. apply (refresh_no_merge _ _ _ (H2 ltac:(vm_compute; discriminate))).
Qed.

(** C9, amended.  For a completed run with a pull request and auto-merge
    requested, [maybeAutoMergeRun] first refreshes the merge status and
    then requests the merge exactly when the refreshed status is "ready"
    or "checking".  On "conflict" it requests nothing and records the
    message that points to Resolve & Merge; when the pull request is
    already merged or the refresh failed it stops after the refresh. *)
Theorem auto_merge_policy (runId : string) (gh : GhAnswers) (st : RunState) :
  autoMerge st = true -> truthy (prUrl st) = true -> status st = RunCompleted ->
  let st1 := refreshed runId gh st in
  let e1 := snd (refreshRunPrStatus runId (first_view gh) st) in
  let final := fst (maybeAutoMergeRun runId gh st) in
  let es := snd (maybeAutoMergeRun runId gh st) in
  (exists rest, es = e1 ++ rest)
  /\ (requests_merge es <-> prMergeStatus st1 = PrReady \/ prMergeStatus st1 = PrChecking)
  /\ (prMergeStatus st1 = PrConflict ->
      prMergeStatus final = PrConflict
      /\ prMergeMessage final
         = Some "Auto-merge skipped because this PR has merge conflicts. Use Resolve & Merge.")
  /\ (prMergeStatus st1 = PrMerged \/ prMergeStatus st1 = PrFailed ->
      final = st1 /\ es = e1).
Proof.
  intros Hauto Hurl Hdone st1 e1 final es.
  pose proof (refresh_no_merge runId (first_view gh) st) as Hno.
  pose proof (refresh_keeps_prUrl runId (first_view gh) st Hurl) as Hkeep.
  assert (prMergeStatus st1 = PrFailed \/ fst (fst (refreshRunPrStatus runId (first_view gh) st)) = true)
    as Hok.
  { unfold st1, refreshed, refreshRunPrStatus. rewrite Hurl. cbn [negb].
    destruct (first_view gh); cbn [fst snd]; [left; by destruct st|by right]. }
  unfold final, es, maybeAutoMergeRun. rewrite Hauto, Hurl, Hdone.
  rewrite bool_decide_eq_true_2 by done. cbn [negb orb].
  unfold st1, e1, refreshed in *.
  destruct (refreshRunPrStatus runId (first_view gh) st) as [[ok s1] ef].
  cbn [fst snd] in *.
  destruct (prMergeStatus s1) eqn:Hs; cbn [bool_decide decide_rel andb orb];
    repeat (rewrite bool_decide_eq_false_2 by discriminate);
    repeat (rewrite bool_decide_eq_true_2 by reflexivity);
    cbn [andb orb negb].
  all: try (destruct Hok as [Hok|Hok]; [discriminate|]; subst ok; cbn [negb andb]).
  all: try rewrite andb_false_r; try rewrite andb_true_r.
  all: try (destruct (executeMerge true runId gh s1) as [[okm sm] em] eqn:Hm;
            pose proof (executeMerge_requests true runId gh s1 Hkeep) as Hreq;
            rewrite Hm in Hreq; cbn [fst snd] in *).
  all: cbn [fst snd].
  all: try (destruct (negb ok)).
  all: repeat split; try (intros; exfalso; naive_solver); try done.
  all: try (by exists []; rewrite app_nil_r).
  all: try (by eexists).
  all: try (intros _; apply requests_merge_app; by right).
  all: try (intros _; by (left + right)).
  all: try (rewrite requests_merge_app; intros [H|H]; [done|by apply broadcast_no_merge in H]).
  all: try (by destruct s1).
  all: auto.
Qed.

(** * The pipeline *)

Section pipe.
Context {A B : Type}.
Implicit Types (m : Pipe A) (f : A -> Pipe B).

Lemma bind_fst m f : fst (m ≫= f) = fst m ≫= (fun a => fst (f a)).
Proof. destruct m as [[a|] t]; cbn; [by destruct (f a)|done]. Qed.

Lemma bind_snd m f :
  snd (m ≫= f) = snd m ++ from_option (fun a => snd (f a)) [] (fst m).
Proof. destruct m as [[a|] t]; cbn; [by destruct (f a)|by rewrite app_nil_r]. Qed.

Lemma bind_Forall (P : DriverEvent -> Prop) m f :
  Forall P (snd m) -> (forall a, Forall P (snd (f a))) -> Forall P (snd (m ≫= f)).
Proof.
  intros Hm Hf. rewrite bind_snd. apply Forall_app. split; [done|].
  destruct (fst m); cbn; [apply Hf|constructor].
Qed.

Lemma bind_failed m f : fst m = None -> m ≫= f = (None, snd m).
Proof. destruct m as [[a|] t]; cbn; [done|done]. Qed.

End pipe.

Ltac early_step :=
  first
    [ apply bind_Forall; [|intros ?]
    | match goal with
      | |- Forall _ [] => constructor
      | |- Forall _ (_ :: _) => constructor; [vm_compute; reflexivity|]
      end
    | progress cbn [snd log exec return_1 mret Pipe_ret or_return_1 retried]
    | match goal with |- context [match ?x with _ => _ end] => destruct x end ].

Lemma run_commands_early cmds : Forall (fun e => of_early_phase e = true) (snd (run_commands cmds)).
Proof.
  induction cmds as [|[cmd ok] rest IH]; cbn [run_commands].
  - constructor.
  - destruct (Str.is_empty cmd); [exact IH|].
    repeat first [ exact IH | early_step ].
Qed.

Lemma before_commit_early d : Forall (fun e => of_early_phase e = true) (snd (before_commit d)).
Proof.
  unfold before_commit, clone_and_prepare_repo, run_post_clone_commands, plan_phase,
    review_and_fix.
  repeat first [ apply run_commands_early | early_step ].
Qed.

Lemma commit_phase_not_push d :
  Forall (fun e => of_push_or_pr e = false) (snd (commit_phase d)).
Proof. unfold commit_phase. repeat early_step. Qed.

Lemma early_not_push e : of_early_phase e = true -> of_push_or_pr e = false.
Proof.
  destruct e as [step msg|c]; cbn [of_early_phase of_push_or_pr];
    rewrite bool_decide_eq_true, !elem_of_cons, elem_of_nil;
    intros H; repeat (destruct H as [->|H]; [reflexivity|]); done.
Qed.

Lemma early_not_commit e : of_early_phase e = true -> forall msg, e <> Log "COMMIT" msg.
Proof. intros H msg ->. vm_compute in H. discriminate. Qed.

Lemma commit_phase_empty_tree d :
  git_status_porcelain d = EmptyString ->
  commit_phase d
  = (None,
     [Log "COMMIT" "Preparing commit"; Exec "git add -A"]
     ++ (if git_add_ok d then [Exec "git status --porcelain"; no_changes_line] else [])).
Proof.
  intros H. unfold commit_phase. rewrite H. by destruct (git_add_ok d).
Qed.

(** C6.  When [git status --porcelain] prints nothing, the pipeline
    returns 1 and the script exits with code 1; no log line of the PUSH, PR
    or DONE steps is written and none of their commands is run.  When the
    phases before the commit succeeded and staging succeeded, the commit
    step writes its opening line, stages, asks for the status and ends the
    log with the COMMIT line "Nothing to commit"; a trace that holds the
    opening line of the commit step at all ends with that line.  The
    supervisor of a foreground run that is still running records the run
    as failed when the script exits with that code. *)
Theorem nothing_to_commit (d : Driver) :
  git_status_porcelain d = EmptyString ->
  let trace := snd (run_pipeline d) in
  fst (run_pipeline d) = None
  /\ main_exit_code d = 1%Z
  /\ Forall (fun e => of_push_or_pr e = false) trace
  /\ (is_Some (fst (before_commit d)) -> git_add_ok d = true ->
      trace
      = snd (before_commit d)
        ++ [Log "COMMIT" "Preparing commit"; Exec "git add -A";
            Exec "git status --porcelain";
            Log "COMMIT" "No changes after implementation/review. Nothing to commit."])
  /\ (Log "COMMIT" "Preparing commit" ∈ trace -> git_add_ok d = true ->
      last trace = Some no_changes_line)
  /\ (forall (w : World) (runId : string) (st : RunState),
        runMode st = Foreground -> status st = RunRunning ->
        status (fst (onClose w runId (main_exit_code d) st)) = RunFailed).
Proof.
  intros Hempty trace.
  pose proof (before_commit_early d) as Hearly.
  assert (Hcases :
    (fst (before_commit d) = None /\ run_pipeline d = (None, snd (before_commit d)))
    \/ (is_Some (fst (before_commit d))
        /\ run_pipeline d = (None, snd (before_commit d) ++ snd (commit_phase d)))).
  { unfold run_pipeline. destruct (before_commit d) as [[did|] t] eqn:Hb.
    - right. split; [by eexists|]. rewrite commit_phase_empty_tree by done.
      destruct (git_add_ok d); reflexivity.
    - left. done. }
  assert (Hfail : fst (run_pipeline d) = None) by (destruct Hcases as [[_ ->]|[_ ->]]; done).
  assert (Hcode : main_exit_code d = 1%Z) by (unfold main_exit_code; by rewrite Hfail).
  split; [exact Hfail|]. split; [exact Hcode|]. split; [|split; [|split]].
  - unfold trace. destruct Hcases as [[_ ->]|[_ ->]]; cbn [snd].
    + eapply Forall_impl; [exact Hearly|]. apply early_not_push.
    + apply Forall_app. split; [eapply Forall_impl; [exact Hearly|]; apply early_not_push|].
      apply commit_phase_not_push.
  - intros Hsome Hadd. unfold trace. destruct Hcases as [[Hnone _]|[_ ->]].
    + rewrite Hnone in Hsome. by destruct Hsome.
    + cbn [snd]. rewrite commit_phase_empty_tree by done. by rewrite Hadd.
  - intros Hin Hadd. unfold trace in *.
    destruct Hcases as [[_ E]|[_ E]]; rewrite E in *; cbn [snd] in *.
    + rewrite Forall_forall in Hearly.
      exfalso. eapply (early_not_commit _ (Hearly _ Hin)). reflexivity.
    + rewrite commit_phase_empty_tree by done. rewrite Hadd. cbn [snd].
      change [Exec "git status --porcelain"; no_changes_line]
        with ([Exec "git status --porcelain"] ++ [no_changes_line]).
      rewrite !app_assoc. apply last_snoc.
  - intros w runId st Hmode Hrun. rewrite Hcode. unfold onClose. rewrite Hmode.
    assert (status (set_finishedAt (Some (now w)) st) = RunRunning) as Hs
      by (rewrite <- Hrun; by destruct st).
    rewrite Hs. rewrite bool_decide_eq_false_2 by discriminate.
    rewrite (bool_decide_eq_false_2 (1 = 0)%Z) by lia. cbn [fst].
    by destruct st.
Qed.

(** * Review and fix *)

(** ** [grep -q] at the end of a pipe *)

Lemma grep_q_spec killed matches ls :
  Sh.grep_q killed matches ls = true <->
  exists l rest, first_match matches ls l rest /\ (rest = [] \/ killed = false).
Proof.
  unfold first_match. induction ls as [|x ls IH]; cbn [Sh.grep_q].
  - split; [done|]. intros (l & rest & (before & H & _) & _). by destruct before.
  - destruct (matches x) eqn:Hx.
    + split.
      * intros H. exists x, ls. split; [exists []; by repeat split|].
        destruct ls; [by left|right]. by apply negb_true_iff in H.
      * intros (l & rest & (before & H & Hb & Hl) & Hk).
        destruct before as [|y before].
        -- cbn in H. injection H as <- <-. destruct ls; [done|].
           destruct Hk as [Hk|Hk]; [done|]. by rewrite Hk.
        -- cbn in H. injection H as <- _. inversion Hb; subst. congruence.
    + rewrite IH. split.
      * intros (l & rest & (before & -> & Hb & Hl) & Hk).
        exists l, rest. split; [|done]. exists (x :: before). repeat split; [|done].
        by constructor.
      * intros (l & rest & (before & H & Hb & Hl) & Hk).
        destruct before as [|y before].
        -- cbn in H. injection H as <- <-. congruence.
        -- cbn in H. injection H as <- ->. inversion Hb; subst.
           exists l, rest. split; [|done]. by exists before.
Qed.

Lemma grep_q_whole matches ls : Sh.grep_q false matches ls = existsb matches ls.
Proof.
  induction ls as [|x ls IH]; [done|]. cbn [Sh.grep_q existsb].
  destruct (matches x); [by destruct ls|exact IH].
Qed.

Lemma grep_q_single killed matches l : Sh.grep_q killed matches [l] = matches l.
Proof. cbn. by destruct (matches l). Qed.

Lemma grep_q_none killed matches ls :
  existsb matches ls = false -> Sh.grep_q killed matches ls = false.
Proof.
  induction ls as [|x ls IH]; [done|]. cbn [Sh.grep_q existsb].
  destruct (matches x); [done|exact IH].
Qed.

(** A killed [echo] is seen only where text follows the first match. *)
Lemma grep_q_killed matches ls l rest :
  first_match matches ls l rest -> rest <> [] -> Sh.grep_q true matches ls = false.
Proof.
  intros Hfirst Hrest. apply not_true_is_false. intros H.
  apply grep_q_spec in H as (l' & rest' & Hfirst' & [->|Hk]); [|done].
  destruct Hfirst as (b & -> & Hb & Hl). destruct Hfirst' as (b' & E & Hb' & Hl').
  revert b' E Hb'. induction b as [|x b IH]; intros b' E Hb'.
  - destruct b' as [|y b']; cbn in E.
    + injection E as _ E. done.
    + injection E as <- _. inversion Hb'; subst. congruence.
  - inversion Hb; subst. destruct b' as [|y b']; cbn in E.
    + injection E as <- _. congruence.
    + injection E as <- E. inversion Hb'; subst. by apply (IH H2 b').
Qed.

(** * Review and fix *)

Lemma review_and_fix_cases d raw :
  review_run d = Returned 0 raw ->
  review_and_fix d
  = if review_is_lgtm (review_echo_killed d) (review_text raw)
    then (Some false,
          [Log "REVIEW" ("Starting review phase with model " +:+ MODEL_REVIEW d);
           Exec "git diff"; Exec "opencode run (review)";
           Log "REVIEW" (completed_in d "REVIEW");
           Log "FIX" "Skipped fix phase because review response is LGTM"])
    else (fst (retried "opencode run (fix)" (fix_run d);; log "FIX" (completed_in d "FIX");;
               mret true),
          [Log "REVIEW" ("Starting review phase with model " +:+ MODEL_REVIEW d);
           Exec "git diff"; Exec "opencode run (review)";
           Log "REVIEW" (completed_in d "REVIEW");
           Log "FIX" ("Review found issues; running fix phase with model " +:+ MODEL_FIX d);
           Exec "opencode run (fix)"]
          ++ match fix_run d with
             | Returned 0 _ => [Log "FIX" (completed_in d "FIX")]
             | _ => []
             end).
Proof.
  intros H. unfold review_and_fix, review_text. rewrite H.
  with_strategy opaque [Sh.captured cleanup_text_output review_is_lgtm completed_in] cbn.
  destruct (review_is_lgtm _ _); [done|].
  destruct (fix_run d) as [[| |] out|];
    with_strategy opaque [Sh.captured cleanup_text_output review_is_lgtm completed_in] cbn;
    done.
Qed.

Lemma review_is_lgtm_whole text :
  review_is_lgtm false text = true <->
  exists line, line ∈ Sh.lines text /\ Str.toLowerCase line = "lgtm".
Proof.
  unfold review_is_lgtm. rewrite grep_q_whole, existsb_exists. unfold is_lgtm_line, Str.eqb.
  setoid_rewrite bool_decide_eq_true. setoid_rewrite <- list_elem_of_In. done.
Qed.

(** A text that is LGTM in some case has one line, itself. *)
Lemma lines_of_lgtm text : Str.toLowerCase text = "lgtm" -> Sh.lines text = [text].
Proof.
  intros H.
  destruct text as [|c1 [|c2 [|c3 [|c4 [|c5 r]]]]]; try discriminate H.
  cbn in H. injection H as H1 H2 H3 H4.
  assert (forall c (x : ascii), Str.lower c = x -> x <> Str.newline ->
            bool_decide (c = Str.newline) = false) as Hnl.
  { intros c x E Hx. apply bool_decide_eq_false. intros ->. apply Hx. by rewrite <- E. }
  assert (Sh.echo_option (String c1 (String c2 (String c3 (String c4 EmptyString)))) = false)
    as Hopt.
  { destruct c1 as [[] [] [] [] [] [] [] []]; try reflexivity; vm_compute in H1; discriminate H1. }
  unfold Sh.lines. rewrite Hopt. cbn [Str.split].
  rewrite (Hnl c4 _ H4) by discriminate.
  rewrite (Hnl c3 _ H3) by discriminate.
  rewrite (Hnl c2 _ H2) by discriminate.
  rewrite (Hnl c1 _ H1) by discriminate.
  reflexivity.
Qed.

Lemma review_exactly_lgtm killed text :
  Str.toLowerCase text = "lgtm" -> review_is_lgtm killed text = true.
Proof.
  intros H. unfold review_is_lgtm. rewrite (lines_of_lgtm _ H), grep_q_single.
  unfold is_lgtm_line, Str.eqb. by apply bool_decide_eq_true.
Qed.

(** C3 as stated fails: the cleaned review below is not "LGTM", it names
    an issue on its second line, and the fix phase is skipped all the same. *)
Lemma fix_skipped_on_review_with_issues :
  ~ (forall (d : Driver) (raw : string),
       review_run d = Returned 0 raw ->
       (fix_skipped d <-> Str.toLowerCase (review_text raw) = "lgtm")).
Proof.
  intros H.
  destruct (H (sample_driver two_line_review " M src/login.ts") two_line_review eq_refl)
    as [H1 _].
  assert (Str.toLowerCase (review_text two_line_review) = "lgtm") as E; [|vm_compute in E; discriminate].
  apply H1. unfold fix_skipped.
  rewrite (review_and_fix_cases (sample_driver two_line_review " M src/login.ts")
             two_line_review eq_refl).
  assert (review_is_lgtm
            (review_echo_killed (sample_driver two_line_review " M src/login.ts"))
            (review_text two_line_review) = true) as -> by (vm_compute; reflexivity).
  cbn [snd]. rewrite !elem_of_cons, elem_of_nil. intros Hin.
  repeat (destruct Hin as [Hin|Hin]; [discriminate Hin|]). done.
Qed.

(** C3, amended.  After a review that succeeded, the fix phase is skipped
    exactly when some line of the cleaned review is "LGTM" in any case
    and [echo] was not killed on the way: that is, the first such line is
    the last line of the review, or [echo] could write the lines that
    follow it before [grep] quit.  When [echo] writes the review whole,
    the fix phase is skipped exactly when the review has an LGTM line; a
    review that is "LGTM" and nothing else always skips it; a review with
    text after its first LGTM line runs the fix phase when [echo] is
    killed.  Whenever the fix phase is not skipped, its log line is
    written and the agent is called. *)
Theorem fix_skipped_iff_lgtm_line (d : Driver) (raw : string) :
  review_run d = Returned 0 raw ->
  (fix_skipped d <->
   exists line rest,
     first_match is_lgtm_line (Sh.lines (review_text raw)) line rest
     /\ (rest = [] \/ review_echo_killed d = false))
  /\ (review_echo_killed d = false ->
      (fix_skipped d <->
       exists line, line ∈ Sh.lines (review_text raw) /\ Str.toLowerCase line = "lgtm"))
  /\ (Str.toLowerCase (review_text raw) = "lgtm" -> fix_skipped d)
  /\ (forall line rest,
        first_match is_lgtm_line (Sh.lines (review_text raw)) line rest ->
        rest <> [] -> review_echo_killed d = true -> ~ fix_skipped d)
  /\ (~ fix_skipped d ->
      Log "FIX" ("Review found issues; running fix phase with model " +:+ MODEL_FIX d)
        ∈ snd (review_and_fix d)
      /\ Exec "opencode run (fix)" ∈ snd (review_and_fix d)).
Proof.
  intros Hrun.
  assert (Hiff : fix_skipped d
                 <-> review_is_lgtm (review_echo_killed d) (review_text raw) = true).
  { unfold fix_skipped. rewrite (review_and_fix_cases d raw Hrun).
    destruct (review_is_lgtm _ (review_text raw)); cbn [snd].
    - split; [done|]. intros _. rewrite !elem_of_cons, elem_of_nil. intros Hin.
      repeat (destruct Hin as [Hin|Hin]; [discriminate Hin|]). done.
    - split; [|done]. intros Hno. exfalso. apply Hno.
      rewrite elem_of_app. left. rewrite !elem_of_cons. auto 10. }
  split; [rewrite Hiff; apply grep_q_spec|].
  split; [intros Hk; rewrite Hiff, Hk; apply review_is_lgtm_whole|].
  split; [intros H; apply Hiff; by apply review_exactly_lgtm|].
  split.
  { intros line rest Hfirst Hrest Hk Hskip. apply Hiff in Hskip. rewrite Hk in Hskip.
    unfold review_is_lgtm in Hskip.
    by rewrite (grep_q_killed _ _ _ _ Hfirst Hrest) in Hskip. }
  intros Hno. rewrite Hiff in Hno. rewrite (review_and_fix_cases d raw Hrun).
  destruct (review_is_lgtm _ (review_text raw)); [done|]. cbn [snd].
  rewrite !elem_of_app, !elem_of_cons. auto 10.
Qed.

Lemma fix_skipped_iff_lgtm_line_witness :
  let d := sample_driver "lgtm" " M src/login.ts" in
  (fix_skipped d <->
   exists line rest,
     first_match is_lgtm_line (Sh.lines (review_text "lgtm")) line rest
     /\ (rest = [] \/ review_echo_killed d = false))
  /\ (review_echo_killed d = false ->
      (fix_skipped d <->
       exists line, line ∈ Sh.lines (review_text "lgtm") /\ Str.toLowerCase line = "lgtm"))
  /\ (Str.toLowerCase (review_text "lgtm") = "lgtm" -> fix_skipped d)
  /\ (forall line rest,
        first_match is_lgtm_line (Sh.lines (review_text "lgtm")) line rest ->
        rest <> [] -> review_echo_killed d = true -> ~ fix_skipped d)
  /\ (~ fix_skipped d ->
      Log "FIX" ("Review found issues; running fix phase with model " +:+ MODEL_FIX d)
        ∈ snd (review_and_fix d)
      /\ Exec "opencode run (fix)" ∈ snd (review_and_fix d)).
Proof.
  exact (fix_skipped_iff_lgtm_line (sample_driver "lgtm" " M src/login.ts") "lgtm" eq_refl).
Defined.

(** The same review with an issue on its second line: the fix phase is
    skipped when [echo] writes it whole, and runs when [echo] is killed. *)
Example two_line_review_skips_fix :
  fst (review_and_fix (sample_driver_with false two_line_review " M src/login.ts"))
  = Some false.
Proof. vm_compute. reflexivity. Qed.

Example killed_echo_runs_fix :
  fst (review_and_fix (sample_driver_with true two_line_review " M src/login.ts"))
  = Some true.
Proof. vm_compute. reflexivity. Qed.

(** With an empty working tree and every earlier step succeeding, the
    commit step is reached and the log ends with the "Nothing to commit"
    line; the script exits with 1. *)
Lemma nothing_to_commit_witness :
  let d := sample_driver "LGTM" EmptyString in
  fst (run_pipeline d) = None
  /\ main_exit_code d = 1%Z
  /\ last (snd (run_pipeline d))
     = Some (Log "COMMIT" "No changes after implementation/review. Nothing to commit.")
  /\ Log "COMMIT" "Preparing commit" ∈ snd (run_pipeline d).
Proof.
  destruct (nothing_to_commit (sample_driver "LGTM" EmptyString) eq_refl)
    as (Hfail & Hcode & _ & Htrace & _ & _).
  assert (is_Some (fst (before_commit (sample_driver "LGTM" EmptyString)))) as Hsome
    by (vm_compute; eexists; reflexivity).
  specialize (Htrace Hsome eq_refl).
  split; [exact Hfail|]. split; [exact Hcode|]. rewrite Htrace. split.
  - change [Log "COMMIT" "Preparing commit"; Exec "git add -A"; Exec "git status --porcelain";
            Log "COMMIT" "No changes after implementation/review. Nothing to commit."]
      with ([Log "COMMIT" "Preparing commit"; Exec "git add -A"; Exec "git status --porcelain"]
            ++ [Log "COMMIT" "No changes after implementation/review. Nothing to commit."]).
    rewrite app_assoc. apply last_snoc.
  - rewrite elem_of_app. right. apply list_elem_of_here.
Defined.

(** * Retry with backoff *)

Lemma append_assoc_str a b c : (a +:+ b) +:+ c = a +:+ (b +:+ c).
Proof.
  induction a as [|x a IH]; [done|].
  change (String x ((a +:+ b) +:+ c) = String x (a +:+ (b +:+ c))). by rewrite IH.
Qed.

Lemma append_empty_r s : s +:+ EmptyString = s.
Proof.
  induction s as [|c r IH]; [done|].
  change (String c (r +:+ EmptyString) = String c r). by rewrite IH.
Qed.

Section retry.
Context (MAX_RETRIES : string) (m : Z) (RETRY_DELAYS : list string) (cmd : Z -> Attempt).
Hypothesis Hmax : Sh.test_int MAX_RETRIES = Some m.
Hypothesis Hdelays : RETRY_DELAYS <> [].
Hypothesis Hwords : Forall (fun d => d <> EmptyString) RETRY_DELAYS.

Lemma retry_delay_spec (i : nat) :
  (1 <= i)%nat ->
  retry_delay RETRY_DELAYS (Z.of_nat i - 1)%Z = delay_before_retry RETRY_DELAYS i
  /\ is_Some (delay_before_retry RETRY_DELAYS i).
Proof.
  intros Hi. unfold retry_delay, delay_before_retry.
  replace (Z.to_nat (Z.of_nat i - 1)) with (i - 1)%nat by lia.
  destruct (RETRY_DELAYS !! (i - 1)%nat) as [d|] eqn:E.
  - rewrite Forall_forall in Hwords.
    assert (d <> EmptyString) as Hd by (apply Hwords; by eapply list_elem_of_lookup_2).
    destruct d; [done|]. cbn. eauto.
  - split; [done|]. destruct RETRY_DELAYS as [|x l] using rev_ind; [done|].
    rewrite last_snoc. eauto.
Qed.

(** The loop from attempt [a] on, with [n] attempts left before the bound
    and [acc] written to standard output so far. *)
Lemma retry_loop_spec (n : nat) : forall (a : nat) (fuel : nat) (acc : string),
  (1 <= a)%nat -> (1 <= n)%nat -> (Z.of_nat a + Z.of_nat n = m + 1)%Z -> (n <= fuel)%nat ->
  exists (j : nat) (trace : list RetryEvent),
    retry_loop fuel MAX_RETRIES RETRY_DELAYS cmd acc (Z.of_nat a)
    = Some (result_of (acc +:+ retry_lines MAX_RETRIES cmd trace)
              (cmd (Z.of_nat (a + j - 1))), trace)
    /\ (1 <= j <= n)%nat
    /\ runs trace = Z.of_nat <$> seq a j
    /\ Some <$> sleeps trace = (fun i => delay_before_retry RETRY_DELAYS i) <$> seq a (j - 1)
    /\ (forall i, (a <= i < a + j - 1)%nat -> retryable (cmd (Z.of_nat i)))
    /\ ((Z.of_nat (a + j - 1) < m)%Z -> ~ retryable (cmd (Z.of_nat (a + j - 1))))
    /\ (j = 1%nat -> trace = [Ran (Z.of_nat a)]).
Proof.
  induction n as [|n IH]; intros a fuel acc Ha Hn Hsum Hfuel; [lia|].
  destruct fuel as [|fuel]; [lia|]. cbn [retry_loop].
  unfold Sh.test_cmp_int. rewrite Hmax.
  assert ((Z.of_nat a <=? m)%Z = true) as -> by (apply Z.leb_le; lia).
  assert (Hone : forall r,
            r = result_of acc (cmd (Z.of_nat a)) ->
            ((Z.of_nat a < m)%Z -> ~ retryable (cmd (Z.of_nat a))) ->
            exists (j : nat) (trace : list RetryEvent),
              Some (r, [Ran (Z.of_nat a)])
              = Some (result_of (acc +:+ retry_lines MAX_RETRIES cmd trace)
                        (cmd (Z.of_nat (a + j - 1))), trace)
              /\ (1 <= j <= S n)%nat
              /\ runs trace = Z.of_nat <$> seq a j
              /\ Some <$> sleeps trace
                 = (fun i => delay_before_retry RETRY_DELAYS i) <$> seq a (j - 1)
              /\ (forall i, (a <= i < a + j - 1)%nat -> retryable (cmd (Z.of_nat i)))
              /\ ((Z.of_nat (a + j - 1) < m)%Z -> ~ retryable (cmd (Z.of_nat (a + j - 1))))
              /\ (j = 1%nat -> trace = [Ran (Z.of_nat a)])).
  { intros r -> Hstop. exists 1%nat, [Ran (Z.of_nat a)].
    replace (a + 1 - 1)%nat with a by lia. cbn [retry_lines]. rewrite append_empty_r.
    split; [done|]. split; [lia|]. split; [done|]. split; [done|].
    split; [intros i; lia|]. split; [exact Hstop|done]. }
  destruct (exit_status (cmd (Z.of_nat a)) =? 0)%Z eqn:Hz.
  { apply Hone.
    - unfold result_of. by rewrite Hz.
    - intros _ [H _]. by apply Z.eqb_eq in Hz. }
  destruct (is_network_error (echo_killed (cmd (Z.of_nat a)))
              (combined_output (cmd (Z.of_nat a)))) eqn:Hnet; cbn [negb].
  2:{ apply Hone.
      - unfold result_of. by rewrite Hz.
      - intros _ [_ H]. congruence. }
  destruct (Z.of_nat a >=? m)%Z eqn:Hge.
  { apply Hone.
    - unfold result_of. by rewrite Hz.
    - intros Hlt. apply Z.geb_le in Hge. lia. }
  (* a network failure below the bound: sleep and go round again *)
  assert (Z.of_nat a < m)%Z as Hlt by (rewrite Z.geb_leb in Hge; apply Z.leb_gt in Hge; lia).
  destruct (retry_delay_spec a Ha) as [Hd [delay Hdelay]].
  rewrite Hd, Hdelay.
  destruct (IH (S a) fuel
              (acc +:+ Sh.echo (retry_line MAX_RETRIES (Z.of_nat a) (cmd (Z.of_nat a)) delay)))
    as (j & trace & Hloop & Hj & Hruns & Hsleeps & Hretry & Hstop & _);
    [lia|lia|lia|lia|].
  replace (Z.of_nat a + 1)%Z with (Z.of_nat (S a)) by lia.
  rewrite Hloop.
  exists (S j), (Ran (Z.of_nat a) :: LoggedRetry (Z.of_nat a) delay :: Slept delay :: trace).
  replace (a + S j - 1)%nat with (S a + j - 1)%nat by lia.
  split; [cbn [retry_lines]; by rewrite append_assoc_str|]. split; [lia|].
  split; [cbn [runs seq fmap list_fmap]; by rewrite Hruns|].
  split.
  { cbn [sleeps]. replace (S j - 1)%nat with (S (j - 1)) by lia.
    cbn [seq]. rewrite !fmap_cons. by rewrite Hdelay, Hsleeps. }
  split.
  { intros i Hi. destruct (decide (i = a)) as [->|Hne].
    - split; [by apply Z.eqb_neq in Hz|done].
    - apply Hretry. lia. }
  split; [exact Hstop|]. lia.
Qed.

End retry.

Lemma network_error_line_spec l :
  network_error_line l = true <->
  (exists lit, lit ∈ network_error_literals /\ Str.includes (Str.toLowerCase l) lit = true)
  \/ http_status_anywhere (Str.toLowerCase l) = true.
Proof.
  unfold network_error_line. rewrite orb_true_iff, existsb_exists.
  setoid_rewrite <- list_elem_of_In. done.
Qed.

(** C2, on the code.  With a bound [m >= 1] and a delay list of non-empty
    words, the wrapper runs the command [k] times, for attempts 1 to [k],
    and returns what the last attempt gave, after the RETRY lines it wrote
    itself.  Every attempt before the last was taken for a network
    failure, and before retry [i] it slept the [i]-th entry of the delay
    list, the last entry beyond its length.  It stops before the bound only
    on a success or on a failure that is not taken for a network failure;
    so such a first failure is returned at once, after one run and no
    sleep, and failures that are always taken for network failures run the
    command [m] times.

    A failure is taken for a network failure when a line of its output
    matches the pattern set, in any letter case, and [echo] writes the
    output whole or that line is the last.  When lines follow the first
    matching line and [echo] is killed because [grep] has quit, the failure
    is returned at once although it matches. *)
Theorem retry_policy (MAX_RETRIES : string) (m : Z) (RETRY_DELAYS : list string)
    (cmd : Z -> Attempt) :
  Sh.test_int MAX_RETRIES = Some m -> (1 <= m)%Z ->
  RETRY_DELAYS <> [] -> Forall (fun d => d <> EmptyString) RETRY_DELAYS ->
  (exists (k : nat) (trace : list RetryEvent),
     retry_with_backoff MAX_RETRIES RETRY_DELAYS cmd
     = Some (result_of (retry_lines MAX_RETRIES cmd trace) (cmd (Z.of_nat k)), trace)
     /\ (1 <= k)%nat /\ (Z.of_nat k <= m)%Z
     /\ runs trace = Z.of_nat <$> seq 1 k
     /\ length (sleeps trace) = (k - 1)%nat
     /\ (forall i, (1 <= i < k)%nat ->
           retryable (cmd (Z.of_nat i))
           /\ sleeps trace !! (i - 1)%nat = delay_before_retry RETRY_DELAYS i)
     /\ ((Z.of_nat k < m)%Z -> ~ retryable (cmd (Z.of_nat k)))
     /\ (~ retryable (cmd 1%Z) -> k = 1%nat /\ trace = [Ran 1])
     /\ ((forall i, (1 <= i <= m)%Z -> retryable (cmd i)) -> Z.of_nat k = m))
  /\ (forall a : Attempt,
        retryable a <->
        exit_status a <> 0%Z
        /\ exists l rest,
             first_match network_error_line (Sh.lines (combined_output a)) l rest
             /\ (rest = [] \/ echo_killed a = false))
  /\ (forall (a : Attempt) l rest,
        first_match network_error_line (Sh.lines (combined_output a)) l rest ->
        rest <> [] -> echo_killed a = true -> ~ retryable a)
  /\ (forall l : string,
        network_error_line l = true <->
        (exists lit,
           lit ∈ ["network"; "timeout"; "timed out"; "connection"; "connect:"; "etimedout";
                  "econnreset"; "econnrefused"; "enotfound"; "ehostunreach";
                  "temporary failure"; "name resolution"; "could not resolve host";
                  "no route to host"; "tls"; "ssl"; "x509"; "handshake"; "dial tcp";
                  "i/o timeout"; "unexpected eof"; "service unavailable"; "bad gateway";
                  "gateway timeout"; "rate limit"; "secondary rate limit"]
           /\ Str.includes (Str.toLowerCase l) lit = true)
        \/ http_status_anywhere (Str.toLowerCase l) = true).
Proof.
  intros Hmax Hm Hdelays Hwords. split; [|split; [|split]].
  2:{ intros a. unfold retryable, is_network_error. by rewrite grep_q_spec. }
  2:{ intros a l rest Hfirst Hrest Hk [_ H]. unfold is_network_error in H. rewrite Hk in H.
      by rewrite (grep_q_killed _ _ _ _ Hfirst Hrest) in H. }
  2:{ apply network_error_line_spec. }
  destruct (retry_loop_spec MAX_RETRIES m RETRY_DELAYS cmd Hmax Hdelays Hwords
              (Z.to_nat m) 1 (retry_fuel MAX_RETRIES) EmptyString)
    as (k & trace & Hloop & Hk & Hruns & Hsleeps & Hretry & Hstop & Hone);
    [lia|lia|lia|unfold retry_fuel; rewrite Hmax; cbn; lia|].
  replace (1 + k - 1)%nat with k in * by lia.
  exists k, trace. unfold retry_with_backoff. change 1%Z with (Z.of_nat 1).
  split; [exact Hloop|]. split; [lia|]. split; [lia|]. split; [exact Hruns|].
  assert (Hlen : length (sleeps trace) = (k - 1)%nat).
  { apply (f_equal length) in Hsleeps. by rewrite !length_fmap, length_seq in Hsleeps. }
  split; [exact Hlen|]. split.
  { intros i Hi. split; [apply Hretry; lia|].
    assert (((fun i => delay_before_retry RETRY_DELAYS i) <$> seq 1 (k - 1)) !! (i - 1)%nat
            = Some (delay_before_retry RETRY_DELAYS i)) as E1.
    { rewrite list_lookup_fmap, lookup_seq_lt by lia.
      replace (1 + (i - 1))%nat with i by lia. reflexivity. }
    rewrite <- Hsleeps, list_lookup_fmap in E1.
    destruct (sleeps trace !! (i - 1)%nat) as [d|]; [|discriminate E1].
    cbn in E1. by injection E1. }
  split; [exact Hstop|]. split.
  - intros Hnot. assert (k = 1%nat) as ->; [|split; [done|by apply Hone]].
    destruct (decide (k = 1%nat)) as [|Hne]; [done|].
    exfalso. apply Hnot. apply (Hretry 1%nat). lia.
  - intros Hall. destruct (decide (Z.of_nat k = m)) as [|Hne]; [done|].
    exfalso. apply Hstop; [lia|]. apply Hall. lia.
Qed.

Lemma retry_policy_witness :
  exists (k : nat) (trace : list RetryEvent),
    retry_with_backoff "3" ["10"; "30"] (fun _ => failed_with "read ECONNRESET")
    = Some (result_of (retry_lines "3" (fun _ => failed_with "read ECONNRESET") trace)
              (failed_with "read ECONNRESET"), trace)
    /\ runs trace = Z.of_nat <$> seq 1 k
    /\ Z.of_nat k = 3%Z.
Proof.
  destruct (retry_policy "3" 3%Z ["10"; "30"] (fun _ => failed_with "read ECONNRESET"))
    as [(k & trace & Hres & _ & _ & Hruns & _ & _ & _ & _ & Hall) _];
    [reflexivity | lia | discriminate | repeat constructor; discriminate |].
  exists k, trace. split; [exact Hres|]. split; [exact Hruns|].
  apply Hall. intros i _. split; [discriminate|vm_compute; reflexivity].
Defined.

(** The two failures of the specification: the wrapper returns the
    command's status with the RETRY lines it wrote. *)
Example econnreset_is_retried :
  retry_with_backoff "3" ["10"; "30"] (fun _ => failed_with "read ECONNRESET")
  = Some (Returned 1
            (Sh.captured
               ["[2026-01-01 12:00:00] [RETRY] Network error detected. attempt=1/3, sleeping 10s";
                "[2026-01-01 12:00:00] [RETRY] Network error detected. attempt=2/3, sleeping 30s"]),
          [Ran 1; LoggedRetry 1 "10"; Slept "10"; Ran 2; LoggedRetry 2 "30"; Slept "30"; Ran 3]).
Proof. vm_compute. reflexivity. Qed.

Example permission_denied_is_not_retried :
  retry_with_backoff "3" ["10"; "30"] (fun _ => failed_with "fatal: permission denied")
  = Some (Returned 1 EmptyString, [Ran 1]).
Proof. vm_compute. reflexivity. Qed.

(** A failure that matches on its first line and goes on: when [echo] is
    killed, the wrapper returns at once. *)
Example killed_echo_is_not_retried :
  retry_with_backoff "3" ["10"; "30"]
    (fun _ => mkAttempt 1 ("read ECONNRESET" +:+ String Str.newline "at TLSSocket.onread")
                true "2026-01-01 12:00:00")
  = Some (Returned 1 EmptyString, [Ran 1]).
Proof. vm_compute. reflexivity. Qed.

(** A success after one retry: the captured output begins with the RETRY
    line. *)
Example output_after_a_retry :
  retry_with_backoff "3" ["10"; "30"]
    (fun i => if (i =? 1)%Z then failed_with "read ECONNRESET"
              else mkAttempt 0 "LGTM" false "2026-01-01 12:00:10")
  = Some (Returned 0
            (Sh.captured
               ["[2026-01-01 12:00:00] [RETRY] Network error detected. attempt=1/3, sleeping 10s";
                "LGTM"]),
          [Ran 1; LoggedRetry 1 "10"; Slept "10"; Ran 2]).
Proof. vm_compute. reflexivity. Qed.

(** * The retry bound *)

(** C7, on the code.  A non-empty [OPENCODE_LOOP_MAX_RETRIES] becomes
    [MAX_RETRIES] as it is, whatever the configuration file says: the
    override is applied after the clamp and is not clamped itself. *)
Theorem env_override_bypasses_clamp (file : option string) (v : string) :
  v <> EmptyString ->
  load_config_MAX_RETRIES file (Some v) = v.
Proof.
  intros Hv. unfold load_config_MAX_RETRIES. cbn [Sh.or_default].
  destruct v as [|c r]; [done|]. reflexivity.
Qed.

Lemma env_override_bypasses_clamp_witness :
  load_config_MAX_RETRIES (Some "3") (Some "5") = "5".
Proof. apply (env_override_bypasses_clamp (Some "3") "5"). discriminate. Defined.

(** With an override of 5 the wrapper runs a command that keeps failing
    on the network five times. *)
Example five_attempts :
  (runs ∘ snd) <$> retry_with_backoff (load_config_MAX_RETRIES (Some "3") (Some "5"))
                     ["10"; "30"; "60"] (fun _ => failed_with "read ECONNRESET")
  = Some [1; 2; 3; 4; 5]%Z.
Proof. vm_compute. reflexivity. Qed.

(** * The branch name *)













Lemma split_free sep t : free_of sep t -> Str.split sep t = [t].
Proof.
  unfold free_of. induction t as [|c t IH]; cbn [Str.all Str.split]; [done|].
  intros [Hc Ht]%andb_prop. apply negb_true_iff in Hc. rewrite Hc, (IH Ht). done.
Qed.













(** The example of the specification, with the prefix the script writes. *)
Example login_bug_branch :
  generate_branch_name false "Fix the login bug for real this time!!" 7%N
  = Some "opencode/fix-login-bug".
Proof. vm_compute. reflexivity. Qed.

Example empty_output_branch :
  generate_branch_name false EmptyString 4711%N = Some "opencode/task-4711".
Proof. vm_compute. reflexivity. Qed.

(** An output that [echo] takes for options, and an output of several
    lines on which [head -n 1] quits early: the script ends there. *)
Example option_like_output : generate_branch_name false "-n" 7%N = None.
Proof. vm_compute. reflexivity. Qed.

Example head_quits_early :
  generate_branch_name true ("fix-login-bug" +:+ String Str.newline "Done.") 7%N = None.
Proof. vm_compute. reflexivity. Qed.

(** * Concrete runs *)

Lemma phase_map_invariant_witness :
  let s := replay quiet_world sample_events (fresh_run false true Foreground) in
  phases_total (phases s)
  /\ at_most_one_active (phases s)
  /\ (forall (more : list Event) (p : string),
        phases s !! p = Some PhSkipped ->
        phases (replay quiet_world more s) !! p = Some PhSkipped).
Proof.
  exact (phase_map_invariant quiet_world false true (fresh_run false true Foreground)
           sample_events eq_refl).
Defined.

Lemma background_finalization_witness :
  exists (st : RunState) (after : ActiveRun),
    status st = RunRunning
    /\ activeRuns (poll log_world "run-1" polling_registry) !! "run-1" = Some after
    /\ logPoller after = false
    /\ state after = fst (finalizeBackgroundRun log_world "run-1" st)
    /\ logs (state after) = logs st
    /\ (status (state after) = RunCompleted <->
        exists entry, entry ∈ logs st
          /\ Str.toUpperCase (phase entry) = "DONE"
          /\ Str.includes (message entry) "Total duration:" = true)
    /\ (status (state after) = RunCompleted \/ status (state after) = RunFailed)
    /\ (forall p, p ∈ PIPELINE_PHASES ->
          phases (state after) !! p
          = if bool_decide (phases st !! p = Some PhActive)
            then Some (if bool_decide (status (state after) = RunCompleted)
                       then PhCompleted else PhFailed)
            else phases st !! p).
Proof.
  apply (background_finalization log_world "run-1" polling_registry
           (mkActiveRun finished_background_run None true EmptyString));
    [vm_compute; reflexivity | reflexivity | reflexivity].
Defined.

(** The example itself: the run is finalized as completed, not failed. *)
Example done_line_finalizes_completed :
  (status ∘ state) <$> activeRuns (poll log_world "run-1" polling_registry) !! "run-1"
  = Some RunCompleted.
Proof. vm_compute. reflexivity. Qed.

Lemma auto_merge_policy_witness :
  let st1 := refreshed "run-9" mergeable_answers merge_ready_run in
  let e1 := snd (refreshRunPrStatus "run-9" (first_view mergeable_answers) merge_ready_run) in
  let final := fst (maybeAutoMergeRun "run-9" mergeable_answers merge_ready_run) in
  let es := snd (maybeAutoMergeRun "run-9" mergeable_answers merge_ready_run) in
  (exists rest, es = e1 ++ rest)
  /\ (requests_merge es <-> prMergeStatus st1 = PrReady \/ prMergeStatus st1 = PrChecking)
  /\ (prMergeStatus st1 = PrConflict ->
      prMergeStatus final = PrConflict
      /\ prMergeMessage final
         = Some "Auto-merge skipped because this PR has merge conflicts. Use Resolve & Merge.")
  /\ (prMergeStatus st1 = PrMerged \/ prMergeStatus st1 = PrFailed ->
      final = st1 /\ es = e1).
Proof.
  exact (auto_merge_policy "run-9" mergeable_answers merge_ready_run eq_refl eq_refl eq_refl).
Defined.

(** The run above ends with the merge requested and auto-merge pending. *)
Example mergeable_run_is_merged :
  prMergeStatus (fst (maybeAutoMergeRun "run-9" mergeable_answers merge_ready_run))
  = PrAutoMerging.
Proof. vm_compute. reflexivity. Qed.

(** * Further properties of the supervisor *)

(** The phase map of a new run: PLAN is skipped when the plan is skipped,
    PUSH and PR are skipped together when the pull request is skipped,
    every other phase is pending, and there is no other key. *)
Theorem initial_phases (skipPlan skipPr : bool) (p : string) :
  createInitialPhases skipPlan skipPr !! p
  = if bool_decide (p ∈ PIPELINE_PHASES) then
      Some (if bool_decide (p = "PLAN") && skipPlan then PhSkipped
            else if (bool_decide (p = "PR") || bool_decide (p = "PUSH")) && skipPr
                 then PhSkipped else PhPending)
    else None.
Proof. apply createInitialPhases_lookup. Qed.

(** Handling a log entry, whatever it says, changes neither the status
    of the run nor its process id: only finalization and [stopRun] end a
    run. *)
Theorem log_entries_keep_status (w : World) (runId : string) (entry : LogEntry)
    (st : RunState) :
  status (fst (handleLogEntry w runId entry st)) = status st
  /\ pid (fst (handleLogEntry w runId entry st)) = pid st.
Proof. apply handleLogEntry_status. Qed.

Lemma detect_transition_logs entry st : logs (detect_transition entry st) = logs st.
Proof.
  unfold detect_transition, updatePhaseStatus, markPhaseCompleted.
  repeat case_match; by destruct st.
Qed.

Lemma handleLogEntry_logs w runId entry st :
  logs (fst (handleLogEntry w runId entry st)) = push_log entry (logs st).
Proof.
  unfold handleLogEntry. cbn [fst]. rewrite detect_transition_logs.
  assert (forall v s, logs (set_logs v s) = v) as -> by (intros ? s; by destruct s).
  f_equal. unfold capture_plan. repeat case_match; try done; by destruct st.
Qed.

Lemma MAX_LOGS_positive : (1 <= MAX_LOGS_PER_RUN)%nat.
Proof. unfold MAX_LOGS_PER_RUN. lia. Qed.

(** Retention of the log: a log within the cap stays within it, the entry
    just handled is its last one, and what is kept is the end of the old
    log followed by the new entry (the oldest entries are the ones
    dropped). *)
Theorem log_retention (w : World) (runId : string) (entry : LogEntry) (st : RunState) :
  (length (logs st) <= MAX_LOGS_PER_RUN)%nat ->
  let kept := logs (fst (handleLogEntry w runId entry st)) in
  length kept = Nat.min (S (length (logs st))) MAX_LOGS_PER_RUN
  /\ last kept = Some entry
  /\ kept `suffix_of` (logs st ++ [entry]).
Proof.
  intros Hcap kept. unfold kept. rewrite handleLogEntry_logs. unfold push_log.
  pose proof MAX_LOGS_positive as Hpos.
  generalize dependent MAX_LOGS_PER_RUN. intros M Hcap Hpos.
  rewrite length_app. cbn [length]. 
  destruct (M <? length (logs st) + 1)%nat eqn:E.
  - apply Nat.ltb_lt in E. assert (length (logs st) = M) as Hl by lia.
    replace (length (logs st) + 1 - M)%nat with 1%nat by lia.
    split; [rewrite length_drop, length_app; cbn [length]; lia|].
    split; [|apply suffix_drop].
    destruct (logs st) as [|x l]; [cbn in *; lia|].
    cbn [drop app]. rewrite drop_0. apply last_snoc.
  - apply Nat.ltb_ge in E.
    split; [rewrite length_app; cbn [length]; lia|]. split; [apply last_snoc|done].
Qed.

Lemma log_retention_witness :
  let st := fresh_run false false Foreground in
  let kept := logs (fst (handleLogEntry quiet_world "run-1" (sample_entry "CLONE" "Cloning") st)) in
  length kept = Nat.min (S (length (logs st))) MAX_LOGS_PER_RUN
  /\ last kept = Some (sample_entry "CLONE" "Cloning")
  /\ kept `suffix_of` (logs st ++ [sample_entry "CLONE" "Cloning"]).
Proof.
  apply (log_retention quiet_world "run-1" (sample_entry "CLONE" "Cloning")
           (fresh_run false false Foreground)).
  cbn. lia.
Defined.

(** When the child of a foreground run closes and the run was not
    stopped, no pipeline phase is left active, whatever the exit code. *)
Theorem close_leaves_no_active_phase (w : World) (runId : string) (code : Z)
    (st : RunState) (p : string) :
  runMode st = Foreground -> status st <> RunStopped -> p ∈ PIPELINE_PHASES ->
  phases (fst (onClose w runId code st)) !! p <> Some PhActive.
Proof.
  intros Hmode Hstop Hp. unfold onClose. rewrite Hmode.
  assert (status (set_finishedAt (Some (now w)) st) = status st) as Hs by (by destruct st).
  assert (phases (set_finishedAt (Some (now w)) st) = phases st) as Hph by (by destruct st).
  rewrite Hs. rewrite (bool_decide_eq_false_2 _ Hstop).
  apply is_pipeline_phase_spec in Hp.
  destruct (bool_decide (code = 0%Z)); cbn [fst];
    autorewrite with run_fields; rewrite retire_active_lookup, Hp; unfold phase_is;
    cbn [andb]; rewrite (bool_decide_eq_false_2 (None = Some p)) by done;
    cbn [negb]; rewrite andb_true_r, ?Hph;
    case_bool_decide as E; [done|congruence|done|congruence].
Qed.

Lemma close_leaves_no_active_phase_witness :
  phases (fst (onClose quiet_world "run-1" 1 (fresh_run false false Foreground))) !! "CLONE"
  <> Some PhActive.
Proof.
  apply close_leaves_no_active_phase; [reflexivity | discriminate |].
  unfold PIPELINE_PHASES. constructor.
Defined.

Lemma persistedRuns_perform_outward es reg :
  Forall outward es -> persistedRuns (perform_all es reg) = persistedRuns reg.
Proof.
  unfold perform_all. revert reg. induction es as [|e es IH]; intros reg H; [done|].
  inversion H as [|? ? He Hes]; subst. cbn [foldl]. rewrite (IH _ Hes).
  by destruct e.
Qed.

Lemma persistedRuns_stopPolling runId reg :
  persistedRuns (stopPolling runId reg) = persistedRuns reg.
Proof. unfold stopPolling. repeat case_match; done. Qed.

Lemma activeRuns_stopPolling_none runId reg :
  activeRuns reg !! runId = None -> activeRuns (stopPolling runId reg) = activeRuns reg.
Proof. intros H. unfold stopPolling. by rewrite H. Qed.

Lemma stop_signals_outward w runId hasChild p : Forall outward (stop_signals w runId hasChild p).
Proof.
  unfold stop_signals. repeat case_match; repeat constructor.
Qed.

Lemma stopRun_not_running w runId reg st :
  getRunById runId reg = Some st -> status st <> RunRunning ->
  stopRun w runId reg = (false, reg).
Proof.
  unfold getRunById, stopRun. intros Hget Hst.
  destruct (activeRuns reg !! runId) as [a|].
  - injection Hget as <-. rewrite (bool_decide_eq_false_2 (Some a = None)) by done.
    cbn [andb from_option]. by rewrite (bool_decide_eq_false_2 _ Hst).
  - rewrite Hget. rewrite (bool_decide_eq_true_2 (None = None)) by done.
    by rewrite (bool_decide_eq_false_2 _ Hst).
Qed.

(** A successful [stopRun] leaves the run stopped, with [finishedAt]
    set; stopping it again answers false and changes nothing. *)
Theorem stopRun_twice (w w' : World) (runId : string) (reg : Registry) :
  fst (stopRun w runId reg) = true ->
  let reg1 := snd (stopRun w runId reg) in
  (exists st, getRunById runId reg1 = Some st
              /\ status st = RunStopped /\ finishedAt st = Some (now w))
  /\ stopRun w' runId reg1 = (false, reg1).
Proof.
  intros Htrue reg1.
  assert (Hst : exists st, getRunById runId reg1 = Some st
                           /\ status st = RunStopped /\ finishedAt st = Some (now w)).
  { unfold reg1. revert Htrue. unfold stopRun.
    destruct (activeRuns reg !! runId) as [a|] eqn:Ha.
    - rewrite (bool_decide_eq_false_2 (Some a = None)) by done. cbn [andb from_option].
      destruct (bool_decide (status (state a) = RunRunning)); cbn [negb fst snd]; [|done].
      intros _. set (target := set_finishedAt _ _).
      exists target. split; [|by destruct (state a)].
      unfold getRunById. rewrite activeRuns_perform_all.
      rewrite (stopPolling_active runId _
                 (mkActiveRun target (process a) (logPoller a) (logLineBuffer a)));
        [reflexivity|].
      rewrite activeRuns_perform_all. apply lookup_insert_eq.
    - rewrite (bool_decide_eq_true_2 (None = None)) by done. cbn [andb from_option].
      destruct (persistedRuns reg !! runId) as [p|] eqn:Hp; [|done].
      destruct (bool_decide (status p = RunRunning)); cbn [negb fst snd]; [|done].
      intros _. set (target := set_finishedAt _ _).
      exists target. split; [|by destruct p].
      unfold getRunById.
      assert (forall r, activeRuns r !! runId = None ->
                activeRuns (stopPolling runId r) !! runId = None) as Hsp
        by (intros r Hr; by rewrite activeRuns_stopPolling_none).
      rewrite activeRuns_perform_all, Hsp by (by rewrite activeRuns_perform_all).
      rewrite (persistedRuns_perform_outward _ _ (stop_signals_outward _ _ _ _)).
      rewrite persistedRuns_stopPolling.
      assert (forall m : gmap string RunState,
                <[id target := target]> (<[runId := target]> m) !! runId = Some target) as Hm.
      { intros m. destruct (decide (id target = runId)) as [->|Hne].
        - apply lookup_insert_eq.
        - rewrite lookup_insert_ne by done. apply lookup_insert_eq. }
      unfold perform_all. cbn [foldl perform]. unfold persistRunState, schedulePersist.
      cbn [persistedRuns persistTimer emit set_persisted]. 
      destruct (persistTimer reg); cbn [persistedRuns emit]; apply Hm. }
  split; [exact Hst|].
  destruct Hst as (st & Hget & Hs & _).
  apply (stopRun_not_running w' runId reg1 st Hget). rewrite Hs. discriminate.
Qed.

Lemma stopRun_twice_witness :
  let reg1 := snd (stopRun quiet_world "run-1" polling_registry) in
  (exists st, getRunById "run-1" reg1 = Some st
              /\ status st = RunStopped /\ finishedAt st = Some (now quiet_world))
  /\ stopRun log_world "run-1" reg1 = (false, reg1).
Proof.
  apply (stopRun_twice quiet_world log_world "run-1" polling_registry).
  vm_compute. reflexivity.
Defined.

(** Debounced persistence: however many states are persisted before the
    pending write of the history fires, one write is pending afterwards
    and at most one was scheduled for it, none when a write was pending
    already. *)
Theorem persistence_is_coalesced (sts : list RunState) (reg : Registry) :
  sts <> [] ->
  let reg' := foldl (fun r st => persistRunState st r) reg sts in
  persistTimer reg' = true
  /\ scheduled (sent reg') = (scheduled (sent reg) + if persistTimer reg then 0 else 1)%nat.
Proof.
  assert (Hsched : forall a b, scheduled (a ++ b) = (scheduled a + scheduled b)%nat).
  { induction a as [|e a IH]; intros b; [done|]. destruct e; cbn; rewrite ?IH; done. }
  assert (Hone : forall st r,
            persistTimer (persistRunState st r) = true
            /\ scheduled (sent (persistRunState st r))
               = (scheduled (sent r) + if persistTimer r then 0 else 1)%nat).
  { intros st r. unfold persistRunState, schedulePersist. cbn.
    destruct (persistTimer r) eqn:E; cbn; rewrite ?E, !Hsched; cbn; split; (done || lia). }
  revert reg. induction sts as [|st sts IH]; intros reg Hne; [done|].
  cbn [foldl]. destruct (Hone st reg) as [H1 H2].
  destruct sts as [|st2 sts]; [cbn [foldl]; done|].
  destruct (IH (persistRunState st reg)) as [H3 H4]; [done|].
  cbv zeta. split; [exact H3|]. rewrite H4, H1, H2. lia.
Qed.

Lemma persistence_is_coalesced_witness :
  let sts := [fresh_run false false Foreground; fresh_run true false Foreground] in
  let reg' := foldl (fun r st => persistRunState st r) empty_registry sts in
  persistTimer reg' = true
  /\ scheduled (sent reg')
     = (scheduled (sent empty_registry) + if persistTimer empty_registry then 0 else 1)%nat.
Proof.
  apply (persistence_is_coalesced
           [fresh_run false false Foreground; fresh_run true false Foreground] empty_registry).
  discriminate.
Defined.

Lemma trim_bracket r : Str.trim (String "["%char r) <> EmptyString.
Proof.
  unfold Str.trim, Str.drop_while. cbn [Str.span]. 
  change (Str.is_space "["%char) with false. cbn [snd Str.drop_while_end].
  change (Str.is_space "["%char) with false. by rewrite andb_false_r.
Qed.

(** [parseLine] drops a line exactly when it is blank once its escape
    codes are removed; every other line becomes an entry. *)
Theorem parseLine_none_iff_blank (w : World) (raw : string) :
  parseLine w raw = None <-> Str.trim (ansiToText w raw) = EmptyString.
Proof.
  unfold parseLine. set (clean := ansiToText w raw).
  destruct (log_line_match clean) as [[[ts ph] m]|] eqn:E.
  - split; [done|]. intros Hblank. exfalso. revert Hblank.
    unfold log_line_match in E.
    destruct clean as [|c r]; [done|]. cbn [Str.strip_prefix] in E.
    case_bool_decide as Hc; [|done]. subst c. apply trim_bracket.
  - destruct (Str.trim clean); cbn; split; done.
Qed.

(** An unstructured line becomes an OUTPUT entry with the trimmed text. *)
Example unstructured_line :
  parseLine quiet_world "   npm warn deprecated   "
  = Some (mkLogEntry "2026-01-01 12:00:05" "OUTPUT" "npm warn deprecated"
            "   npm warn deprecated   ").
Proof. vm_compute. reflexivity. Qed.

Example structured_line :
  parseLine quiet_world "[2026-01-01 12:00:00] [PLAN] Completed in 12s. Plan saved to /p/plan.md"
  = Some (mkLogEntry "2026-01-01 12:00:00" "PLAN" "Completed in 12s. Plan saved to /p/plan.md"
            "[2026-01-01 12:00:00] [PLAN] Completed in 12s. Plan saved to /p/plan.md").
Proof. vm_compute. reflexivity. Qed.

(** * The shell driver, further *)

Lemma retry_loop_total fuel MAX_RETRIES RETRY_DELAYS cmd : forall stdout attempt,
  (Z.to_nat (default 0%Z (Sh.test_int MAX_RETRIES) - attempt + 1) < fuel)%nat ->
  is_Some (retry_loop fuel MAX_RETRIES RETRY_DELAYS cmd stdout attempt).
Proof.
  induction fuel as [|fuel IH]; intros stdout attempt Hfuel; [lia|].
  cbn [retry_loop]. unfold Sh.test_cmp_int.
  destruct (Sh.test_int MAX_RETRIES) as [m|] eqn:Hm; [|by eexists].
  cbn in Hfuel.
  destruct (attempt <=? m)%Z eqn:Hle; [|by eexists].
  apply Z.leb_le in Hle.
  destruct (exit_status (cmd attempt) =? 0)%Z; [by eexists|].
  destruct (negb (is_network_error _ _)); [by eexists|].
  destruct (attempt >=? m)%Z; [by eexists|].
  destruct (retry_delay RETRY_DELAYS (attempt - 1)) as [delay|]; [|by eexists].
  destruct (IH (stdout +:+ Sh.echo (retry_line MAX_RETRIES attempt (cmd attempt) delay))
              (attempt + 1)%Z) as [[r t] ->]; [|by eexists].
  cbn. lia.
Qed.

(** [retry_with_backoff] always ends: whatever the bound, the delays and
    the command's answers, the loop stops within the iterations that the
    bound allows. *)
Theorem retry_always_ends (MAX_RETRIES : string) (RETRY_DELAYS : list string)
    (cmd : Z -> Attempt) :
  exists r t, retry_with_backoff MAX_RETRIES RETRY_DELAYS cmd = Some (r, t)
              /\ (length (runs t) <= Z.to_nat (default 0%Z (Sh.test_int MAX_RETRIES)))%nat.
Proof.
  unfold retry_with_backoff, retry_fuel.
  set (m := default 0%Z (Sh.test_int MAX_RETRIES)).
  assert (Hgen : forall fuel stdout attempt r t,
            retry_loop fuel MAX_RETRIES RETRY_DELAYS cmd stdout attempt = Some (r, t) ->
            (length (runs t) <= Z.to_nat (m - attempt + 1))%nat).
  { induction fuel as [|fuel IH]; intros stdout attempt r t; [done|].
    cbn [retry_loop]. unfold Sh.test_cmp_int, m.
    destruct (Sh.test_int MAX_RETRIES) as [b|] eqn:Hb;
      [|intros [= <- <-]; cbn; lia].
    cbn [default from_option]. unfold Datatypes.id.
    destruct (attempt <=? b)%Z eqn:Hle; [|intros [= <- <-]; cbn; lia].
    apply Z.leb_le in Hle.
    destruct (exit_status (cmd attempt) =? 0)%Z; [intros [= <- <-]; cbn; lia|].
    destruct (negb (is_network_error _ _)); [intros [= <- <-]; cbn; lia|].
    destruct (attempt >=? b)%Z eqn:Hge; [intros [= <- <-]; cbn; lia|].
    destruct (retry_delay RETRY_DELAYS (attempt - 1)) as [delay|];
      [|intros [= <- <-]; cbn; lia].
    destruct (retry_loop fuel MAX_RETRIES RETRY_DELAYS cmd _ (attempt + 1))
      as [[r' t']|] eqn:Hrec; [|done].
    intros [= <- <-]. apply IH in Hrec. unfold m in Hrec. rewrite ?Hb in Hrec.
    cbn [default from_option] in Hrec. unfold Datatypes.id in Hrec. cbn [runs length]. lia. }
  destruct (retry_loop_total (S (Z.to_nat m)) MAX_RETRIES RETRY_DELAYS cmd EmptyString 1)
    as [[r t] Hrt].
  { fold m. lia. }
  exists r, t. split; [exact Hrt|]. apply Hgen in Hrt. lia.
Qed.

(** With a bound that is not an integer of the shell, or is below one,
    [retry_with_backoff] returns 1 at once: the command is never run. *)
Theorem retry_without_usable_bound (MAX_RETRIES : string) (RETRY_DELAYS : list string)
    (cmd : Z -> Attempt) :
  (forall n, Sh.test_int MAX_RETRIES = Some n -> (n < 1)%Z) ->
  retry_with_backoff MAX_RETRIES RETRY_DELAYS cmd = Some (Returned 1 EmptyString, []).
Proof.
  intros H. unfold retry_with_backoff, retry_fuel. cbn [retry_loop].
  unfold Sh.test_cmp_int. destruct (Sh.test_int MAX_RETRIES) as [m|]; [|done].
  specialize (H m eq_refl). destruct (1 <=? m)%Z eqn:E; [|done].
  apply Z.leb_le in E. lia.
Qed.

Lemma retry_without_usable_bound_witness :
  retry_with_backoff "many" ["10"; "30"; "60"]
    (fun _ => mkAttempt 0 "ok" false "2026-01-01 12:00:00")
  = Some (Returned 1 EmptyString, []).
Proof.
  apply (retry_without_usable_bound "many" ["10"; "30"; "60"]
           (fun _ => mkAttempt 0 "ok" false "2026-01-01 12:00:00")).
  intros n H. vm_compute in H. discriminate.
Defined.

(** A bound that ends in a newline is no integer for [[ ]: nothing is run. *)
Example bound_with_newline :
  retry_with_backoff (String "3" (String Str.newline EmptyString)) ["10"; "30"; "60"]
    (fun _ => mkAttempt 0 "ok" false "2026-01-01 12:00:00")
  = Some (Returned 1 EmptyString, []).
Proof. vm_compute. reflexivity. Qed.

(** The value that [load_config] leaves in [MAX_RETRIES] when the
    environment does not override it: an integer from 1 to 3, or else the
    configured digits themselves, too many for the shell to read as an
    integer. *)
Theorem config_file_clamp (file : option string) :
  let r := load_config_MAX_RETRIES file None in
  (exists n, Sh.test_int r = Some n /\ (1 <= n <= 3)%Z)
  \/ (file = Some r /\ Sh.all_digits r = true /\ Sh.test_int r = None).
Proof.
  unfold load_config_MAX_RETRIES. cbn [Sh.or_default Str.is_empty negb].
  set (v := Sh.or_default file "3").
  assert (H3 : Sh.test_int "3" = Some 3%Z) by (vm_compute; reflexivity).
  assert (H1 : Sh.test_int "1" = Some 1%Z) by (vm_compute; reflexivity).
  assert (Hc3 : forall s, s = "3" ->
            (if Sh.test_lt (if Sh.test_gt s "3" then "3" else s) "1" then "1"
             else if Sh.test_gt s "3" then "3" else s) = "3").
  { intros s ->. vm_compute. reflexivity. }
  destruct (Sh.all_digits v) eqn:Hd; cbn [negb].
  - unfold Sh.test_gt, Sh.test_lt, Sh.test_cmp. rewrite H3.
    destruct (Sh.test_int v) as [x|] eqn:Hx.
    + destruct (x >? 3)%Z eqn:Hgt.
      * left. rewrite H3, H1. change (3 <? 1)%Z with false. cbv iota. exists 3%Z. split; [done|lia].
      * rewrite Hx, H1. destruct (x <? 1)%Z eqn:Hlt.
        -- left. exists 1%Z. split; [done|lia].
        -- left. exists x. split; [done|]. apply Z.ltb_ge in Hlt.
           rewrite Z.gtb_ltb in Hgt. apply Z.ltb_ge in Hgt. lia.
    + rewrite Hx. right. split; [|done].
      unfold v, Sh.or_default in *. destruct file as [f|]; [|by rewrite H3 in Hx].
      destruct (Str.is_empty f); [by rewrite H3 in Hx|done].
  - left. rewrite (Hc3 "3" eq_refl). exists 3%Z. split; [done|lia].
Qed.

(** A configured bound of twenty digits passes the clamp unchanged, and
    with it no retried command is ever run. *)
Example oversized_bound :
  load_config_MAX_RETRIES (Some "99999999999999999999") None = "99999999999999999999"
  /\ retry_with_backoff "99999999999999999999" ["10"; "30"; "60"]
       (fun _ => mkAttempt 0 "ok" false "2026-01-01 12:00:00")
     = Some (Returned 1 EmptyString, []).
Proof. split; vm_compute; reflexivity. Qed.

Lemma lower_newline c :
  bool_decide (Str.lower c = Str.newline) = bool_decide (c = Str.newline).
Proof.
  destruct c as [[] [] [] [] [] [] [] []]; vm_compute; reflexivity.
Qed.

Lemma split_lower s :
  Str.split Str.newline (Str.toLowerCase s)
  = List.map Str.toLowerCase (Str.split Str.newline s).
Proof.
  unfold Str.toLowerCase.
  induction s as [|c r IH]; [done|]. cbn [Str.map Str.split].
  rewrite lower_newline, IH. case_bool_decide; [done|].
  destruct (Str.split Str.newline r); reflexivity.
Qed.

Lemma strip_prefix_Some p s r : Str.strip_prefix p s = Some r -> s = p +:+ r.
Proof.
  revert s. induction p as [|c p IH]; intros s H.
  - destruct s; cbn in H; by injection H as <-.
  - destruct s as [|b s]; [done|]. cbn [Str.strip_prefix] in H.
    case_bool_decide as Hc; [|done]. subst b. apply IH in H. by rewrite H.
Qed.

Lemma all_app_l p a b : Str.all p (a +:+ b) = true -> Str.all p a = true.
Proof.
  induction a as [|c a IH]; [done|].
  change (String c a +:+ b) with (String c (a +:+ b)). cbn [Str.all].
  intros [Hc H]%andb_true_iff. by rewrite Hc, IH.
Qed.

(** A text holds the characters of what it includes. *)
Lemma includes_all p s sub :
  Str.includes s sub = true -> Str.all p s = true -> Str.all p sub = true.
Proof.
  induction s as [|c r IH]; cbn [Str.includes]; unfold Str.startsWith.
  - destruct (Str.strip_prefix sub EmptyString) as [x|] eqn:E; [|done].
    intros _ H. apply strip_prefix_Some in E. rewrite E in H. by apply all_app_l in H.
  - destruct (Str.strip_prefix sub (String c r)) as [x|] eqn:E.
    + intros _ H. apply strip_prefix_Some in E. rewrite E in H. by apply all_app_l in H.
    + cbn [orb Str.all]. intros Hin [_ H]%andb_true_iff. by apply IH.
Qed.

Lemma http_status_includes s : http_status_anywhere s = true -> Str.includes s "http" = true.
Proof.
  assert (Hhere : forall x, http_status_here x = true -> Str.startsWith x "http" = true).
  { intros x. unfold http_status_here, Str.startsWith.
    by destruct (Str.strip_prefix "http" x). }
  induction s as [|c r IH]; cbn [http_status_anywhere Str.includes].
  - rewrite orb_false_r. intros H. by rewrite (Hhere _ H).
  - intros [H|H]%orb_true_iff; [by rewrite (Hhere _ H)|]. rewrite (IH H). apply orb_true_r.
Qed.

(** No line made of a dash and the letters n and e matches the pattern. *)
Lemma option_like_line_is_no_match l :
  Str.all (fun c => bool_decide (c ∈ ["-"; "n"; "e"]%char)) l = true ->
  existsb (Str.includes l) network_error_literals || http_status_anywhere l = false.
Proof.
  intros Hall. apply orb_false_iff. split.
  - apply not_true_is_false. intros H. apply existsb_exists in H as (lit & Hin & Hinc).
    pose proof (includes_all _ _ _ Hinc Hall) as Hlit.
    assert (forallb (fun lit => negb (Str.all (fun c => bool_decide (c ∈ ["-"; "n"; "e"]%char)) lit))
              network_error_literals = true) as Hnone by (vm_compute; reflexivity).
    rewrite forallb_forall in Hnone. specialize (Hnone _ Hin). by rewrite Hlit in Hnone.
  - apply not_true_is_false. intros H. apply http_status_includes in H.
    pose proof (includes_all _ _ _ H Hall) as Hlit. vm_compute in Hlit. discriminate.
Qed.

Lemma echo_option_lower s :
  Sh.echo_option s = true ->
  Str.all (fun c => bool_decide (c ∈ ["-"; "n"; "e"]%char)) (Str.toLowerCase s) = true
  /\ free_of Str.newline (Str.toLowerCase s).
Proof.
  unfold Sh.echo_option. destruct s as [|c r]; [done|].
  destruct (bool_decide (c = "-"%char)) eqn:Hc.
  2:{ apply bool_decide_eq_false in Hc.
      destruct c as [[] [] [] [] [] [] [] []]; try done. }
  apply bool_decide_eq_true in Hc. subst c. intros [_ Hr]%andb_true_iff.
  unfold Str.toLowerCase, free_of. cbn [Str.map Str.all].
  change (Str.lower "-") with "-"%char.
  assert (forall x, bool_decide (x ∈ ["n"; "e"; "E"]%char) = true ->
            bool_decide (Str.lower x ∈ ["-"; "n"; "e"]%char) = true
            /\ negb (bool_decide (Str.lower x = Str.newline)) = true) as Hx.
  { intros x Hx. apply bool_decide_eq_true in Hx.
    rewrite !elem_of_cons, elem_of_nil in Hx.
    destruct Hx as [->|[->|[->|[]]]]; split; vm_compute; reflexivity. }
  assert (Str.all (fun c => bool_decide (c ∈ ["-"; "n"; "e"]%char)) (Str.map Str.lower r) = true
          /\ Str.all (fun c => negb (bool_decide (c = Str.newline))) (Str.map Str.lower r) = true)
    as [H1 H2].
  { induction r as [|x r IH]; [done|]. cbn [Str.all Str.map] in *.
    apply andb_true_iff in Hr as [Hx1 Hr]. destruct (Hx x Hx1) as [-> ->].
    destruct (IH Hr) as [-> ->]. done. }
  rewrite H1, H2. split; vm_compute; reflexivity.
Qed.

Lemma grep_q_map killed (g : string -> bool) (f : string -> string) ls :
  Sh.grep_q killed (fun l => g (f l)) ls = Sh.grep_q killed g (List.map f ls).
Proof.
  induction ls as [|l ls IH]; [done|]. cbn [Sh.grep_q List.map].
  rewrite IH. by destruct ls.
Qed.

(** [is_network_error] ignores the case of letters: outputs that are
    equal once lower-cased get the same answer. *)
Theorem is_network_error_ignores_case (killed : bool) (output output' : string) :
  Str.toLowerCase output = Str.toLowerCase output' ->
  is_network_error killed output = is_network_error killed output'.
Proof.
  set (g := fun l => existsb (Str.includes l) network_error_literals || http_status_anywhere l).
  assert (Hlines : forall s, Sh.echo_option s = false ->
            is_network_error killed s
            = Sh.grep_q killed g (Str.split Str.newline (Str.toLowerCase s))).
  { intros s Hs. unfold is_network_error, Sh.lines. rewrite Hs, split_lower.
    apply (grep_q_map killed g Str.toLowerCase). }
  assert (Hopt : forall s, Sh.echo_option s = true ->
            is_network_error killed s = false
            /\ Sh.grep_q killed g (Str.split Str.newline (Str.toLowerCase s)) = false).
  { intros s Hs. split.
    - unfold is_network_error, Sh.lines. rewrite Hs. by destruct (Str.includes s "n").
    - destruct (echo_option_lower s Hs) as [Hall Hfree].
      rewrite (split_free _ _ Hfree), grep_q_single.
      by apply option_like_line_is_no_match. }
  intros Heq.
  destruct (Sh.echo_option output) eqn:E1, (Sh.echo_option output') eqn:E2.
  - destruct (Hopt _ E1) as [-> _]. by destruct (Hopt _ E2) as [-> _].
  - destruct (Hopt _ E1) as [-> H]. by rewrite (Hlines _ E2), <- Heq.
  - destruct (Hopt _ E2) as [-> H]. by rewrite (Hlines _ E1), Heq.
  - by rewrite (Hlines _ E1), (Hlines _ E2), Heq.
Qed.

Lemma is_network_error_ignores_case_witness :
  is_network_error false "read ECONNRESET" = is_network_error false "Read EconnReset".
Proof.
  apply (is_network_error_ignores_case false "read ECONNRESET" "Read EconnReset").
  vm_compute. reflexivity.
Defined.

Lemma strip_ansi_go_plain s :
  Str.all not_ESC s = true -> strip_ansi_go EmptyString false s = s.
Proof.
  induction s as [|c r IH]; [done|]. cbn [Str.all strip_ansi_go Str.is_empty].
  intros [Hc Hr]%andb_true_iff. unfold not_ESC in Hc.
  apply negb_true_iff in Hc. rewrite Hc, (IH Hr). reflexivity.
Qed.

Lemma strip_ansi_go_params pending params rest :
  Str.is_empty pending = false -> Str.all is_colour_param params = true ->
  strip_ansi_go pending true (params +:+ String "m" rest)
  = strip_ansi_go EmptyString false rest.
Proof.
  revert pending. induction params as [|c r IH]; intros pending Hp Hall.
  - destruct pending as [|p ps]; [done|]. reflexivity.
  - cbn [Str.all] in Hall. apply andb_true_iff in Hall as [Hc Hr].
    change (String c r +:+ String "m" rest) with (String c (r +:+ String "m" rest)).
    destruct pending as [|p ps]; [done|].
    cbn [strip_ansi_go Str.is_empty]. unfold is_colour_param in Hc. rewrite Hc.
    apply IH; done.
Qed.

(** [strip_ansi] copies text up to an escape character and deletes a
    complete colour sequence; text without escape characters is left as
    it is. *)
Theorem strip_ansi_removes_colour (plain params rest : string) :
  Str.all not_ESC plain = true ->
  Str.all is_colour_param params = true ->
  strip_ansi plain = plain
  /\ strip_ansi (plain +:+ String ESC (String "[" (params +:+ String "m" rest)))
     = plain +:+ strip_ansi rest.
Proof.
  intros Hplain Hparams. unfold strip_ansi. split; [by apply strip_ansi_go_plain|].
  induction plain as [|c r IH].
  - change (EmptyString +:+ ?x) with x. cbn [strip_ansi_go Str.is_empty].
    rewrite (bool_decide_eq_true_2 (ESC = ESC)) by done.
    rewrite (bool_decide_eq_true_2 ("["%char = "["%char)) by done.
    apply strip_ansi_go_params; done.
  - cbn [Str.all] in Hplain. apply andb_true_iff in Hplain as [Hc Hr].
    change (String c r +:+ ?x) with (String c (r +:+ x)).
    cbn [strip_ansi_go Str.is_empty]. unfold not_ESC in Hc. apply negb_true_iff in Hc.
    rewrite Hc, (IH Hr). reflexivity.
Qed.

Lemma strip_ansi_removes_colour_witness :
  strip_ansi "ok " = "ok "
  /\ strip_ansi ("ok " +:+ String ESC (String "[" ("1;32" +:+ String "m" "done")))
     = "ok " +:+ strip_ansi "done".
Proof.
  apply (strip_ansi_removes_colour "ok " "1;32" "done"); vm_compute; reflexivity.
Defined.

Lemma execs_app command t1 t2 :
  execs command (t1 ++ t2) = (execs command t1 + execs command t2)%nat.
Proof.
  induction t1 as [|[step msg|c] t1 IH]; cbn [app execs]; [done|done|]. rewrite IH. lia.
Qed.

Lemma wait_for_remote_branch_fst d left attempt :
  fst (wait_for_remote_branch d left attempt)
  = Some (existsb (remote_branch_visible d) (seq attempt left)).
Proof.
  revert attempt. induction left as [|left IH]; intros attempt; [done|].
  cbn [wait_for_remote_branch seq existsb].
  rewrite bind_fst. cbn [exec fst mbind option_bind].
  destruct (remote_branch_visible d attempt); [done|]. cbn [orb].
  rewrite bind_fst. rewrite <- IH.
  destruct (attempt <? 6)%nat; cbn; by destruct (wait_for_remote_branch d left (S attempt)).
Qed.

Lemma wait_for_remote_branch_count d left attempt :
  (attempt + left = 7)%nat ->
  let t := snd (wait_for_remote_branch d left attempt) in
  execs "git ls-remote" t
  = (if bool_decide (left = 0%nat) then 0 else S (execs "sleep" t))%nat
  /\ (execs "git ls-remote" t <= left)%nat.
Proof.
  assert (E1 : Str.eqb "git ls-remote" "git ls-remote" = true) by (vm_compute; reflexivity).
  assert (E2 : Str.eqb "git ls-remote" "sleep" = false) by (vm_compute; reflexivity).
  assert (E3 : Str.eqb "sleep" "git ls-remote" = false) by (vm_compute; reflexivity).
  assert (E4 : Str.eqb "sleep" "sleep" = true) by (vm_compute; reflexivity).
  revert attempt. induction left as [|left IH]; intros attempt Hsum; [cbn; done|].
  cbn [wait_for_remote_branch]. cbv zeta.
  rewrite bool_decide_eq_false_2 by done.
  destruct (remote_branch_visible d attempt); [cbn; rewrite E1, E2; split; [done|lia]|].
  destruct (IH (S attempt)) as [H1 H2]; [lia|].
  destruct (wait_for_remote_branch d left (S attempt)) as [r t] eqn:Hrec.
  cbn [snd] in H1, H2.
  destruct (attempt <? 6)%nat eqn:Hlt.
  - apply Nat.ltb_lt in Hlt. rewrite bool_decide_eq_false_2 in H1 by lia.
    cbn. rewrite E1, E2, E3, E4, H1. split; lia.
  - apply Nat.ltb_ge in Hlt. assert (left = 0%nat) as -> by lia.
    cbn in Hrec. injection Hrec as <- <-. cbn. rewrite E1, E2. split; [done|lia].
Qed.

(** [wait_for_remote_branch] asks the remote at most six times, sleeps
    once between two questions and never after the last, and answers
    whether one of the six attempts saw the branch. *)
Theorem remote_branch_wait_is_bounded (d : Driver) :
  let r := wait_for_remote_branch d 6 1 in
  fst r = Some (existsb (remote_branch_visible d) (seq 1 6))
  /\ (1 <= execs "git ls-remote" (snd r) <= 6)%nat
  /\ execs "git ls-remote" (snd r) = S (execs "sleep" (snd r)).
Proof.
  cbv zeta. split; [apply wait_for_remote_branch_fst|].
  destruct (wait_for_remote_branch_count d 6 1 eq_refl) as [H1 H2].
  rewrite bool_decide_eq_false_2 in H1 by done. cbv zeta in H1, H2.
  split; [lia|exact H1].
Qed.

(** * The DONE lines *)







(** * The supervisor, further *)

Lemma substring_all s : String.substring 0 (String.length s) s = s.
Proof. induction s as [|c r IH]; [done|]. cbn. by rewrite IH. Qed.

Lemma substring_tile n s :
  (n <= String.length s)%nat ->
  String.substring 0 n s +:+ String.substring n (String.length s - n) s = s.
Proof.
  revert s. induction n as [|n IH]; intros s Hn.
  - rewrite Nat.sub_0_r, substring_all. by destruct s.
  - destruct s as [|c r]; [cbn in Hn; lia|]. cbn in Hn.
    cbn [String.substring String.length Nat.sub].
    change (String c ?a +:+ ?b) with (String c (a +:+ b)).
    rewrite IH by lia. reflexivity.
Qed.

Lemma substring_all_p p s : forall n m,
  Str.all p s = true -> Str.all p (String.substring n m s) = true.
Proof.
  induction s as [|c r IH]; intros n m H; [by destruct n, m|].
  cbn [Str.all] in H. apply andb_true_iff in H as [Hc Hr].
  destruct n as [|n]; cbn [String.substring].
  - destruct m as [|m]; [done|]. cbn [Str.all]. by rewrite Hc, IH.
  - by apply IH.
Qed.

(** [readNewLogChunk] on an existing log file and an offset within it:
    the next offset is the file's size, and reading again at the next
    offset, with the file unchanged, returns nothing.  For a file of ASCII
    text the part already read and the chunk make up the file. *)
Theorem log_chunks_tile_file (w : World) (filePath content : string) (offset : Z) :
  readFile w filePath = Some content ->
  (0 <= offset <= Z.of_nat (String.length content))%Z ->
  let '(chunk, nextOffset) := readNewLogChunk w filePath offset in
  nextOffset = Z.of_nat (String.length content)
  /\ (Str.all Str.is_ascii content = true ->
      String.substring 0 (Z.to_nat offset) content +:+ chunk = content)
  /\ readNewLogChunk w filePath nextOffset = (EmptyString, nextOffset).
Proof.
  intros Hfile Hoff. unfold readNewLogChunk. rewrite Hfile.
  set (size := Z.of_nat (String.length content)).
  assert (Hagain : (if (size <=? size)%Z then (EmptyString, size)
                    else (toString_utf8 w
                            (String.substring (Z.to_nat size) (Z.to_nat (size - size)) content),
                          size))
                   = (EmptyString, size)) by (by rewrite Z.leb_refl).
  destruct (size <=? offset)%Z eqn:Hle.
  - apply Z.leb_le in Hle. assert (offset = size) as -> by (fold size in Hoff; lia).
    split; [done|]. split; [|exact Hagain]. intros _.
    unfold size. rewrite Nat2Z.id, substring_all. apply append_empty_r.
  - apply Z.leb_gt in Hle. split; [done|]. split; [|exact Hagain]. intros Hascii.
    unfold toString_utf8. rewrite (substring_all_p _ _ _ _ Hascii).
    replace (Z.to_nat (size - offset)) with (String.length content - Z.to_nat offset)%nat
      by (unfold size; lia).
    apply substring_tile. unfold size in Hle. lia.
Qed.

Lemma log_chunks_tile_file_witness :
  let '(chunk, nextOffset) := readNewLogChunk log_world "/w/opencode-loop.log" 11 in
  nextOffset = Z.of_nat (String.length "[12:00:00] [DONE] Total duration: 42s")
  /\ String.substring 0 (Z.to_nat 11) "[12:00:00] [DONE] Total duration: 42s" +:+ chunk
     = "[12:00:00] [DONE] Total duration: 42s"
  /\ readNewLogChunk log_world "/w/opencode-loop.log" nextOffset = (EmptyString, nextOffset).
Proof.
  pose proof (log_chunks_tile_file log_world "/w/opencode-loop.log"
                "[12:00:00] [DONE] Total duration: 42s" 11 eq_refl) as H.
  destruct (readNewLogChunk log_world "/w/opencode-loop.log" 11) as [chunk nextOffset].
  destruct H as (H1 & H2 & H3); [vm_compute; split; discriminate|].
  split; [exact H1|]. split; [apply H2; vm_compute; reflexivity|exact H3].
Defined.

(** ** The pull request *)

Lemma same_progress_refl st : same_progress st st.
Proof. by repeat split. Qed.

Lemma same_progress_trans a b c : same_progress a b -> same_progress b c -> same_progress a c.
Proof. unfold same_progress. intros H1 H2. destruct_and!. repeat split; congruence. Qed.

Lemma same_progress_merge st s m :
  same_progress st (set_prMergeMessage m (set_prMergeStatus s st)).
Proof. destruct st. by repeat split. Qed.

Lemma same_progress_message st m : same_progress st (set_prMergeMessage m st).
Proof. destruct st. by repeat split. Qed.

Lemma same_progress_applyPrView st view : same_progress st (applyPrView st view).
Proof. destruct st. by repeat split. Qed.

Lemma refreshRunPrStatus_same runId fetch st :
  same_progress st (refreshRunPrStatus runId fetch st).1.2.
Proof.
  unfold refreshRunPrStatus. destruct (negb (truthy (prUrl st))); [apply same_progress_refl|].
  destruct fetch as [msg|view]; cbn [fst snd].
  - eapply same_progress_trans; apply same_progress_merge.
  - eapply same_progress_trans; [apply same_progress_merge|apply same_progress_applyPrView].
Qed.

Lemma executeMerge_same active runId gh st :
  same_progress st (executeMerge active runId gh st).1.2.
Proof.
  unfold executeMerge. destruct (negb (truthy (prUrl st))); [apply same_progress_refl|].
  destruct (merge_error gh) as [msg|].
  - cbn [fst snd]. eapply same_progress_trans; apply same_progress_merge.
  - pose proof (refreshRunPrStatus_same runId (second_view gh)
                  (set_prMergeMessage (Some "Submitting merge request...")
                     (set_prMergeStatus PrAutoMerging st))) as H.
    destruct (refreshRunPrStatus runId (second_view gh) _) as [[ok st'] e2].
    cbn [fst snd] in H.
    assert (same_progress st st') as H'
      by (eapply same_progress_trans; [apply same_progress_merge|exact H]).
    destruct active.
    + destruct (negb ok || negb (bool_decide (prMergeStatus st' = PrMerged))); cbn [fst snd];
        [|exact H'].
      eapply same_progress_trans; [exact H'|apply same_progress_merge].
    + destruct (negb ok || _); cbn [fst snd].
      * eapply same_progress_trans; apply same_progress_merge.
      * apply same_progress_merge.
Qed.

(** The lifecycle of the pull request never touches the run itself:
    whatever the platform answers, [maybeAutoMergeRun] leaves the run's
    status, phases, log, end time and process id as they were. *)
Theorem auto_merge_keeps_the_run (runId : string) (gh : GhAnswers) (st : RunState) :
  same_progress st (fst (maybeAutoMergeRun runId gh st)).
Proof.
  unfold maybeAutoMergeRun.
  destruct (negb (autoMerge st) || negb (truthy (prUrl st))
            || negb (bool_decide (status st = RunCompleted))); [apply same_progress_refl|].
  pose proof (refreshRunPrStatus_same runId (first_view gh) st) as H.
  destruct (refreshRunPrStatus runId (first_view gh) st) as [[ok st'] e1]. cbn [fst snd] in H.
  destruct (negb ok && bool_decide (prMergeStatus st' = PrFailed)); [exact H|].
  destruct (bool_decide (prMergeStatus st' = PrConflict)).
  { cbn [fst]. eapply same_progress_trans; [exact H|apply same_progress_message]. }
  destruct (bool_decide (prMergeStatus st' = PrReady)
            || bool_decide (prMergeStatus st' = PrChecking)); [|exact H].
  pose proof (executeMerge_same true runId gh st') as H2.
  destruct (executeMerge true runId gh st') as [[ok2 st2] e2]. cbn [fst snd] in *.
  eapply same_progress_trans; [exact H|exact H2].
Qed.

(** [executeMerge] on a registered run with a pull request: it reports
    success exactly when the platform accepted the merge request, and the
    status is "failed" when the request was refused.  After an accepted
    request the status of an active run is "merged" when the pull request
    is seen merged afterwards and "auto-merging" otherwise; the state of a
    run that is held in the history only stays "auto-merging" either way,
    since the refresh works on another copy.  The merge is requested for
    the run's pull request. *)
Theorem merge_outcome (active : bool) (runId : string) (gh : GhAnswers) (st : RunState) :
  truthy (prUrl st) = true ->
  let '(ok, st', es) := executeMerge active runId gh st in
  ok = bool_decide (merge_error gh = None)
  /\ prMergeStatus st'
     = match merge_error gh with
       | Some _ => PrFailed
       | None => if active && view_is_merged (second_view gh) then PrMerged
                 else PrAutoMerging
       end
  /\ Gh_pr_merge (default EmptyString (prUrl st)) ∈ es.
Proof.
  intros Hurl. unfold executeMerge. rewrite Hurl. cbn [negb].
  assert (Hin : forall a b, Gh_pr_merge (default EmptyString (prUrl st))
                  ∈ (broadcast runId a ++ [Gh_pr_merge (default EmptyString (prUrl st))]) ++ b).
  { intros a b. rewrite !elem_of_app, elem_of_cons. left. right. left. reflexivity. }
  assert (Hsame : forall s m, prUrl (set_prMergeMessage m (set_prMergeStatus s st)) = prUrl st)
    by (intros; by destruct st).
  rewrite !Hsame.
  destruct (merge_error gh) as [msg|].
  - rewrite bool_decide_eq_false_2 by done.
    split; [done|]. split; [by destruct st|]. apply Hin.
  - rewrite bool_decide_eq_true_2 by done.
    unfold refreshRunPrStatus. rewrite Hsame, Hurl. cbn [negb].
    set (st1 := set_prMergeMessage (Some "Submitting merge request...")
                  (set_prMergeStatus PrAutoMerging st)).
    assert (Hst1 : prMergeStatus st1 = PrAutoMerging) by (by destruct st).
    destruct active; cbn [andb].
    2:{ (* the refresh works on the stored copy *)
        destruct (second_view gh) as [err|view]; cbn [negb orb].
        - split; [done|]. split; [by destruct st|]. apply Hin.
        - rewrite Hst1. rewrite (bool_decide_eq_false_2 (PrAutoMerging = PrMerged)) by done.
          cbn [negb orb]. split; [done|]. split; [by destruct st|]. apply Hin. }
    destruct (second_view gh) as [err|view]; cbn [view_is_merged].
    + cbn [negb orb]. split; [done|]. split; [by destruct st|]. apply Hin.
    + unfold Str.eqb.
      destruct (bool_decide (view_state view = "MERGED")) eqn:Hm.
      * assert (prMergeStatus
                  (applyPrView
                     (set_prMergeMessage (Some "Checking pull request status...")
                        (set_prMergeStatus PrChecking st1)) view) = PrMerged) as Hst.
        { unfold applyPrView, Str.eqb. rewrite Hm. by destruct st. }
        rewrite Hst. rewrite bool_decide_eq_true_2 by done. cbn [negb orb].
        split; [done|]. split; [exact Hst|]. apply Hin.
      * assert (prMergeStatus
                  (applyPrView
                     (set_prMergeMessage (Some "Checking pull request status...")
                        (set_prMergeStatus PrChecking st1)) view) <> PrMerged) as Hst.
        { unfold applyPrView, Str.eqb. rewrite Hm. destruct st. cbn.
          repeat case_match; discriminate. }
        rewrite (bool_decide_eq_false_2 _ Hst). cbn [negb orb].
        split; [done|]. split; [by destruct st|]. apply Hin.
Qed.

Lemma merge_outcome_witness :
  let '(ok, st', es) := executeMerge true "run-9" mergeable_answers merge_ready_run in
  ok = bool_decide (merge_error mergeable_answers = None)
  /\ prMergeStatus st'
     = match merge_error mergeable_answers with
       | Some _ => PrFailed
       | None => if true && view_is_merged (second_view mergeable_answers) then PrMerged
                 else PrAutoMerging
       end
  /\ Gh_pr_merge (default EmptyString (prUrl merge_ready_run)) ∈ es.
Proof.
  apply (merge_outcome true "run-9" mergeable_answers merge_ready_run).
  vm_compute. reflexivity.
Defined.

(** A pull request that is seen merged after the request: the state of an
    active run says so, the state of a run from the history does not. *)
Example merged_is_seen_by_active_run_only :
  prMergeStatus (executeMerge true "run-9"
                   (mkGhAnswers (inr mergeable_view) None
                      (inr (mkGhPrView "https://github.com/o/r/pull/7" "fix" (Some 7%Z)
                              "MERGED" "UNKNOWN" "opencode/fix-login-bug" "main")))
                   merge_ready_run).1.2 = PrMerged
  /\ prMergeStatus (executeMerge false "run-9"
                      (mkGhAnswers (inr mergeable_view) None
                         (inr (mkGhPrView "https://github.com/o/r/pull/7" "fix" (Some 7%Z)
                                 "MERGED" "UNKNOWN" "opencode/fix-login-bug" "main")))
                      merge_ready_run).1.2 = PrAutoMerging.
Proof. split; vm_compute; reflexivity. Qed.

(** * Loading a history of finished runs *)

Lemma load_one_finished w reg flag run :
  stored_finished run ->
  load_one w (reg, flag) run = (set_persisted (stored_id run) (backfill run) reg, flag).
Proof.
  intros H. unfold load_one. change (status (backfill run)) with (stored_status run).
  by rewrite (bool_decide_eq_false_2 _ H).
Qed.

Lemma load_finished_fold w runs : forall reg flag,
  Forall stored_finished runs ->
  foldl (load_one w) (reg, flag) runs
  = (foldl (fun r run => set_persisted (stored_id run) (backfill run) r) reg runs, flag).
Proof.
  induction runs as [|x runs IH]; intros reg flag H; [done|].
  inversion H as [|? ? Hx Hruns]; subst. cbn [foldl].
  rewrite load_one_finished by done. by apply IH.
Qed.

Lemma set_persisted_fold runs : forall reg,
  let reg' := foldl (fun r run => set_persisted (stored_id run) (backfill run) r) reg runs in
  activeRuns reg' = activeRuns reg /\ sent reg' = sent reg
  /\ persistTimer reg' = persistTimer reg
  /\ (forall i, i ∉ stored_id <$> runs -> persistedRuns reg' !! i = persistedRuns reg !! i)
  /\ (forall run, run ∈ runs ->
      exists run', run' ∈ runs /\ stored_id run' = stored_id run
                   /\ persistedRuns reg' !! stored_id run = Some (backfill run')).
Proof.
  induction runs as [|x runs IH]; intros reg; cbv zeta.
  - cbn. repeat split; try done. intros run Hin. by apply elem_of_nil in Hin.
  - cbn [foldl]. destruct (IH (set_persisted (stored_id x) (backfill x) reg))
      as (Ha & Hs & Ht & Hother & Hin). cbv zeta in *.
    split; [by rewrite Ha|]. split; [by rewrite Hs|]. split; [by rewrite Ht|]. split.
    + intros i Hi. rewrite fmap_cons, not_elem_of_cons in Hi. destruct Hi as [Hne Hi].
      rewrite (Hother i Hi). cbn. by rewrite lookup_insert_ne.
    + intros run Hrun.
      assert (Hlater : forall run2, run2 ∈ runs -> stored_id run2 = stored_id run ->
                exists run', run' ∈ x :: runs /\ stored_id run' = stored_id run
                  /\ persistedRuns
                       (foldl (fun r run0 => set_persisted (stored_id run0) (backfill run0) r)
                          (set_persisted (stored_id x) (backfill x) reg) runs)
                     !! stored_id run = Some (backfill run')).
      { intros run2 H2 Hid. destruct (Hin run2 H2) as (run' & H' & Hid' & Hl).
        exists run'. split; [by apply list_elem_of_further|]. split; [congruence|].
        by rewrite <- Hid. }
      apply elem_of_cons in Hrun as [->|Hrun]; [|by apply (Hlater run)].
      destruct (decide (stored_id x ∈ stored_id <$> runs)) as [Hdup|Hfresh].
      * apply list_elem_of_fmap in Hdup as (run2 & Hid & H2). by apply (Hlater run2).
      * exists x. split; [apply list_elem_of_here|]. split; [done|].
        rewrite (Hother _ Hfresh). cbn. apply lookup_insert_eq.
Qed.

(** A history that holds finished runs only is loaded as it is: no run
    becomes active, nothing is sent or signalled, no write of the history
    is scheduled, and every stored run is found under its id, with the
    defaults filled in (the last one, when an id occurs twice). *)
Theorem finished_history_is_loaded_as_is (w : World) (runs : list StoredRun) (reg : Registry) :
  Forall stored_finished runs ->
  let reg' := loadPersistedRuns w (Some runs) reg in
  activeRuns reg' = activeRuns reg /\ sent reg' = sent reg
  /\ persistTimer reg' = persistTimer reg
  /\ (forall i, i ∉ stored_id <$> runs -> persistedRuns reg' !! i = persistedRuns reg !! i)
  /\ (forall run, run ∈ runs ->
      exists run', run' ∈ runs /\ stored_id run' = stored_id run
                   /\ persistedRuns reg' !! stored_id run = Some (backfill run')).
Proof.
  intros H. unfold loadPersistedRuns. rewrite load_finished_fold by done.
  apply set_persisted_fold.
Qed.

Lemma finished_history_is_loaded_as_is_witness :
  let runs := [finished_stored_run "run-7" RunCompleted; finished_stored_run "run-8" RunFailed] in
  let reg' := loadPersistedRuns quiet_world (Some runs) empty_registry in
  activeRuns reg' = activeRuns empty_registry /\ sent reg' = sent empty_registry
  /\ persistTimer reg' = persistTimer empty_registry
  /\ (forall i, i ∉ stored_id <$> runs ->
      persistedRuns reg' !! i = persistedRuns empty_registry !! i)
  /\ (forall run, run ∈ runs ->
      exists run', run' ∈ runs /\ stored_id run' = stored_id run
                   /\ persistedRuns reg' !! stored_id run = Some (backfill run')).
Proof.
  apply (finished_history_is_loaded_as_is quiet_world
           [finished_stored_run "run-7" RunCompleted; finished_stored_run "run-8" RunFailed]
           empty_registry).
  repeat constructor; discriminate.
Defined.

(** * The repository of a remote *)

Lemma strip_prefix_app p x : Str.strip_prefix p (p +:+ x) = Some x.
Proof.
  induction p as [|c p IH]; [by destruct x|].
  change (String c p +:+ x) with (String c (p +:+ x)). cbn [Str.strip_prefix].
  by rewrite bool_decide_eq_true_2.
Qed.

Lemma append_length a b :
  String.length (a +:+ b) = (String.length a + String.length b)%nat.
Proof.
  induction a as [|c a IH]; [done|].
  change (String c a +:+ b) with (String c (a +:+ b)). cbn [String.length]. by rewrite IH.
Qed.

Lemma strip_suffix_app suffix x : strip_suffix suffix (x +:+ suffix) = Some x.
Proof.
  induction x as [|c x IH].
  - change (EmptyString +:+ suffix) with suffix.
    destruct suffix; cbn [strip_suffix]; unfold Str.eqb; by rewrite bool_decide_eq_true_2.
  - change (String c x +:+ suffix) with (String c (x +:+ suffix)). cbn [strip_suffix].
    unfold Str.eqb. rewrite bool_decide_eq_false_2.
    + by rewrite IH.
    + intros Heq. apply (f_equal String.length) in Heq. cbn [String.length] in Heq.
      rewrite append_length in Heq. lia.
Qed.

Lemma strip_suffix_Some suffix s r : strip_suffix suffix s = Some r -> s = r +:+ suffix.
Proof.
  revert r. induction s as [|c s IH]; intros r; cbn [strip_suffix]; unfold Str.eqb.
  - case_bool_decide as H; [|done]. intros [= <-]. done.
  - case_bool_decide as H; [intros [= <-]; done|].
    destruct (strip_suffix suffix s) as [r'|]; [|done]. cbn. intros [= <-].
    by rewrite (IH r' eq_refl).
Qed.

Lemma free_of_app sep a b : free_of sep a -> free_of sep b -> free_of sep (a +:+ b).
Proof.
  unfold free_of. intros Ha Hb. induction a as [|c a IH]; [done|].
  change (String c a +:+ b) with (String c (a +:+ b)). cbn [Str.all] in *.
  apply andb_true_iff in Ha as [Hc Ha]. by rewrite Hc, IH.
Qed.

Lemma span_stops p a c b :
  Str.all p a = true -> p c = false -> Str.span p (a +:+ String c b) = (a, String c b).
Proof.
  intros Ha Hc. induction a as [|x a IH].
  - change (EmptyString +:+ ?y) with y. cbn [Str.span]. by rewrite Hc.
  - change (String x a +:+ ?y) with (String x (a +:+ y)). cbn [Str.all Str.span] in *.
    apply andb_true_iff in Ha as [Hx Ha]. by rewrite Hx, (IH Ha).
Qed.

Lemma contains_sep sep a b : ~ free_of sep (a +:+ String sep b).
Proof.
  unfold free_of. induction a as [|c a IH].
  - change (EmptyString +:+ ?y) with y. cbn [Str.all].
    rewrite bool_decide_eq_true_2 by done. cbn. discriminate.
  - change (String c a +:+ ?y) with (String c (a +:+ y)). cbn [Str.all].
    intros [_ H]%andb_true_iff. by apply IH.
Qed.

Lemma strip_suffix_after_sep sep suffix a b :
  free_of sep suffix ->
  strip_suffix suffix (a +:+ String sep b)
  = (fun r => a +:+ String sep r) <$> strip_suffix suffix b.
Proof.
  intros Hfree. induction a as [|c a IH].
  - change (EmptyString +:+ ?y) with y. cbn [strip_suffix]. unfold Str.eqb at 1.
    rewrite bool_decide_eq_false_2.
    + by destruct (strip_suffix suffix b).
    + intros <-. by apply (contains_sep sep EmptyString b).
  - change (String c a +:+ ?y) with (String c (a +:+ y)). cbn [strip_suffix].
    unfold Str.eqb at 1. rewrite bool_decide_eq_false_2.
    + rewrite IH. by destruct (strip_suffix suffix b).
    + intros <-. by apply (contains_sep sep (String c a) b).
Qed.

Lemma parse_repo_of_path owner name :
  repo_part owner -> repo_part name ->
  existsb owner_and_name (Sh.lines (owner +:+ "/" +:+ name)) = true.
Proof.
  intros (Ho1 & Ho2 & Ho3) (Hn1 & Hn2 & Hn3).
  assert (Sh.echo_option (owner +:+ "/" +:+ name) = false) as Hopt.
  { apply not_true_is_false. intros H. apply echo_option_lower in H as [H _].
    assert (Str.includes (Str.toLowerCase (owner +:+ "/" +:+ name)) "/" = true) as Hinc.
    { clear. induction owner as [|c o IH]; [reflexivity|].
      change (String c o +:+ ?y) with (String c (o +:+ y)).
      unfold Str.toLowerCase in *. cbn [Str.map Str.includes]. rewrite IH. apply orb_true_r. }
    pose proof (includes_all _ _ _ Hinc H) as Hslash. vm_compute in Hslash. discriminate. }
  unfold Sh.lines. rewrite Hopt, split_free.
  2:{ apply free_of_app; [done|]. apply (free_of_app _ "/" name); [reflexivity|done]. }
  cbn [existsb]. rewrite orb_false_r. unfold owner_and_name.
  change ("/" +:+ name) with (String "/" name).
  rewrite (span_stops _ owner "/" name Ho2 eq_refl).
  rewrite Ho1, Hn1. cbn [negb andb]. exact Hn2.
Qed.

(** A round trip: from each of the three ways of writing the URL of a
    repository, with or without the [.git] ending, [parse_repo_from_url]
    recovers "owner/name". *)
Theorem parse_repo_round_trip (prefix owner name : string) :
  prefix ∈ github_prefixes -> repo_part owner -> repo_part name ->
  parse_repo_from_url (prefix +:+ owner +:+ "/" +:+ name +:+ ".git") = owner +:+ "/" +:+ name
  /\ (strip_suffix ".git" name = None ->
      parse_repo_from_url (prefix +:+ owner +:+ "/" +:+ name) = owner +:+ "/" +:+ name).
Proof.
  intros Hp Ho Hn.
  assert (Hassoc : owner +:+ "/" +:+ name +:+ ".git" = (owner +:+ "/" +:+ name) +:+ ".git")
    by (by rewrite !append_assoc_str).
  assert (Hpre : forall rest,
            match Str.strip_prefix "git@github.com:" (prefix +:+ rest) with
            | Some r => r
            | None =>
                match Str.strip_prefix "https://github.com/" (prefix +:+ rest) with
                | Some r => r
                | None =>
                    match Str.strip_prefix "ssh://git@github.com/" (prefix +:+ rest) with
                    | Some r => r
                    | None => EmptyString
                    end
                end
            end = rest).
  { intros rest. unfold github_prefixes in Hp.
    rewrite !elem_of_cons, elem_of_nil in Hp. destruct Hp as [->|[->|[->|[]]]].
    - by rewrite strip_prefix_app.
    - change (Str.strip_prefix "git@github.com:" ("https://github.com/" +:+ rest)) with (@None string).
      by rewrite strip_prefix_app.
    - change (Str.strip_prefix "git@github.com:" ("ssh://git@github.com/" +:+ rest))
        with (@None string).
      change (Str.strip_prefix "https://github.com/" ("ssh://git@github.com/" +:+ rest))
        with (@None string).
      by rewrite strip_prefix_app. }
  pose proof (parse_repo_of_path owner name Ho Hn) as Hline.
  split.
  - unfold parse_repo_from_url. rewrite Hpre, Hassoc, strip_suffix_app.
    change (default ?a (Some ?b)) with b. by rewrite Hline.
  - intros Hnogit. unfold parse_repo_from_url. rewrite Hpre.
    assert (Hnone : strip_suffix ".git" (owner +:+ "/" +:+ name) = None).
    { change ("/" +:+ name) with (String "/" name).
      by rewrite (strip_suffix_after_sep "/" ".git" owner name eq_refl), Hnogit. }
    rewrite Hnone.
    change (default ?a None) with a. by rewrite Hline.
Qed.

Lemma parse_repo_round_trip_witness :
  parse_repo_from_url ("git@github.com:" +:+ "natelindev" +:+ "/" +:+ "code-loop" +:+ ".git")
  = "natelindev" +:+ "/" +:+ "code-loop"
  /\ (strip_suffix ".git" "code-loop" = None ->
      parse_repo_from_url ("git@github.com:" +:+ "natelindev" +:+ "/" +:+ "code-loop")
      = "natelindev" +:+ "/" +:+ "code-loop").
Proof.
  apply (parse_repo_round_trip "git@github.com:" "natelindev" "code-loop").
  - vm_compute. apply list_elem_of_here.
  - vm_compute. auto.
  - vm_compute. auto.
Defined.

(** Only the hosting platform's URLs give a repository: a non-empty
    result is what follows one of the three prefixes in the URL, without
    a [.git] ending, and one of its lines reads "owner/name". *)
Theorem parse_repo_only_from_platform (url : string) :
  parse_repo_from_url url <> EmptyString ->
  exists prefix rest,
    prefix ∈ github_prefixes /\ url = prefix +:+ rest
    /\ (rest = parse_repo_from_url url \/ rest = parse_repo_from_url url +:+ ".git")
    /\ existsb owner_and_name (Sh.lines (parse_repo_from_url url)) = true.
Proof.
  unfold parse_repo_from_url.
  set (repo := match Str.strip_prefix "git@github.com:" url with
               | Some r => r
               | None => _
               end).
  assert (Hrepo : repo = EmptyString
                  \/ exists prefix, prefix ∈ github_prefixes /\ url = prefix +:+ repo).
  { unfold repo, github_prefixes.
    destruct (Str.strip_prefix "git@github.com:" url) as [r|] eqn:E1.
    { right. eexists. split; [|apply (strip_prefix_Some _ _ _ E1)]. set_solver. }
    destruct (Str.strip_prefix "https://github.com/" url) as [r|] eqn:E2.
    { right. eexists. split; [|apply (strip_prefix_Some _ _ _ E2)]. set_solver. }
    destruct (Str.strip_prefix "ssh://git@github.com/" url) as [r|] eqn:E3.
    { right. eexists. split; [|apply (strip_prefix_Some _ _ _ E3)]. set_solver. }
    by left. }
  clearbody repo.
  destruct (existsb owner_and_name (Sh.lines (default repo (strip_suffix ".git" repo)))) eqn:Hline;
    [|done].
  intros Hne. destruct Hrepo as [->|(prefix & Hp & ->)]; [by vm_compute in Hline|].
  exists prefix, repo. split; [done|]. split; [done|]. split; [|done].
  destruct (strip_suffix ".git" repo) as [r|] eqn:E; cbn [default]; [|by left].
  right. by apply strip_suffix_Some.
Qed.

Lemma parse_repo_only_from_platform_witness :
  exists prefix rest,
    prefix ∈ github_prefixes /\ "https://github.com/natelindev/code-loop.git" = prefix +:+ rest
    /\ (rest = parse_repo_from_url "https://github.com/natelindev/code-loop.git"
        \/ rest = parse_repo_from_url "https://github.com/natelindev/code-loop.git" +:+ ".git")
    /\ existsb owner_and_name
         (Sh.lines (parse_repo_from_url "https://github.com/natelindev/code-loop.git")) = true.
Proof.
  apply (parse_repo_only_from_platform "https://github.com/natelindev/code-loop.git").
  vm_compute. discriminate.
Defined.

(** Another host gives no repository. *)
Example other_host : parse_repo_from_url "https://gitlab.com/natelindev/code-loop.git" = EmptyString.
Proof. vm_compute. reflexivity. Qed.

(** * Cleaning the agent's output *)

Lemma drop_while_end_idem p s :
  Str.drop_while_end p (Str.drop_while_end p s) = Str.drop_while_end p s.
Proof.
  induction s as [|c r IH]; [done|]. cbn [Str.drop_while_end].
  destruct (Str.is_empty (Str.drop_while_end p r) && p c) eqn:E; [done|].
  cbn [Str.drop_while_end]. by rewrite IH, E.
Qed.

Lemma drop_while_head p s :
  Str.drop_while p s = EmptyString
  \/ exists c r, Str.drop_while p s = String c r /\ p c = false.
Proof.
  unfold Str.drop_while. induction s as [|c r IH]; [by left|]. cbn [Str.span].
  destruct (p c) eqn:E.
  - destruct (Str.span p r) as [a b]. exact IH.
  - right. by exists c, r.
Qed.

Lemma trim_idem s : Str.trim (Str.trim s) = Str.trim s.
Proof.
  unfold Str.trim. destruct (drop_while_head Str.is_space s) as [->|(c & r & -> & Hc)]; [done|].
  cbn [Str.drop_while_end]. rewrite Hc, andb_false_r.
  unfold Str.drop_while at 1. cbn [Str.span]. rewrite Hc. cbn [snd Str.drop_while_end].
  by rewrite drop_while_end_idem, Hc, andb_false_r.
Qed.

(** What [cleanup_text_output] prints: every line is trimmed and there
    are no more lines than were put in.  When every line of the text, its
    colour codes removed, begins with the quoting mark, nothing is printed
    and the status of the pipeline is 1. *)
Theorem cleaned_output (text : string) :
  let '(status, ls) := cleanup_text_output text in
  Forall (fun l => Str.trim l = l) ls
  /\ (length ls <= length (Sh.lines text))%nat
  /\ (Forall (fun l => Str.startsWith (strip_ansi l) ">" = true) (Sh.lines text) ->
      status = 1%Z /\ ls = []).
Proof.
  unfold cleanup_text_output. split; [|split].
  - apply Forall_forall. intros l Hl. apply list_elem_of_In, in_map_iff in Hl.
    destruct Hl as (x & <- & _). apply trim_idem.
  - rewrite length_map. etransitivity; [apply length_filter|].
    etransitivity; [apply length_filter|]. by rewrite length_map.
  - intros Hall.
    assert (filter (fun l => Str.startsWith l ">" = false) (map strip_ansi (Sh.lines text)) = [])
      as ->.
    { induction Hall as [|l ls Hl _ IH]; [done|]. cbn [map].
      rewrite filter_cons_False by (rewrite Hl; discriminate). exact IH. }
    by rewrite bool_decide_eq_true_2.
Qed.

(** Quoted lines are dropped, the others are trimmed. *)
Example cleaned_review :
  cleanup_text_output (String.concat (String Str.newline EmptyString)
                         ["> reading files"; "  LGTM  "; ""])
  = (0%Z, ["LGTM"]).
Proof. vm_compute. reflexivity. Qed.
